(** * bifrost: registration and template-building pipeline

    A shallow embedding of the orchestration code of [bifrost]
    ([util.py], [io.py], [cli/register.py], [cli/build_template.py]) and
    the properties of it that the design document states.

    Conventions.
    - numpy arrays are a shape and a flat row-major buffer ([NDArray]);
    - floating point voxels are idealised as exact rationals ([Q]);
    - Python exceptions are results of a state-and-exception monad whose
      state (file system, log, pending faults) survives a raise;
    - the registration engine, the resampler and the HDF5 filter pipeline
      are external collaborators and enter as [Section] variables. *)

From Equations Require Import Equations.
From Stdlib Require Import QArith Qfield Qround ZArith Lia Lqa List Sorted Bool Ascii String.
From stdpp Require Import base option list gmap strings pretty.
Close Scope Q_scope.
Local Open Scope nat_scope.

(* ====================================================================== *)
(** ** numpy arrays *)
(* ====================================================================== *)

Module NDArray.

Section ndarray.
Context {A : Type}.

(** An [np.ndarray]: [shape] and the elements in C (row-major) order. *)
Record ndarray := mk_ndarray { shape : list nat; data : list A }.

(** [np.prod(shape)] *)
Definition size_of (shp : list nat) : nat := foldr Nat.mul 1 shp.

(** Flat offset of a multi-index ([np.ravel_multi_index]). *)
Fixpoint ravel (shp idx : list nat) : nat :=
  match shp, idx with
  | _ :: shp', i :: idx' => i * size_of shp' + ravel shp' idx'
  | _, _ => 0
  end.

(** A multi-index is valid when it has one in-range entry per axis. *)
Fixpoint in_bounds (shp idx : list nat) : bool :=
  match shp, idx with
  | [], [] => true
  | s :: shp', i :: idx' => (i <? s) && in_bounds shp' idx'
  | _, _ => false
  end.

(** All valid multi-indices, in C order ([np.ndindex]). *)
Fixpoint indices (shp : list nat) : list (list nat) :=
  match shp with
  | [] => [[]]
  | s :: shp' => i ← seq 0 s; cons i <$> indices shp'
  end.

(** [a[idx]] for a full multi-index; [None] is Python's [IndexError]. *)
Definition get (a : ndarray) (idx : list nat) : option A :=
  if in_bounds (shape a) idx then data a !! ravel (shape a) idx else None.

(** Build an array of shape [shp] element by element; fails when the
    element function fails at some index. *)
Definition tabulate (shp : list nat) (f : list nat → option A) : option ndarray :=
  d ← mapM f (indices shp); Some (mk_ndarray shp d).

Definition well_formed (a : ndarray) : Prop :=
  length (data a) = size_of (shape a).

(** [[arr[idx] for idx in transposition]] *)
Definition permute {B : Type} (arr : list B) (transposition : list nat)
  : option (list B) :=
  mapM (λ idx, arr !! idx) transposition.

(** Position of axis [j] in [axes]. *)
Fixpoint position_of (j : nat) (axes : list nat) : option nat :=
  match axes with
  | [] => None
  | p :: axes' => if p =? j then Some 0 else S <$> position_of j axes'
  end.

Definition inverse_axes (axes : list nat) : option (list nat) :=
  mapM (λ j, position_of j axes) (seq 0 (length axes)).

(** [np.transpose(a, axes)]: axis [k] of the result is axis [axes[k]] of
    [a], so [result[i'] = a[i]] with [i'[k] = i[axes[k]]].  numpy raises
    [ValueError] unless [axes] is a permutation of the axes of [a]. *)
Definition np_transpose (a : ndarray) (axes : list nat) : option ndarray :=
  if negb (length axes =? length (shape a)) then None else
  shp' ← permute (shape a) axes;
  inv ← inverse_axes axes;
  tabulate shp' (λ idx', idx ← permute idx' inv; get a idx).

(** The index read by a flip along [axis]. *)
Fixpoint flip_index (shp : list nat) (axis : nat) (idx : list nat) : list nat :=
  match shp, idx with
  | s :: shp', i :: idx' =>
      match axis with
      | 0 => (s - 1 - i) :: idx'
      | S axis' => i :: flip_index shp' axis' idx'
      end
  | _, _ => idx
  end.

(** [np.flip(a, axis)]; an axis outside the array is numpy's [AxisError]. *)
Definition np_flip (a : ndarray) (axis : nat) : option ndarray :=
  if axis <? length (shape a)
  then tabulate (shape a) (λ idx, get a (flip_index (shape a) axis idx))
  else None.

End ndarray.

Arguments ndarray : clear implicits.

(** Python's [sorted] on a list of integers (stable insertion sort). *)
Fixpoint insert_sorted (x : nat) (l : list nat) : list nat :=
  match l with
  | [] => [x]
  | y :: l' => if x <? y then x :: l else y :: insert_sorted x l'
  end.

Definition sorted (l : list nat) : list nat := foldr insert_sorted [] l.

(** [np.argsort]: the indices that sort the keys; ties keep their order.
    The indices are inserted from the last to the first, each in front of
    the first index whose key is not smaller. *)
Fixpoint insert_by_key (keys : list nat) (i : nat) (l : list nat) : list nat :=
  match l with
  | [] => [i]
  | j :: l' =>
      if default 0 (keys !! i) <=? default 0 (keys !! j)
      then i :: l else j :: insert_by_key keys i l'
  end.

Definition argsort (keys : list nat) : list nat :=
  foldr (insert_by_key keys) [] (seq 0 (length keys)).

(** *** Elementwise arithmetic on rational arrays *)

Definition np_map (f : Q → Q) (a : ndarray Q) : ndarray Q :=
  mk_ndarray (shape a) (f <$> data a).

(** Binary elementwise operation.  Operands of different shapes are
    rejected (the source only combines arrays of one shape; numpy's
    broadcasting between different shapes is outside the embedding). *)
Definition np_zip (f : Q → Q → Q) (a b : ndarray Q) : option (ndarray Q) :=
  if bool_decide (shape a = shape b)
  then Some (mk_ndarray (shape a) (zip_with f (data a) (data b)))
  else None.

Definition np_sub := np_zip Qminus.
Definition np_add := np_zip Qplus.
Definition np_square := np_map (λ x, x * x)%Q.
Definition np_neg := np_map Qopp.
Definition np_div_scalar (a : ndarray Q) (n : Q) := np_map (λ x, x / n)%Q a.
Definition np_mul_scalar (a : ndarray Q) (n : Q) := np_map (λ x, x * n)%Q a.
Definition np_sum (a : ndarray Q) : Q := foldr Qplus 0%Q (data a).

(** [np.mean([a, b], axis=0)] *)
Definition np_mean2 (a b : ndarray Q) : option (ndarray Q) :=
  np_zip (λ x y, (x + y) / 2)%Q a b.


(** [np.argmin]: index of the first minimum; [ValueError] on an empty
    sequence. *)
Fixpoint argmin_from (best_i : nat) (best : Q) (i : nat) (l : list Q) : nat :=
  match l with
  | [] => best_i
  | x :: l' =>
      if Qlt_le_dec x best then argmin_from i x (S i) l'
      else argmin_from best_i best (S i) l'
  end.

Definition argmin (l : list Q) : option nat :=
  match l with
  | [] => None
  | x :: l' => Some (argmin_from 0 x 1 l')
  end.

End NDArray.

(* ====================================================================== *)
(** ** util.py *)
(* ====================================================================== *)

Module Util.
Import NDArray.

(** An [ants.ANTsImage]: the voxel array returned by [image.numpy()] and
    the physical metadata. [direction] is the list of rows of the
    direction matrix. *)
Record ants_image := mk_image {
  img_array : ndarray Q;
  origin : list Q;
  spacing : list Q;
  direction : list (list Q);
  has_components : bool
}.

Definition numpy (image : ants_image) : ndarray Q := img_array image.

(** [ants.from_numpy(data, origin=, spacing=, direction=, has_components=)] *)
Definition from_numpy (arr : ndarray Q) (o s : list Q) (d : list (list Q))
    (c : bool) : ants_image :=
  mk_image arr o s d c.

(** [update_image_array]: replace the voxels, keep the metadata; the
    shape assertion fails with [None]. *)
Definition update_image_array (image : ants_image) (updated : ndarray Q)
  : option ants_image :=
  if bool_decide (shape (numpy image) = shape updated)
  then Some (from_numpy updated (origin image) (spacing image)
               (direction image) (has_components image))
  else None.

(** [transpose_image(image, transposition)] *)
Definition transpose_image (image : ants_image) (transposition : list nat)
  : option ants_image :=
  if bool_decide (sorted transposition = seq 0 (length transposition)) then
    image_arr ← np_transpose (numpy image) transposition;
    o ← permute (origin image) transposition;
    s ← permute (spacing image) transposition;
    d ← permute (direction image) transposition;
    Some (from_numpy image_arr o s d (has_components image))
  else None.

(** A three-dimensional scalar volume as ANTs produces it. *)
Record volume3d (image : ants_image) : Prop := {
  vol_rank : length (shape (numpy image)) = 3;
  vol_data : well_formed (numpy image);
  vol_origin : length (origin image) = 3;
  vol_spacing : length (spacing image) = 3;
  vol_direction : length (direction image) = 3
}.

(** The six orderings of three axes. *)
Definition axis_orders : list (list nat) :=
  [[0;1;2]; [0;2;1]; [1;0;2]; [1;2;0]; [2;0;1]; [2;1;0]].

End Util.

(* ====================================================================== *)
(** ** Python effects: exceptions over a mutable state *)
(* ====================================================================== *)

Module Py.

(** The exception classes the modelled code can raise.  [EngineError]
    stands for whatever the registration engine or an image read, write
    or copy raises when it fails. *)
Inductive exn :=
  | AssertionError
  | IndexError
  | ValueError
  | UnboundLocalError
  | FileNotFoundError
  | FileExistsError
  | NotADirectoryError
  | IsADirectoryError
  | KeyError
  | OSError
  | EngineError.

Inductive result (A : Type) :=
  | Returns (a : A)
  | Raises (e : exn).
Arguments Returns {A} a.
Arguments Raises {A} e.

(** A computation over a state [S]: what was written before a raise stays
    written. *)
Definition M (S A : Type) : Type := S → result A * S.

Definition ret {S A} (a : A) : M S A := λ s, (Returns a, s).

Definition bind {S A B} (m : M S A) (k : A → M S B) : M S B :=
  λ s, match m s with
       | (Returns a, s') => k a s'
       | (Raises e, s') => (Raises e, s')
       end.

Definition raise {S A} (e : exn) : M S A := λ s, (Raises e, s).

#[global] Instance M_ret {S} : MRet (M S) := @ret S.
#[global] Instance M_bind {S} : MBind (M S) := λ A B k m, bind m k.

(** [try: body except Exception as exc: handler(exc)] *)
Definition try_except {S A} (body : M S A) (handler : exn → M S A) : M S A :=
  λ s, match body s with
       | (Returns a, s') => (Returns a, s')
       | (Raises e, s') => handler e s'
       end.

(** [try: body finally: cleanup].  The cleanup runs on every exit; an
    exception raised by the cleanup replaces the outcome of the body. *)
Definition try_finally {S A} (body : M S A) (cleanup : M S unit) : M S A :=
  λ s, match body s with
       | (r, s') =>
           match cleanup s' with
           | (Returns _, s'') => (r, s'')
           | (Raises e, s'') => (Raises e, s'')
           end
       end.

Definition get_state {S} : M S S := λ s, (Returns s, s).
Definition modify {S} (f : S → S) : M S unit := λ s, (Returns tt, f s).

(** A partial pure step: [None] raises [e]. *)
Definition of_option {S A} (e : exn) (o : option A) : M S A :=
  match o with Some a => ret a | None => raise e end.

Definition py_assert {S} (b : bool) : M S unit :=
  if b then ret tt else raise AssertionError.

(** [for x in xs: body x] *)
Fixpoint for_each {S A} (xs : list A) (body : A → M S unit) : M S unit :=
  match xs with
  | [] => ret tt
  | x :: xs' => body x;; for_each xs' body
  end.

(** Run a computation on a component of the state. *)
Definition zoom {S T A} (proj : S → T) (update : T → S → S) (m : M T A)
  : M S A :=
  λ s, match m (proj s) with (r, t') => (r, update t' s) end.

End Py.

(* ====================================================================== *)
(** ** Paths and the file system *)
(* ====================================================================== *)

Module FS.
Import NDArray Util Py.
Local Open Scope string_scope.

(** *** Strings *)

(** [s.split(c)] *)
Fixpoint split_on (c : ascii) (s : string) : list string :=
  match s with
  | EmptyString => [""]
  | String a s' =>
      let rest := split_on c s' in
      if Ascii.eqb a c then "" :: rest
      else match rest with
           | h :: t => String a h :: t
           | [] => [String a ""]
           end
  end.

(** [c.join(parts)] *)
Fixpoint join_with (c : string) (parts : list string) : string :=
  match parts with
  | [] => ""
  | [p] => p
  | p :: ps => p +:+ c +:+ join_with c ps
  end.

Definition starts_with (p s : string) : bool := String.prefix p s.

Fixpoint drop_string (n : nat) (s : string) : string :=
  match n, s with
  | S n', String _ s' => drop_string n' s'
  | _, _ => s
  end.

Definition ends_with (suffix s : string) : bool :=
  String.eqb (drop_string (String.length s - String.length suffix) s) suffix
  && (String.length suffix <=? String.length s)%nat.

Definition has_slash (s : string) : bool :=
  negb (length (split_on "/" s) =? 1)%nat.

(** [os.path.basename(path)], also [path.split("/")[-1]] *)
Definition basename (path : string) : string :=
  default "" (last (split_on "/" path)).

(** [os.path.dirname(path)] *)
Definition dirname (path : string) : string :=
  join_with "/" (removelast (split_on "/" path)).

(** [name.split(".")[0]] *)
Definition before_first_dot (name : string) : string :=
  default "" (head (split_on "." name)).

(** [s.rstrip("/")] *)
Fixpoint rstrip_slash (s : string) : string :=
  match s with
  | EmptyString => ""
  | String a s' =>
      match rstrip_slash s' with
      | EmptyString => if Ascii.eqb a "/" then "" else String a ""
      | r => String a r
      end
  end.

(** The path and every directory above it, outermost first. *)
Definition path_prefixes (path : string) : list string :=
  let parts := split_on "/" path in
  filter (λ p, p ≠ "")
    ((λ n, join_with "/" (take n parts)) <$> seq 1 (length parts)).

(** *** Files *)

(** What a file holds: an image (volumes and warp fields, [.nii] and
    [.nii.gz]), the parameters of an affine transform ([.mat]), text, or
    the remains of a write that failed half way. *)
Inductive blob :=
  | BImage (image : ants_image)
  | BMat (parameters fixed_parameters : list Q)
  | BText
  | BTruncated.

Inductive node :=
  | File (content : blob)
  | Dir
  | Symlink (target : string).

Inductive fault := NoFault | Fails | FailsPartway.

Inductive log_level := DEBUG | INFO | WARNING | ERROR.

(** The world a run acts on: the file tree keyed by path, the records
    handed to the logger, and the faults the environment will inject into
    the coming engine and image I/O calls (none once the list is empty). *)
Record world := mk_world {
  fs : gmap string node;
  log : list (log_level * string);
  faults : list fault
}.

Definition set_fs (f : gmap string node → gmap string node) (w : world) : world :=
  mk_world (f (fs w)) (log w) (faults w).

Definition logger (level : log_level) (msg : string) : M world unit :=
  modify (λ w, mk_world (fs w) (log w ++ [(level, msg)]) (faults w)).

(** The outcome of the next external call. *)
Definition next_fault : M world fault :=
  λ w, match faults w with
       | [] => (Returns NoFault, w)
       | f :: rest => (Returns f, mk_world (fs w) (log w) rest)
       end.

(** Follow a symbolic link (one level). *)
Definition resolve (t : gmap string node) (path : string) : option node :=
  match t !! path with
  | Some (Symlink target) => t !! target
  | other => other
  end.

(** [os.path.exists] *)
Definition path_exists (path : string) : M world bool :=
  w ← get_state; ret (bool_decide (is_Some (resolve (fs w) path))).

(** [os.path.isdir] *)
Definition isdir (path : string) : M world bool :=
  w ← get_state;
  ret (match resolve (fs w) path with Some Dir => true | _ => false end).

(** Is [key] strictly below directory [dir]? *)
Definition below (dir key : string) : bool := starts_with (dir +:+ "/") key.

(** The entries directly inside [dir], as names. *)
Definition children (t : gmap string node) (dir : string) : list string :=
  omap (λ kv : string * node,
          let key := kv.1 in
          if below dir key
          then let name := drop_string (String.length dir + 1) key in
               if has_slash name then None else Some name
          else None)
       (map_to_list t).

(** [os.listdir] *)
Definition listdir (path : string) : M world (list string) :=
  w ← get_state;
  match resolve (fs w) path with
  | Some Dir => ret (children (fs w) path)
  | Some _ => raise NotADirectoryError
  | None => raise FileNotFoundError
  end.

(** [glob(f"{dir}/*{suffix}")]: the entries of [dir] whose name ends in
    [suffix]; names starting with a dot are not matched by [*]. *)
Definition glob_star (dir suffix : string) : M world (list string) :=
  w ← get_state;
  ret ((λ name, dir +:+ "/" +:+ name) <$>
       filter (λ name, ends_with suffix name = true ∧
                       starts_with "." name = false)
              (children (fs w) dir)).

(** A new entry needs an existing parent directory; a path without a
    directory part lives in the working directory. *)
Definition parent_is_dir (t : gmap string node) (path : string) : bool :=
  match dirname path with
  | "" => true
  | d => match resolve t d with Some Dir => true | _ => false end
  end.

(** [os.makedirs(path, exist_ok=True)] *)
Definition makedirs (path : string) : M world unit :=
  for_each (path_prefixes path) (λ p,
    w ← get_state;
    match resolve (fs w) p with
    | None => modify (set_fs (insert p Dir))
    | Some Dir => ret tt
    | Some _ => raise FileExistsError
    end).

(** [os.makedirs(path)]: the directory itself must be new. *)
Definition makedirs_new (path : string) : M world unit :=
  w ← get_state;
  match resolve (fs w) path with
  | Some _ => raise FileExistsError
  | None => makedirs path
  end.

(** [shutil.rmtree(path)] *)
Definition rmtree (path : string) : M world unit :=
  w ← get_state;
  match fs w !! path with
  | None => raise FileNotFoundError
  | Some Dir =>
      modify (set_fs (filter (λ kv : string * node,
                                kv.1 ≠ path ∧ below path kv.1 = false)))
  | Some _ => raise NotADirectoryError
  end.

(** [os.remove(path)] *)
Definition remove (path : string) : M world unit :=
  w ← get_state;
  match fs w !! path with
  | None => raise FileNotFoundError
  | Some Dir => raise IsADirectoryError
  | Some _ => modify (set_fs (delete path))
  end.

(** [shutil.move(src, dst)] of a file to a new name. *)
Definition move (src dst : string) : M world unit :=
  w ← get_state;
  match fs w !! src with
  | None => raise FileNotFoundError
  | Some n =>
      if parent_is_dir (fs w) dst
      then modify (set_fs (λ t, <[dst := n]> (delete src t)))
      else raise FileNotFoundError
  end.

(** [os.symlink(target, link_path)] *)
Definition symlink (target link_path : string) : M world unit :=
  w ← get_state;
  match fs w !! link_path with
  | Some _ => raise FileExistsError
  | None =>
      if parent_is_dir (fs w) link_path
      then modify (set_fs (insert link_path (Symlink target)))
      else raise FileNotFoundError
  end.

(** Writing a file through the environment: it can fail before anything
    is written, or part way and leave a truncated file behind. *)
Definition write_file (path : string) (content : blob) : M world unit :=
  w ← get_state;
  if parent_is_dir (fs w) path then
    f ← next_fault;
    match f with
    | NoFault => modify (set_fs (insert path (File content)))
    | Fails => raise EngineError
    | FailsPartway =>
        modify (set_fs (insert path (File BTruncated)));; raise EngineError
    end
  else raise FileNotFoundError.

(** [ants.image_write(image, path)] *)
Definition image_write (image : ants_image) (path : string) : M world unit :=
  write_file path (BImage image).

(** [ants.image_read(path)] *)
Definition image_read (path : string) : M world ants_image :=
  w ← get_state;
  f ← next_fault;
  match f with
  | NoFault =>
      match resolve (fs w) path with
      | Some (File (BImage image)) => ret image
      | Some _ => raise EngineError
      | None => raise ValueError
      end
  | _ => raise EngineError
  end.

(** [shutil.copy(src, dst)] *)
Definition copy (src dst : string) : M world unit :=
  w ← get_state;
  match resolve (fs w) src with
  | Some (File content) => write_file dst content
  | Some _ => raise IsADirectoryError
  | None => raise FileNotFoundError
  end.

End FS.

(* ====================================================================== *)
(** ** io.py: the transform archive *)
(* ====================================================================== *)

Module IO.
Import NDArray Util Py FS.
Local Open Scope string_scope.

(** An [ants.ANTsTransform], as far as the archive records it. *)
Record ants_transform := mk_transform {
  parameters : list Q;
  fixed_parameters : list Q
}.

(** Values of HDF5 attributes. *)
Inductive attr_value :=
  | AttrFloats (values : list Q)
  | AttrMatrix (rows : list (list Q))
  | AttrBool (flag : bool).

Section archive.

(** The HDF5 filter pipeline requested by [chunks=True, compression="gzip",
    compression_opts=9, shuffle=True, fletcher32=True]: what is kept on
    disk for an array, and the array recovered from it ([None] when a
    chunk fails its checksum or does not inflate). *)
Context {stored : Type}
        (filter_encode : ndarray Q → stored)
        (filter_decode : stored → option (ndarray Q)).

Inductive h5_object :=
  | Group (attrs : gmap string attr_value)
  | Dataset (raw : ndarray Q) (attrs : gmap string attr_value)
  | FilteredDataset (chunks : stored) (attrs : gmap string attr_value).

(** An open [h5py.File] and the file system beside it. *)
Record io_state := mk_io {
  archive : gmap string h5_object;
  disk : world
}.

Definition on_archive {A} (m : M (gmap string h5_object) A) : M io_state A :=
  zoom archive (λ a s, mk_io a (disk s)) m.

Definition on_disk {A} (m : M world A) : M io_state A :=
  zoom disk (λ w s, mk_io (archive s) w) m.


(** [h5_handle.create_dataset(name, data=...)], with or without the
    filter pipeline. *)
Definition create_dataset (name : string) (array : ndarray Q) (filtered : bool)
  : M io_state unit :=
  on_archive (
    h ← get_state;
    match h !! name with
    | Some _ => raise ValueError
    | None =>
        modify (insert name
                  (if filtered then FilteredDataset (filter_encode array) ∅
                   else Dataset array ∅))
    end).

(** [h5_handle[name].attrs[key] = value] *)
Definition set_attr (name key : string) (value : attr_value) : M io_state unit :=
  on_archive (
    h ← get_state;
    match h !! name with
    | Some (Dataset raw attrs) =>
        modify (insert name (Dataset raw (<[key := value]> attrs)))
    | Some (FilteredDataset chunks attrs) =>
        modify (insert name (FilteredDataset chunks (<[key := value]> attrs)))
    | Some (Group attrs) =>
        modify (insert name (Group (<[key := value]> attrs)))
    | None => raise KeyError
    end).

(** [h5_handle[name][:]] *)
Definition read_dataset (name : string) : M io_state (ndarray Q) :=
  on_archive (
    h ← get_state;
    match h !! name with
    | Some (Dataset raw _) => ret raw
    | Some (FilteredDataset chunks _) => of_option OSError (filter_decode chunks)
    | Some (Group _) => raise ValueError
    | None => raise KeyError
    end).

(** [h5_handle[name].attrs[key]] *)
Definition get_attr (name key : string) : M io_state attr_value :=
  on_archive (
    h ← get_state;
    match h !! name with
    | Some (Group attrs) | Some (Dataset _ attrs)
    | Some (FilteredDataset _ attrs) => of_option KeyError (attrs !! key)
    | None => raise KeyError
    end).


(** [ants.write_transform(transform, path)] *)
Definition write_transform (transform : ants_transform) (path : string)
  : M world unit :=
  write_file path (BMat (parameters transform) (fixed_parameters transform)).





(** [if isinstance(image, str): image = ants.image_read(image)] *)
Definition load_image (image : ants_image + string) : M io_state ants_image :=
  match image with
  | inl i => ret i
  | inr path => on_disk (image_read path)
  end.

(** [write_image(h5_handle, name, image)] *)
Definition write_image (name : string) (image : ants_image + string)
  : M io_state unit :=
  image ← load_image image;
  let image_arr := numpy image in
  create_dataset name image_arr true;;
  set_attr name "origin" (AttrFloats (origin image));;
  set_attr name "spacing" (AttrFloats (spacing image));;
  set_attr name "direction" (AttrMatrix (direction image));;
  set_attr name "has_components" (AttrBool (has_components image)).

Definition as_floats (v : attr_value) : M io_state (list Q) :=
  match v with AttrFloats l => ret l | _ => raise ValueError end.

Definition as_matrix (v : attr_value) : M io_state (list (list Q)) :=
  match v with AttrMatrix m => ret m | _ => raise ValueError end.

Definition as_bool (v : attr_value) : M io_state bool :=
  match v with AttrBool b => ret b | _ => raise ValueError end.

(** [read_image(h5_handle, name, directory=None)] *)
Definition read_image (name : string) (directory : option string)
  : M io_state (ants_image + string) :=
  array ← read_dataset name;
  o ← get_attr name "origin" ≫= as_floats;
  s ← get_attr name "spacing" ≫= as_floats;
  d ← get_attr name "direction" ≫= as_matrix;
  c ← get_attr name "has_components" ≫= as_bool;
  let image := from_numpy array o s d c in
  match directory with
  | None => ret (inl image)
  | Some directory =>
      let img_path := directory +:+ "/img.nii" in
      present ← on_disk (path_exists img_path);
      py_assert (negb present);;
      on_disk (image_write image img_path);;
      ret (inr img_path)
  end.

End archive.

End IO.

(* ====================================================================== *)
(** ** cli/register.py: transposition, mirror axis, warp symmetrisation *)
(* ====================================================================== *)

Module Register.
Import NDArray Util Py FS.
Local Open Scope string_scope.

Definition TARGET_SHAPE : list nat := [160; 160; 192].

(** The options of [bifrost register] read by the code modelled here. *)
Record arguments := mk_args {
  moving : string;
  fixed : string;
  results_dir : string;
  force : bool;
  mirror_warp : bool;
  skip_affine : bool;
  skip_syn : bool;
  skip_synthmorph : bool
}.

(** The path logic at the head of [register], up to the decision on an
    existing results directory: [true] when the run goes on, [false] at
    the [return]. *)
Definition register_path_logic (args : arguments) : M world bool :=
  present ← path_exists (moving args);
  py_assert present;;
  let results_dir := rstrip_slash (results_dir args) in
  logger INFO ("Storing results in " +:+ results_dir);;
  present ← path_exists results_dir;
  if (present : bool) then
    if force args then
      logger INFO "Cleaning existing results directory";;
      rmtree results_dir;;
      makedirs_new results_dir;;
      ret true
    else
      logger WARNING "Results directory already exists. Run again with -f or --force to override";;
      ret false
  else
    makedirs_new results_dir;;
    ret true.

(** [optimal_transposition = np.argsort(moving_img.shape)] *)
Definition optimal_transposition (moving_img : ants_image) : list nat :=
  argsort (shape (numpy moving_img)).

(** [inverse_transposition = np.argsort(optimal_transposition)] *)
Definition inverse_transposition (moving_img : ants_image) : list nat :=
  argsort (optimal_transposition moving_img).

(** [transposed_shape = [moving_img.shape[idx] for idx in optimal_transposition]] *)
Definition transposed_shape (moving_img : ants_image) : option (list nat) :=
  permute (shape (numpy moving_img)) (optimal_transposition moving_img).

Section mirror_axis.

(** [np.sqrt] on the idealised reals; only the facts below are used. *)
Variable np_sqrt : Q → Q.

(** One round of the loop [for axis_idx in range(3)]:
    [np.sqrt(np.sum((affine_img - mirrored_img) ** 2))]. *)
Definition mirrored_rms (moving_img : ants_image) (axis_idx : nat) : option Q :=
  let affine_img := numpy moving_img in
  mirrored_img ← np_flip affine_img axis_idx;
  difference ← np_sub affine_img mirrored_img;
  Some (np_sqrt (np_sum (np_square difference))).

Definition axis_rms (moving_img : ants_image) : option (list Q) :=
  mapM (mirrored_rms moving_img) (seq 0 3).


(** [mirror_axis = np.argmin([axis_rms[idx] for idx in optimal_transposition])] *)
Definition find_mirror_axis (moving_img : ants_image) : option nat :=
  rms ← axis_rms moving_img;
  transposed_axis_rms ← permute rms (optimal_transposition moving_img);
  argmin transposed_axis_rms.

(** The block guarded by [args.mirror_warp]; the inner [None] is Python's. *)
Definition mirror_axis (mirror_warp : bool) (moving_img : ants_image)
  : option (option nat) :=
  if mirror_warp then Some <$> find_mirror_axis moving_img else Some None.

End mirror_axis.



(** [mirrored_warp[:, :, :, :, c] = src[:, :, :, :, c]] on a rank-5 array. *)
Definition assign_component (dst src : ndarray Q) (c : nat)
  : option (ndarray Q) :=
  match shape dst with
  | [_; _; _; _; n] =>
      if bool_decide (shape src = shape dst) && (c <? n)%nat
      then tabulate (shape dst)
             (λ idx, if bool_decide (last idx = Some c)
                     then get src idx else get dst idx)
      else None
  | _ => None
  end.

(** The block under [# symmetrize warp]. *)
Definition symmetrize_warp (warp : ndarray Q) (mirror_axis : nat)
  : option (ndarray Q) :=
  flipped_warp ← np_flip warp (mirror_axis + 1);
  mirrored_warp ← np_mean2 warp flipped_warp;
  anti_warp ← np_mean2 warp (np_neg flipped_warp);
  assign_component mirrored_warp anti_warp mirror_axis.


End Register.

(* ====================================================================== *)
(** ** cli/build_template.py *)
(* ====================================================================== *)

Module BuildTemplate.
Import NDArray Util Py FS.
Local Open Scope string_scope.

(** The parsed command line of [bifrost build_template]. *)
Record arguments := mk_args {
  input : list string;
  output : string;
  reference_image : option string;
  affine_steps : Z;
  syn_steps : Z;
  gradient_step : Q;
  preprocessing : option (list string);
  force : bool;
  preemptible : bool;
  mirror : bool;
  keep_intermediates : bool;
  log_path_arg : option string;
  verbose : bool
}.

(** What [ants.registration] returns: the warped moving image and the
    forward transform files, here by content. *)
Record registration_result := mk_registration {
  warpedmovout : ants_image;
  fwdtransforms : list blob
}.

(** The locals of [alignment_iteration] whose value must survive an
    exception raised later in the [try] block: [moving] (unbound until the
    first assignment) and the counter [__retries]. *)
Record frame := mk_frame {
  frame_world : world;
  moving_var : option ants_image;
  retries_var : nat
}.

Definition in_world {A} (m : M world A) : M frame A :=
  zoom frame_world (λ w fr, mk_frame w (moving_var fr) (retries_var fr)) m.

(** Enter the function with fresh locals, leave with the world. *)
Definition call {A} (body : M frame A) : M world A :=
  λ w, match body (mk_frame w None 0) with (r, fr) => (r, frame_world fr) end.

Definition assign_moving (image : ants_image) : M frame unit :=
  modify (λ fr, mk_frame (frame_world fr) (Some image) (retries_var fr)).

(** Reading [moving]; Python raises [UnboundLocalError] when no assignment
    has run yet. *)
Definition read_moving : M frame ants_image :=
  fr ← get_state; of_option UnboundLocalError (moving_var fr).

Definition increment_retries : M frame unit :=
  modify (λ fr, mk_frame (frame_world fr) (moving_var fr) (S (retries_var fr))).

Definition step_output_path (step_dir input_name : string) (mirror : bool)
    (extension : string) : string :=
  let suffix := if mirror then "_m" else "" in
  step_dir +:+ "/" +:+ input_name +:+ suffix +:+ extension.

(** [__step_output_exists] *)
Definition __step_output_exists (input_name step_dir : string)
    (write_transform mirror : bool) : M world bool :=
  warped ← path_exists (step_output_path step_dir input_name mirror ".nii");
  if negb warped then ret false else
  if write_transform then
    transform ← path_exists (step_output_path step_dir input_name mirror "_t.nii.gz");
    if negb transform then ret false else ret true
  else ret true.

(** [__write_step_output] *)
Definition __write_step_output (registration : registration_result)
    (input_name step_dir : string) (write_transform mirror : bool)
  : M world unit :=
  image_write (warpedmovout registration)
    (step_output_path step_dir input_name mirror ".nii");;
  if write_transform then
    transform ← of_option IndexError (fwdtransforms registration !! 0%nat);
    write_file (step_output_path step_dir input_name mirror "_t.nii.gz") transform
  else ret tt.

(** [try: os.remove(path) except FileNotFoundError: pass] *)
Definition remove_if_present (path : string) : M world unit :=
  try_except (remove path)
    (λ exc, match exc with FileNotFoundError => ret tt | _ => raise exc end).

(** [__clean_step_output] *)
Definition __clean_step_output (input_name step_dir : string) (mirror : bool)
  : M world unit :=
  remove_if_present (step_output_path step_dir input_name mirror ".nii");;
  remove_if_present (step_output_path step_dir input_name mirror "_t.nii.gz").

(** [__clean_template] *)
Definition __clean_template (template_path : string) : M world unit :=
  remove_if_present template_path.

(** [__average_images(f"{dir}/*{suffix}")] *)
Definition __average_images (dir suffix : string) : M world ants_image :=
  img_paths ← glob_star dir suffix;
  first_path ← of_option IndexError (img_paths !! 0%nat);
  img_0 ← image_read first_path;
  let count := inject_Z (Z.of_nat (length img_paths)) in
  avg_img ← foldl (λ acc img_path,
                     avg ← acc;
                     img ← image_read img_path;
                     of_option ValueError
                       (np_add avg (np_div_scalar (numpy img) count)))
                  (ret (np_div_scalar (numpy img_0) count))
                  (drop 1 img_paths);
  of_option AssertionError (update_image_array img_0 avg_img).


(** The running sum kept in [avg_img] by the loop of [__average_images]. *)
Definition accumulate (count : Q) (avg : list Q) (images : list ants_image)
  : list Q :=
  foldl (λ avg image, zip_with Qplus avg ((λ x, x / count)%Q <$> data (numpy image)))
        avg images.

Section engine.

(** The external collaborators: the registration engine, the resampler
    applying a warp field, and the two intensity filters of the
    preprocessing. *)
Context (ants_registration : ants_image → ants_image → string → registration_result)
        (ants_apply_transforms : ants_image → ants_image → ants_image → ants_image)
        (__legacy_preprocess clahe : ants_image → ants_image).

(** [ants.registration(fixed, moving, type_of_transform=...)] *)
Definition registration (fixed moving : ants_image) (type_of_transform : string)
  : M world registration_result :=
  f ← next_fault;
  match f with
  | NoFault => ret (ants_registration fixed moving type_of_transform)
  | _ => raise EngineError
  end.

(** [ants.apply_transforms(fixed, moving, transform_path)] *)
Definition apply_transforms (fixed moving : ants_image) (transform_path : string)
  : M world ants_image :=
  warp ← image_read transform_path;
  ret (ants_apply_transforms fixed moving warp).

(** [preprocess] *)
Definition preprocess (args : arguments) (input_path output_path : string)
  : M world unit :=
  image ← image_read input_path;
  match preprocessing args with
  | None => copy input_path output_path
  | Some steps =>
      let image := if bool_decide ("legacy" ∈ steps)
                   then __legacy_preprocess image else image in
      let image := if bool_decide ("CLAHE" ∈ steps) then clahe image else image in
      image_write image output_path
  end.

(** The body of the [try] block of [generate_template]. *)
Definition generate_template_attempt (args : arguments)
    (step_name output_path : string) (transform_avg : bool) : M world unit :=
  let input_path := output args +:+ "/scratch/" +:+ step_name in
  if transform_avg then
    let transform_dir := output args +:+ "/scratch/" +:+ step_name +:+ "_transform" in
    cached ← path_exists (transform_dir +:+ "/transform.nii");
    avg_img ←
      (if (cached : bool) then
         logger INFO "%s: found existing inverse average transform";;
         __average_images input_path ".nii"
       else
         makedirs transform_dir;;
         avg_img ← __average_images input_path ".nii";
         avg_transform ← __average_images input_path ".nii.gz";
         let inv_arr := np_mul_scalar (np_mul_scalar (numpy avg_transform) (-1))
                          (gradient_step args) in
         inv_avg_transform ← of_option AssertionError
                               (update_image_array avg_transform inv_arr);
         image_write inv_avg_transform (transform_dir +:+ "/transform.nii");;
         ret avg_img) : M world ants_image;
    template ← apply_transforms avg_img avg_img (transform_dir +:+ "/transform.nii");
    image_write template output_path
  else
    template ← __average_images input_path ".nii";
    image_write template output_path.

(** The retry loop [while True: try ... except ...] with a counter that
    starts at [0] and allows a retry while it is below [2]; [remaining] is
    [2 - __retries], so the handler's test [__retries < 2] is the match on
    [remaining]. *)
Fixpoint generate_template_loop (remaining : nat) (attempt : M world unit)
    (output_path : string) : M world unit :=
  try_except attempt
    (λ exc,
       match remaining with
       | S remaining' =>
           logger ERROR "Caught exception, retrying";;
           __clean_template output_path;;
           generate_template_loop remaining' attempt output_path
       | O =>
           logger ERROR "Caught exception, max retries reached";;
           raise exc
       end).

(** [generate_template] *)
Definition generate_template (args : arguments) (step_name output_path : string)
    (transform_avg : bool) : M world unit :=
  py_assert (ends_with ".nii" output_path);;
  generate_template_loop 2
    (generate_template_attempt args step_name output_path transform_avg)
    output_path.

(** The body of the [try] block of [alignment_iteration] for one input. *)
Definition align_input_attempt (step_name step_dir : string) (fixed : ants_image)
    (type_of_transform : string) (transform_avg mirror : bool)
    (input_path input_name : string) : M frame unit :=
  done ← in_world (__step_output_exists input_name step_dir transform_avg false);
  (if (done : bool) then
     in_world (logger INFO (step_name +:+ ": found existing work for "
                            +:+ input_name +:+ " "))
   else
     in_world (logger INFO (step_name +:+ ": processing " +:+ input_name));;
     moving ← in_world (image_read input_path);
     assign_moving moving;;
     result ← in_world (registration fixed moving type_of_transform);
     in_world (__write_step_output result input_name step_dir transform_avg false));;
  if mirror then
    done_mirror ← in_world (__step_output_exists input_name step_dir transform_avg true);
    if (done_mirror : bool) then
      in_world (logger INFO (step_name +:+ ": found existing work for input "
                             +:+ input_name +:+ " mirror"))
    else
      in_world (logger INFO (step_name +:+ ": processing input "
                             +:+ input_name +:+ " mirror"));;
      moving ← read_moving;
      reversed ← of_option IndexError (np_flip (numpy moving) 0);
      moving_mirror ← of_option AssertionError (update_image_array moving reversed);
      result_mirror ← in_world (registration fixed moving_mirror type_of_transform);
      in_world (__write_step_output result_mirror input_name step_dir transform_avg true)
  else ret tt.

(** The [while True] loop around one input.  [remaining] is
    [2 - __retries] on entry and falls by one whenever [__retries] rises
    by one, so matching on it is the test [__retries < 2]. *)
Fixpoint align_input_loop (remaining : nat) (attempt : M frame unit)
    (step_dir input_name : string) (mirror : bool) : M frame unit :=
  try_except attempt
    (λ exc,
       match remaining with
       | S remaining' =>
           in_world (logger ERROR ("Caught exception processing input "
                                   +:+ input_name +:+ ", retrying"));;
           in_world (__clean_step_output input_name step_dir mirror);;
           increment_retries;;
           align_input_loop remaining' attempt step_dir input_name mirror
       | O =>
           in_world (logger ERROR ("Caught exception processing input "
                                   +:+ input_name +:+ ", max retries reached"));;
           raise exc
       end).

(** One round of [for input_path in glob(f"{moving_dir}/*.nii")]. *)
Definition align_input (step_name step_dir : string) (fixed : ants_image)
    (type_of_transform : string) (transform_avg mirror : bool)
    (input_path : string) : M frame unit :=
  let input_name := before_first_dot (basename input_path) in
  fr ← get_state;
  align_input_loop (2 - retries_var fr)
    (align_input_attempt step_name step_dir fixed type_of_transform
       transform_avg mirror input_path input_name)
    step_dir input_name mirror.

(** The [for] loop of [alignment_iteration]. *)
Definition align_inputs (step_name step_dir : string) (fixed : ants_image)
    (type_of_transform : string) (transform_avg mirror : bool)
    (input_paths : list string) : M frame unit :=
  for_each input_paths
    (align_input step_name step_dir fixed type_of_transform transform_avg mirror).

(** [alignment_iteration] *)
Definition alignment_iteration (args : arguments)
    (moving_dir step_name fixed_path type_of_transform : string)
    (transform_avg mirror : bool) : M world unit :=
  call (
    let step_dir := output args +:+ "/scratch/" +:+ step_name in
    in_world (makedirs step_dir);;
    finished ← in_world (path_exists (output args +:+ "/templates/"
                                      +:+ step_name +:+ ".nii"));
    if (finished : bool) then
      in_world (logger INFO (step_name +:+ " template already exists"))
    else
      fixed ← in_world (image_read fixed_path);
      input_paths ← in_world (glob_star moving_dir ".nii");
      align_inputs step_name step_dir fixed type_of_transform transform_avg
        mirror input_paths;;
      in_world (logger INFO ("Generating new template for  " +:+ step_name));;
      in_world (generate_template args step_name
                  (output args +:+ "/templates/" +:+ step_name +:+ ".nii")
                  transform_avg);;
      in_world (logger INFO ("Finished " +:+ step_name))).

(** The loop collecting [input_paths]. *)
Fixpoint parse_inputs (inputs input_paths : list string) : M world (list string) :=
  match inputs with
  | [] => ret input_paths
  | input_path :: rest =>
      present ← path_exists input_path;
      py_assert present;;
      is_directory ← isdir input_path;
      if (is_directory : bool) then
        names ← listdir input_path;
        parse_inputs rest
          (input_paths ++ ((λ input_file, input_path +:+ "/" +:+ input_file) <$> names))
      else parse_inputs rest (input_paths ++ [input_path])
  end.

(** [logging.FileHandler(log_path)] opens the file for appending. *)
Definition open_log_file (log_path : string) : M world unit :=
  w ← get_state;
  match resolve (fs w) log_path with
  | Some (File _) => ret tt
  | Some _ => raise IsADirectoryError
  | None =>
      if parent_is_dir (fs w) log_path
      then modify (set_fs (insert log_path (File BText)))
      else raise FileNotFoundError
  end.

(** The final block, from [logger.info("Cleaning up")] on. *)
Definition finish_template (args : arguments) : M world unit :=
  logger INFO "Cleaning up";;
  move (output args +:+ "/templates/syn_" +:+ pretty (syn_steps args - 1)%Z +:+ ".nii")
       (output args +:+ "/template.nii");;
  (if keep_intermediates args then
     symlink (output args +:+ "/template.nii")
             (output args +:+ "/templates/syn_" +:+ pretty (syn_steps args) +:+ ".nii")
   else
     rmtree (output args +:+ "/preprocessed");;
     rmtree (output args +:+ "/templates"));;
  logger INFO "Template generation complete".

(** Everything in the [try] block after the decision on an existing
    output directory. *)
Definition build_template_steps (args : arguments) (input_paths : list string)
  : M world unit :=
  makedirs (output args);;
  makedirs (output args +:+ "/preprocessed");;
  makedirs (output args +:+ "/templates");;
  makedirs (output args +:+ "/scratch");;
  let log_path := default (output args +:+ "/build_template.log") (log_path_arg args) in
  logger INFO ("Writings logs to " +:+ log_path);;
  open_log_file log_path;;
  logger DEBUG "Parsed args";;
  logger INFO ("Preprocessing flies: " +:+ join_with ", " (basename <$> input_paths));;
  for_each input_paths (λ input_path,
    let name := before_first_dot (basename input_path) in
    let output_path := output args +:+ "/preprocessed/" +:+ name +:+ ".nii" in
    present ← path_exists output_path;
    if negb present then
      logger INFO ("Preprocessing " +:+ name);;
      preprocess args input_path output_path
    else logger INFO (name +:+ " already preprocessed"));;
  initial_image ←
    match reference_image args with
    | Some reference => ret reference
    | None => of_option IndexError (input_paths !! 0%nat)
    end : M world string;
  logger INFO "Starting affine step 0";;
  alignment_iteration args (output args +:+ "/preprocessed") "affine_0"
    initial_image "Affine" false (mirror args);;
  for_each (seqZ 1 (affine_steps args - 1)) (λ affine_step,
    logger INFO ("Starting affine step " +:+ pretty affine_step);;
    alignment_iteration args
      (output args +:+ "/scratch/affine_" +:+ pretty (affine_step - 1)%Z)
      ("affine_" +:+ pretty affine_step)
      (output args +:+ "/templates/affine_" +:+ pretty (affine_step - 1)%Z +:+ ".nii")
      "Affine" false false);;
  logger INFO "Starting SyN step 0";;
  alignment_iteration args
    (output args +:+ "/scratch/affine_" +:+ pretty (affine_steps args - 1)%Z)
    "syn_0"
    (output args +:+ "/templates/affine_" +:+ pretty (affine_steps args - 1)%Z +:+ ".nii")
    "SyN" true false;;
  for_each (seqZ 1 (syn_steps args - 1)) (λ syn_step,
    logger INFO ("Starting SyN step " +:+ pretty syn_step);;
    alignment_iteration args
      (output args +:+ "/scratch/syn_" +:+ pretty (syn_step - 1)%Z)
      ("syn_" +:+ pretty syn_step)
      (output args +:+ "/templates/syn_" +:+ pretty (syn_step - 1)%Z +:+ ".nii")
      "SyN" true false);;
  finish_template args.

(** The [try] block of [build_template].  The [return] taken when the
    output directory exists and neither flag is set ends the block. *)
Definition build_template_try (args : arguments) : M world unit :=
  input_paths ← parse_inputs (input args) [];
  logger DEBUG ("Parsed input files: " +:+ join_with ", " input_paths);;
  match reference_image args with
  | Some reference => present ← path_exists reference; py_assert present
  | None => ret tt
  end;;
  present ← path_exists (output args);
  proceed ←
    (if (present : bool) then
       if force args then
         logger INFO "Cleaning existing results directory";;
         rmtree (output args);;
         ret true
       else if preemptible args then
         logger INFO "Resuming existing work";;
         ret true
       else
         logger WARNING "Results directory already exists. Run again with --force to override or --preemptible to resume";;
         ret false
     else ret true) : M world bool;
  if (proceed : bool) then build_template_steps args input_paths else ret tt.

(** [build_template]: [try: ... except: log, raise  finally: rmtree scratch].
    Configuring the stream handlers touches neither files nor the log
    records kept here. *)
Definition build_template (args : arguments) : M world unit :=
  try_finally
    (try_except (build_template_try args)
       (λ exc, logger ERROR "Caught general exception";; raise exc))
    (logger INFO "Exiting, cleaning scratch";;
     rmtree (output args +:+ "/scratch")).

End engine.

End BuildTemplate.

(* ====================================================================== *)
(** ** Concrete inputs used by the examples *)
(* ====================================================================== *)

Module Fixtures.
Import NDArray Util Py FS BuildTemplate.
Local Open Scope string_scope.

(** A volume with unit geometry. *)
Definition volume (shp : list nat) (voxels : list Q) : ants_image :=
  mk_image (mk_ndarray shp voxels) [0; 0; 0]%Q [1; 1; 1]%Q
    [[1; 0; 0]; [0; 1; 0]; [0; 0; 1]]%Q false.

Definition brain_a : ants_image := volume [2; 1; 1] [1; 2]%Q.
Definition brain_b : ants_image := volume [2; 1; 1] [3; 5]%Q.

(** [moving[::-1]] of the volumes above. *)
Definition brain_a_mirrored : ants_image := volume [2; 1; 1] [2; 1]%Q.
Definition brain_b_mirrored : ants_image := volume [2; 1; 1] [5; 3]%Q.

(** A stand-in engine: the moving image is returned as it is, with a warp
    field and an affine matrix as forward transforms. *)
Definition identity_registration (fixed moving : ants_image)
    (type_of_transform : string) : registration_result :=
  mk_registration moving [BImage moving; BMat [] []].

Definition identity_apply_transforms (fixed moving warp : ants_image)
  : ants_image := moving.

Definition run_alignment_iteration :=
  alignment_iteration identity_registration identity_apply_transforms.

Definition run_build_template :=
  build_template identity_registration identity_apply_transforms id id.

Definition run_align_inputs :=
  align_inputs identity_registration.

Definition files (entries : list (string * node)) : gmap string node :=
  list_to_map entries.

(** [build_template --input in --output out --affine_steps 1 --syn_steps 1] *)
Definition template_args (keep mirrored : bool) : arguments :=
  mk_args ["in"] "out" None 1 1 (1 # 10) None false false mirrored keep None false.

(** Two input volumes and no output directory yet. *)
Definition fresh_inputs : world :=
  mk_world (files [("in", Dir);
                   ("in/a.nii", File (BImage brain_a));
                   ("in/b.nii", File (BImage brain_b))]) [] [].

(** The first affine stage is about to run over the preprocessed inputs. *)
Definition stage_ready (inputs : list (string * node)) (pending : list fault)
  : world :=
  mk_world (files ([("out", Dir); ("out/preprocessed", Dir);
                    ("out/templates", Dir); ("out/scratch", Dir);
                    ("out/scratch/affine_0", Dir);
                    ("ref.nii", File (BImage brain_a))] ++ inputs))
           [] pending.

(** A volume of shape (2, 1, 3) with six distinct voxels. *)
Definition scan : ants_image :=
  mk_image (mk_ndarray [2; 1; 3] [1; 2; 3; 4; 5; 6]%Q) [10; 20; 30]%Q
    [1; 2; 3]%Q [[1; 0; 0]; [0; 1; 0]; [0; 0; 1]]%Q false.



(** A predicted warp over a grid of 2 x 1 x 1 voxels. *)
Definition tiny_warp : ndarray Q :=
  mk_ndarray [1; 2; 1; 1; 3] [1; 2; 3; 5; 7; 11]%Q.



Definition preprocessed_a : string * node :=
  ("out/preprocessed/a.nii", File (BImage brain_a)).
Definition preprocessed_b : string * node :=
  ("out/preprocessed/b.nii", File (BImage brain_b)).

(** The affine stage over [a] and [b] without mirroring.  The engine fails
    twice on the first input and once on the second; every other call
    succeeds.  Calls in order: read the reference; then per attempt read
    the input, register, write. *)
Definition two_failures_then_one : world :=
  stage_ready [preprocessed_a; preprocessed_b]
    [NoFault;                     (* reference image *)
     NoFault; Fails;              (* a, attempt 1: the engine fails *)
     NoFault; Fails;              (* a, attempt 2: the engine fails *)
     NoFault; NoFault; NoFault;   (* a, attempt 3: read, register, write *)
     NoFault; Fails].             (* b, attempt 1: the engine fails *)

Definition affine_stage (mirrored : bool) : world → result unit * world :=
  run_alignment_iteration (template_args false mirrored)
    "out/preprocessed" "affine_0" "ref.nii" "Affine" false mirrored.

(** The loop of the mirrored affine stage over the single input [a]. *)
Definition mirrored_loop_over_a : world → result unit * world :=
  call (run_align_inputs "affine_0" "out/scratch/affine_0" brain_a "Affine"
          false true ["out/preprocessed/a.nii"]).

(** Attempt 1 reads and registers [a], and the write of [a.nii] fails part
    way; attempt 2 fails in the engine on the mirrored copy; attempt 3
    meets no fault. *)
Definition write_fails_then_engine_fails : world :=
  stage_ready [preprocessed_a] [NoFault; NoFault; FailsPartway; Fails].

Definition no_failure : world := stage_ready [preprocessed_a] [].

(** All four outputs of [a] are on disk, the non-mirrored volume cut
    short by a failed write. *)
Definition all_outputs_of_a : world :=
  stage_ready [preprocessed_a;
               ("out/scratch/affine_0/a.nii", File BTruncated);
               ("out/scratch/affine_0/a_t.nii.gz", File (BImage brain_a));
               ("out/scratch/affine_0/a_m.nii", File (BImage brain_a_mirrored));
               ("out/scratch/affine_0/a_m_t.nii.gz", File (BImage brain_a))] [].

(** A resumed mirrored stage: the earlier run wrote [a.nii] and was
    stopped before [a_m.nii]. *)
Definition resumed_before_mirror : world :=
  stage_ready [preprocessed_a;
               ("out/scratch/affine_0/a.nii", File (BImage brain_a))] [].

(** A resumed mirrored stage over [a] and [b]: nothing was written for
    [a], and [b.nii] but not [b_m.nii] is there. *)
Definition resumed_second_input : world :=
  stage_ready [preprocessed_a; preprocessed_b;
               ("out/scratch/affine_0/b.nii", File (BImage brain_b))] [].

(** The output directory of a completed run: it exists, and its scratch
    directory was removed when that run ended. *)
Definition output_without_scratch : world :=
  mk_world (<["out" := Dir]> (<["out/template.nii" := File (BImage brain_a)]>
              (fs fresh_inputs))) [] [].

(** The output directory of an interrupted run, scratch still in place. *)
Definition output_with_scratch : world :=
  mk_world (<["out/scratch/affine_0/a.nii" := File (BImage brain_a)]>
              (<["out/scratch/affine_0" := Dir]>
                 (<["out/scratch" := Dir]>
                    (<["out" := Dir]> (fs fresh_inputs))))) [] [].

(** [bifrost register moving.nii fixed.nii results/] with [results]
    already there. *)
Definition register_args : Register.arguments :=
  Register.mk_args "moving.nii" "fixed.nii" "results/" false false false false false.

Definition results_present : world :=
  mk_world (files [("moving.nii", File (BImage brain_a));
                   ("fixed.nii", File (BImage brain_b));
                   ("results", Dir);
                   ("results/registered.nii", File (BImage brain_a))]) [] [].

End Fixtures.

(* ====================================================================== *)
(** ** util.py: thresholding, label overlap, help formatting *)
(* ====================================================================== *)

Module Threshold.
Import NDArray Util.

(** [image_arr[image_arr <= threshold] = 0] *)
Definition zero_up_to (threshold : Q) (image_arr : ndarray Q) : ndarray Q :=
  np_map (λ x, if Qle_bool x threshold then 0%Q else x) image_arr.

(** [threshold_image(image, threshold)] *)
Definition threshold_image (image : ants_image) (threshold : Q) : ants_image :=
  let image_arr := numpy image in
  let image_arr := zero_up_to threshold image_arr in
  from_numpy image_arr (origin image) (spacing image) (direction image)
    (has_components image).

End Threshold.

Module Dice.
Import NDArray.

(** A float that is a number, or the NaN that numpy returns for [0 / 0]
    and for the mean of nothing. *)
Inductive np_float :=
  | Finite (value : Q)
  | NaN.

(** [np.unique]: the distinct values of the flattened array in ascending
    order. *)
Fixpoint insert_unique (x : Q) (l : list Q) : list Q :=
  match l with
  | [] => [x]
  | y :: l' =>
      match (x ?= y)%Q with
      | Lt => x :: l
      | Eq => l
      | Gt => y :: insert_unique x l'
      end
  end.

Definition np_unique (a : ndarray Q) : list Q := foldr insert_unique [] (data a).

(** [a == b] on one-dimensional arrays.  Arrays of one length are compared
    element by element, an array of length one is broadcast against the
    other, and any other pair of lengths is an error. *)
Definition np_equal (a b : list Q) : option (list bool) :=
  if length a =? length b then Some (zip_with Qeq_bool a b)
  else match a, b with
       | [x], _ => Some (Qeq_bool x <$> b)
       | _, [y] => Some ((λ x, Qeq_bool x y) <$> a)
       | _, _ => None
       end.

(** Python's [all] *)
Definition all (flags : list bool) : bool := forallb id flags.

(** [float(label).is_integer()] *)
Definition is_integer (label : Q) : bool := Qeq_bool (inject_Z (Qfloor label)) label.

(** [int(label)]: truncation towards zero. *)
Definition int (label : Q) : Z :=
  if Qle_bool 0 label then Qfloor label else Qceiling label.

(** [image == label] *)
Definition equals_label (image : ndarray Q) (label : Q) : list bool :=
  (λ x, Qeq_bool x label) <$> data image.

(** [np.sum] of a boolean array: the number of [True] entries. *)
Definition count_true (mask : list bool) : Z :=
  Z.of_nat (length (filter (λ b, b = true) mask)).

(** A float that is a number between two bounds. *)
Definition between (lo hi : Q) (x : np_float) : Prop :=
  ∃ v, x = Finite v ∧ (lo <= v)%Q ∧ (v <= hi)%Q.

(** [/] on two numpy integers. *)
Definition true_divide (numerator denominator : Z) : np_float :=
  if (denominator =? 0)%Z then NaN
  else Finite (inject_Z numerator / inject_Z denominator)%Q.

(** [label_coeffs[key] = value] on a dict kept in insertion order. *)
Fixpoint dict_set (key : Z) (value : np_float) (d : list (Z * np_float))
  : list (Z * np_float) :=
  match d with
  | [] => [(key, value)]
  | (k, v) :: d' =>
      if (k =? key)%Z then (key, value) :: d' else (k, v) :: dict_set key value d'
  end.

(** One round of [for label in labels]; [None] is the failed assertion. *)
Definition label_round (image_1 image_2 : ndarray Q) (exclude_labels : list Q)
    (label_coeffs : list (Z * np_float)) (label : Q)
  : option (list (Z * np_float)) :=
  if is_integer label then
    if existsb (Qeq_bool label) exclude_labels then Some label_coeffs
    else
      let mask_1 := equals_label image_1 label in
      let mask_2 := equals_label image_2 label in
      Some (dict_set (int label)
              (true_divide (2 * count_true (zip_with andb mask_1 mask_2))
                           (count_true mask_1 + count_true mask_2))
              label_coeffs)
  else None.

Definition float_add (x y : np_float) : np_float :=
  match x, y with
  | Finite a, Finite b => Finite (a + b)%Q
  | _, _ => NaN
  end.

(** [np.mean] of a list of floats; NaN for the empty list. *)
Definition np_mean (values : list np_float) : np_float :=
  match values with
  | [] => NaN
  | _ =>
      match foldr float_add (Finite 0) values with
      | Finite total => Finite (total / inject_Z (Z.of_nat (length values)))%Q
      | NaN => NaN
      end
  end.

(** [dice_coefficient(image_1, image_2, exclude_labels)]: the mean
    coefficient and the coefficient of each label; [None] when an
    assertion fails or the label arrays cannot be compared. *)
Definition dice_coefficient (image_1 image_2 : ndarray Q) (exclude_labels : list Q)
  : option (np_float * list (Z * np_float)) :=
  if bool_decide (shape image_1 = shape image_2) then
    let labels := np_unique image_1 in
    same ← np_equal labels (np_unique image_2);
    if all same then
      label_coeffs ← foldl (λ acc label,
                              label_coeffs ← acc;
                              label_round image_1 image_2 exclude_labels
                                label_coeffs label)
                           (Some []) labels;
      Some (np_mean (snd <$> label_coeffs), label_coeffs)
    else None
  else None.

End Dice.

Module HelpFormatter.
Import FS.
Local Open Scope string_scope.

(** The kinds of [action.nargs] the formatter tells apart. *)
Inductive nargs_kind := PARSER | OTHER.

Definition newline : ascii := "010"%char.

Section formatter.

(** The formatter of the base class, and the [nargs] of an action. *)
Context {action : Type}
        (super_format_action : action → string)
        (nargs : action → nargs_kind).

(** [SubcommandHelpFormatter._format_action] *)
Definition _format_action (act : action) : string :=
  let parts := super_format_action act in
  match nargs act with
  | PARSER => join_with (String newline "") (drop 1 (split_on newline parts))
  | OTHER => parts
  end.

End formatter.

End HelpFormatter.

(* ====================================================================== *)
(** ** io.py: file digests and the model weights *)
(* ====================================================================== *)

Module Digest.
Import Py FS.
Local Open Scope string_scope.

Section digest.

(** The digest function behind [hashlib.md5], the bytes a stored file
    consists of, and what a URL serves. *)
Context (md5_hexdigest : list Byte.byte → string)
        (file_bytes : blob → list Byte.byte)
        (url_content : string → blob).

Definition CHUNK_SIZE : nat := Z.to_nat 8192.

(** [file_handle.read(size)]: the next [size] bytes, fewer at the end of
    the file, and the rest of the file. *)
Definition read (size : nat) (rest : list Byte.byte)
  : list Byte.byte * list Byte.byte :=
  (take size rest, drop size rest).

(** The loop [while chunk: file_hash.update(chunk); chunk = read(8192)].
    A hash object is the bytes it has been fed; [update] appends. *)
Equations hash_chunks (file_hash chunk rest : list Byte.byte) : list Byte.byte
  by wf (length chunk + length rest) lt :=
  hash_chunks file_hash [] rest := file_hash;
  hash_chunks file_hash (b :: chunk) rest :=
    hash_chunks (file_hash ++ b :: chunk)
      (read CHUNK_SIZE rest).1 (read CHUNK_SIZE rest).2.
Next Obligation.
  intros. unfold read. simpl. rewrite length_take, length_drop. lia.
Qed.

(** [md5sum(filename)] *)
Definition md5sum (filename : string) : M world string :=
  w ← get_state;
  match resolve (fs w) filename with
  | Some (File content) =>
      let file_hash := [] in
      let first := read CHUNK_SIZE (file_bytes content) in
      ret (md5_hexdigest (hash_chunks file_hash first.1 first.2))
  | Some _ => raise IsADirectoryError
  | None => raise FileNotFoundError
  end.

(** The package directory, [package_path()]. *)
Context (package_path : string).

(** [MODEL_WEIGHTS_PATH] of [cli/register.py] *)
Definition MODEL_WEIGHTS_PATH : string :=
  package_path +:+ "/weights/synthmorph_weights.h5".

(** [urllib.request.urlretrieve(url, filename)] *)
Definition urlretrieve (url filename : string) : M world unit :=
  write_file filename (url_content url).

(** [download_weights(shapes=True)] *)
Definition download_weights (shapes : bool) : M world unit :=
  let weights_url :=
    if shapes
    then "https://surfer.nmr.mgh.harvard.edu/ftp/data/voxelmorph/synthmorph/shapes-dice-vel-3-res-8-16-32-256f.h5"
    else "https://surfer.nmr.mgh.harvard.edu/ftp/data/voxelmorph/synthmorph/brains-dice-vel-0.5-res-16-256f.h5" in
  let weight_dir := package_path +:+ "/weights" in
  makedirs weight_dir;;
  urlretrieve weights_url (weight_dir +:+ "/synthmorph_weights.h5").

End digest.

End Digest.

(* ====================================================================== *)
(** ** cli/register.py: further steps of the pipeline *)
(* ====================================================================== *)

Module RegisterSteps.
Import NDArray Util Py FS IO Register Digest.
Local Open Scope string_scope.

(** *** The head of [register]: paths, weights, validation, log file *)

Section head.

Context (url_content : string → blob)
        (package_path : string).

(** [register] from the path logic to the log file handler.  The value is
    the path of the log file when the run goes on, and [None] at either
    [return].  [log] is [args.log]. *)
Definition register_head (args : arguments) (log : option string)
  : M world (option string) :=
  proceed ← register_path_logic args;
  if (proceed : bool) then
    let results_dir := rstrip_slash (results_dir args) in
    present ← path_exists (MODEL_WEIGHTS_PATH package_path);
    (if negb present then
       logger INFO ("Downloading synthmorph weights to "
                    +:+ MODEL_WEIGHTS_PATH package_path);;
       download_weights url_content package_path true
     else ret tt);;
    if skip_syn args && skip_affine args && skip_synthmorph args then
      logger WARNING "All registration steps skipped. Run again with a registration step enabled";;
      ret None
    else
      let log_path :=
        match log with
        | None =>
            let result_name :=
              before_first_dot (basename (rstrip_slash (Register.results_dir args))) in
            results_dir +:+ "/" +:+ result_name +:+ ".log"
        | Some log => log
        end in
      logger INFO ("Writing full logs to " +:+ log_path);;
      BuildTemplate.open_log_file log_path;;
      logger DEBUG "Parsed args";;
      ret (Some log_path)
  else ret None.

End head.

(** *** The SynthMorph mask *)

(** Equality of two tuples of floats, and of two matrices. *)
Fixpoint tuple_eq (x y : list Q) : bool :=
  match x, y with
  | [], [] => true
  | a :: x', b :: y' => Qeq_bool a b && tuple_eq x' y'
  | _, _ => false
  end.

Fixpoint matrix_eq (x y : list (list Q)) : bool :=
  match x, y with
  | [], [] => true
  | a :: x', b :: y' => tuple_eq a b && matrix_eq x' y'
  | _, _ => false
  end.

(** [mask.shape == moving.shape and mask.spacing == moving.spacing and
    (mask.direction == moving.direction).all()] *)
Definition same_geometry (mask moving_img : ants_image) : bool :=
  bool_decide (shape (numpy mask) = shape (numpy moving_img))
  && tuple_eq (spacing mask) (spacing moving_img)
  && matrix_eq (direction mask) (direction moving_img).

(** [x > 0] *)
Definition positive (x : Q) : bool := negb (Qle_bool x 0).

(** How the block ends when it does not fail in a library call: with the
    mask stored in the archive, or with the [RuntimeError] that the code
    raises (after logging the same message as critical). *)
Inductive mask_outcome :=
  | MaskStored (synthmorph_mask : ants_image)
  | RuntimeError.

Section mask.

Context {stored : Type}
        (filter_encode : ndarray Q → stored)
        (md5_hexdigest : list Byte.byte → string)
        (file_bytes : blob → list Byte.byte).

(** [ants.resample_image(image, spacing, interp_type=3)] *)
Context (ants_resample_image : ants_image → list Q → ants_image).

(** The block under [if args.synthmorph_mask is not None], with
    [mask_path] for [args.synthmorph_mask]. *)
Definition load_synthmorph_mask (mask_path : string) (downsample_to : Q)
    (moving_img : ants_image) : M (@io_state stored) mask_outcome :=
  on_disk (logger INFO ("Loading SynthMorph mask: " +:+ mask_path));;
  synthmorph_mask ← on_disk (image_read mask_path);
  digest ← on_disk (md5sum md5_hexdigest file_bytes mask_path);
  on_disk (logger INFO ("SynthMorph mask hash: " +:+ digest));;
  (if negb (same_geometry synthmorph_mask moving_img) && positive downsample_to
   then on_disk (logger WARNING "Discrepancy between SynthMorph mask metadata and moving image metadata prior to resampling.")
   else ret tt);;
  synthmorph_mask ←
    (if positive downsample_to then
       let desired_spacing := replicate 3 downsample_to in
       on_disk (logger INFO "Resampling moving SynthMorph mask.");;
       ret (ants_resample_image synthmorph_mask desired_spacing)
     else ret synthmorph_mask) : M (@io_state stored) ants_image;
  if negb (same_geometry synthmorph_mask moving_img) then ret RuntimeError
  else
    write_image filter_encode "/synthmorph_mask" (inl synthmorph_mask);;
    ret (MaskStored synthmorph_mask).

End mask.

(** *** Rescaling the intensities *)





(** *** The final image *)

(** [ants.from_numpy(data)] with the default origin, spacing and
    direction. *)
Definition identity_matrix (dimension : nat) : list (list Q) :=
  (λ i : nat, (λ j : nat, if (i =? j)%nat then 1%Q else 0%Q) <$> seq 0 dimension)
    <$> seq 0 dimension.

Definition from_numpy_default (arr : ndarray Q) : ants_image :=
  let dimension := length (shape arr) in
  from_numpy arr (replicate dimension 0%Q) (replicate dimension 1%Q)
    (identity_matrix dimension) false.

(** [image.set_spacing(spacing)]; [None] is the [ValueError] raised unless
    there is one entry per dimension. *)
Definition set_spacing (image : ants_image) (new_spacing : list Q)
  : option ants_image :=
  if (length new_spacing =? length (shape (numpy image)))%nat
  then Some (mk_image (img_array image) (origin image) new_spacing
               (direction image) (has_components image))
  else None.

(** [arr > 0] *)
Definition greater_than_zero (arr : ndarray Q) : ndarray bool :=
  mk_ndarray (shape arr) (positive <$> data arr).

(** [warped[mask] = source[mask]] for a boolean mask; [None] is the
    [IndexError] raised unless the mask has the shape of both arrays. *)
Definition assign_where (mask : ndarray bool) (warped source : ndarray Q)
  : option (ndarray Q) :=
  if bool_decide (shape mask = shape warped)
     && bool_decide (shape mask = shape source)
  then Some (mk_ndarray (shape warped)
               (zip_with (λ (m : bool) (ws : Q * Q), if m then ws.2 else ws.1)
                  (data mask) (zip (data warped) (data source))))
  else None.

(** From [if args.synthmorph_mask is not None] after the warp was applied
    to [warped.set_spacing(full_res_moving.spacing)]: [full_res_moving] is
    the transposed full-resolution image, [warped] the array returned by
    the transform. *)
Definition finish_warped (synthmorph_mask : option ants_image)
    (full_res_moving : ants_image) (warped : ndarray Q)
    (optimal_transposition inverse_transposition : list nat)
  : option ants_image :=
  warped ← match synthmorph_mask with
           | Some mask =>
               transposed ← transpose_image mask optimal_transposition;
               assign_where (greater_than_zero (numpy transposed)) warped
                 (numpy full_res_moving)
           | None => Some warped
           end;
  warped ← transpose_image (from_numpy_default warped) inverse_transposition;
  set_spacing warped (spacing full_res_moving).

End RegisterSteps.

(* ====================================================================== *)
(** ** Further concrete inputs used by the examples *)
(* ====================================================================== *)

Module Examples.
Import NDArray Util Py FS.
Local Open Scope string_scope.

(** Two label images over four voxels with the labels 0, 1 and 2. *)
Definition labels_a : ndarray Q := mk_ndarray [2; 2] [0; 1; 1; 2]%Q.
Definition labels_b : ndarray Q := mk_ndarray [2; 2] [0; 1; 2; 2]%Q.

(** The help text of the subcommand group and of an option. *)
Definition help_text (is_group : bool) : string :=
  if is_group
  then "  available commands:" +:+ String HelpFormatter.newline "    register"
  else "  -h, --help".

Definition help_nargs (is_group : bool) : HelpFormatter.nargs_kind :=
  if is_group then HelpFormatter.PARSER else HelpFormatter.OTHER.

(** Stand-ins for the digest function and for the bytes of a stored file
    (the digest lists the bytes it was fed; a file of 20000 bytes spans
    three chunks), and for the content served at a URL. *)
Definition listing_digest (fed : list Byte.byte) : string :=
  string_of_list_byte fed.

Definition raw_bytes (content : blob) : list Byte.byte :=
  match content with
  | BText => []
  | _ => replicate (Z.to_nat 20000) Byte.x2a
  end.

Definition served (url : string) : blob := BText.

(** The package directory before the weights were fetched. *)
Definition package_installed : world :=
  mk_world (Fixtures.files [("pkg", Dir)]) [] [].

(** An empty archive beside a disk with a transform file, a warp field
    and a directory for temporary files. *)
Definition archive_beside_files : @IO.io_state (ndarray Q) :=
  IO.mk_io ∅
    (mk_world (Fixtures.files
                 [("tmp", Dir);
                  ("fwd.mat", File (BMat [1; 0; 0; 1]%Q [5; 7]%Q));
                  ("warp.nii.gz", File (BImage Fixtures.scan))]) [] []).

(** What the transform returns for the transposed volume of shape
    (1, 2, 3). *)
Definition warped_voxels : ndarray Q := mk_ndarray [1; 2; 3] [6; 5; 4; 3; 2; 1]%Q.

(** A stand-in for the resampler: the image with the requested spacing. *)
Definition resample_to (image : ants_image) (new_spacing : list Q) : ants_image :=
  mk_image (img_array image) (origin image) new_spacing (direction image)
    (has_components image).

(** The output directory when the last stage has written its template. *)
Definition stages_finished : world :=
  mk_world (Fixtures.files
              [("out", Dir); ("out/preprocessed", Dir); ("out/templates", Dir);
               ("out/scratch", Dir);
               ("out/preprocessed/a.nii", File (BImage Fixtures.brain_a));
               ("out/templates/affine_0.nii", File (BImage Fixtures.brain_a));
               ("out/templates/syn_0.nii", File (BImage Fixtures.brain_b))]) [] [].

(** [bifrost register moving.nii fixed.nii results/ --skip_affine
    --skip_syn --skip_synthmorph], and the disk before the first run. *)
Definition all_steps_skipped : Register.arguments :=
  Register.mk_args "moving.nii" "fixed.nii" "results/" false false true true true.

Definition before_first_run : world :=
  mk_world (Fixtures.files [("moving.nii", File (BImage Fixtures.brain_a));
                            ("fixed.nii", File (BImage Fixtures.brain_b));
                            ("pkg", Dir)]) [] [].

End Examples.

(* ====================================================================== *)
(** * Properties *)
(* ====================================================================== *)

Module NDArrayFacts.
Import NDArray.

Section facts.
Context {A : Type}.
Implicit Types (a : ndarray A) (shp idx : list nat).

Lemma length_indices shp : length (indices shp) = size_of shp.
Proof.
  induction shp as [|s shp IH]; simpl; [done|].
  generalize 0. induction s as [|s IHs]; intros j; simpl; [done|].
  rewrite length_app, length_fmap, IH, IHs. done.
Qed.

Lemma in_bounds_length shp idx :
  in_bounds shp idx = true → length idx = length shp.
Proof.
  revert idx. induction shp as [|s shp IH]; intros [|i idx]; simpl; try done.
  intros [_ H]%andb_true_iff. f_equal. by apply IH.
Qed.

Lemma ravel_lt shp idx : in_bounds shp idx = true → ravel shp idx < size_of shp.
Proof.
  revert idx. induction shp as [|s shp IH]; intros [|i idx]; simpl; try done.
  - lia.
  - intros [Hi H]%andb_true_iff. apply Nat.ltb_lt in Hi.
    specialize (IH _ H). nia.
Qed.

Lemma elem_of_indices shp idx : idx ∈ indices shp ↔ in_bounds shp idx = true.
Proof.
  revert idx. induction shp as [|s shp IH]; intros idx; simpl.
  - rewrite list_elem_of_singleton. destruct idx; naive_solver.
  - rewrite list_elem_of_bind. split.
    + intros (i & Hin & Hi). apply elem_of_seq in Hi.
      apply list_elem_of_fmap in Hin as (idx' & -> & Hidx'). simpl.
      apply andb_true_iff. split; [apply Nat.ltb_lt; lia | by apply IH].
    + destruct idx as [|i idx]; [done|].
      intros [Hi H]%andb_true_iff. apply Nat.ltb_lt in Hi.
      exists i. split; [|apply elem_of_seq; lia].
      apply list_elem_of_fmap. exists idx. split; [done | by apply IH].
Qed.

(** The [k]-th block of a row-major enumeration. *)
Lemma lookup_bind_blocks {B} (g : nat → list B) (n j s i r : nat) :
  (∀ k, length (g k) = n) → i < s → r < n →
  (seq j s ≫= g) !! (i * n + r) = g (j + i) !! r.
Proof.
  intros Hlen. revert j i. induction s as [|s IH]; intros j i Hi Hr; [lia|].
  simpl. destruct i as [|i].
  - rewrite lookup_app_l by (rewrite Hlen; lia).
    by rewrite Nat.add_0_r.
  - rewrite lookup_app_r by (rewrite Hlen; nia).
    rewrite Hlen. replace (S i * n + r - n) with (i * n + r) by nia.
    rewrite IH by lia. f_equal. f_equal. lia.
Qed.

Lemma lookup_indices shp idx :
  in_bounds shp idx = true → indices shp !! ravel shp idx = Some idx.
Proof.
  revert idx. induction shp as [|s shp IH]; intros [|i idx]; simpl; try done.
  intros [Hi H]%andb_true_iff. apply Nat.ltb_lt in Hi.
  rewrite (lookup_bind_blocks _ (size_of shp)).
  - rewrite list_lookup_fmap, (IH _ H). done.
  - intros k. by rewrite length_fmap, length_indices.
  - done.
  - by apply ravel_lt.
Qed.

Lemma bind_seq_blocks (n j s : nat) :
  (seq j s ≫= λ i, seq (i * n) n) = seq (j * n) (s * n).
Proof.
  revert j. induction s as [|s IH]; intros j; csimpl; [done|].
  rewrite IH. replace (S j * n) with (j * n + n) by lia.
  by rewrite <- seq_app.
Qed.

Lemma fmap_bind_list {B C D} (f : C → D) (g : B → list C) (l : list B) :
  f <$> (l ≫= g) = l ≫= (λ x, f <$> g x).
Proof.
  induction l as [|x l IH]; csimpl; [done|]. by rewrite fmap_app, IH.
Qed.

Lemma ravel_indices shp : ravel shp <$> indices shp = seq 0 (size_of shp).
Proof.
  induction shp as [|s shp IH]; simpl; [done|].
  rewrite fmap_bind_list.
  pose proof (bind_seq_blocks (size_of shp) 0 s) as Hblocks.
  rewrite Nat.mul_0_l in Hblocks. rewrite <- Hblocks.
  apply list_bind_ext; [|done]. intros i.
  rewrite <- list_fmap_compose.
  transitivity (Nat.add (i * size_of shp) <$> (ravel shp <$> indices shp)).
  { by rewrite <- list_fmap_compose. }
  rewrite IH, fmap_add_seq. f_equal. lia.
Qed.

Lemma get_Some a idx :
  well_formed a → in_bounds (shape a) idx = true → is_Some (get a idx).
Proof.
  intros Hwf Hin. unfold get. rewrite Hin.
  apply lookup_lt_is_Some. rewrite Hwf. by apply ravel_lt.
Qed.

Lemma get_in_bounds a idx x : get a idx = Some x → in_bounds (shape a) idx = true.
Proof. unfold get. by destruct (in_bounds _ _). Qed.

(** Tabulating a function that succeeds on every valid index succeeds. *)
Lemma tabulate_Some shp (f : list nat → option A) (g : list nat → A) :
  (∀ idx, in_bounds shp idx = true → f idx = Some (g idx)) →
  tabulate shp f = Some (mk_ndarray shp (g <$> indices shp)).
Proof.
  intros Hf. unfold tabulate.
  assert (mapM f (indices shp) = Some (g <$> indices shp)) as ->; [|done].
  apply mapM_Some_2. apply Forall2_fmap_r, Forall_Forall2_diag.
  apply Forall_forall. intros idx Hin. apply Hf. by apply elem_of_indices.
Qed.

Lemma tabulate_ext shp (f g : list nat → option A) :
  (∀ idx, in_bounds shp idx = true → f idx = g idx) →
  tabulate shp f = tabulate shp g.
Proof.
  intros Hfg. unfold tabulate. f_equal.
  apply Forall_mapM_ext, Forall_forall. intros idx Hin.
  apply Hfg. by apply elem_of_indices.
Qed.

Lemma tabulate_shape shp (f : list nat → option A) a :
  tabulate shp f = Some a → shape a = shp.
Proof.
  unfold tabulate. destruct (mapM f (indices shp)); simpl; [|done].
  by intros [= <-].
Qed.

Lemma tabulate_well_formed shp (f : list nat → option A) a :
  tabulate shp f = Some a → well_formed a.
Proof.
  unfold tabulate. destruct (mapM f (indices shp)) as [d|] eqn:Hd; simpl; [|done].
  intros [= <-]. unfold well_formed. simpl.
  apply length_mapM in Hd. by rewrite <- Hd, length_indices.
Qed.

(** Reading a tabulated array gives the tabulated element. *)
Lemma get_tabulate shp (f : list nat → option A) a idx :
  tabulate shp f = Some a → in_bounds shp idx = true → get a idx = f idx.
Proof.
  unfold tabulate. destruct (mapM f (indices shp)) as [d|] eqn:Hd; simpl; [|done].
  intros [= <-] Hin. unfold get. simpl. rewrite Hin.
  apply mapM_Some_1 in Hd.
  pose proof (lookup_indices _ _ Hin) as Hidx.
  destruct (Forall2_lookup_l _ _ _ _ _ Hd Hidx) as (y & Hy & Hfy).
  by rewrite Hy, Hfy.
Qed.

(** An array is the table of its own elements. *)
Lemma tabulate_get a : well_formed a → tabulate (shape a) (get a) = Some a.
Proof.
  intros Hwf. destruct a as [shp d]. unfold well_formed in Hwf. simpl in *.
  unfold tabulate.
  assert (mapM (get (mk_ndarray shp d)) (indices shp) = Some d) as ->; [|done].
  apply mapM_Some_2.
  apply Forall2_same_length_lookup_2.
  { by rewrite length_indices. }
  intros i idx x Hidx Hx.
  assert (in_bounds shp idx = true) as Hin.
  { apply elem_of_indices. by eapply list_elem_of_lookup_2. }
  unfold get. simpl. rewrite Hin.
  assert (ravel shp idx = i) as ->; [|done].
  assert ((ravel shp <$> indices shp) !! i = Some (ravel shp idx)) as Hr.
  { by rewrite list_lookup_fmap, Hidx. }
  rewrite ravel_indices in Hr. apply lookup_seq in Hr. lia.
Qed.

Lemma tabulate_is_Some shp (f : list nat → option A) :
  (∀ idx, in_bounds shp idx = true → is_Some (f idx)) →
  is_Some (tabulate shp f).
Proof.
  intros Hf. unfold tabulate.
  destruct (mapM f (indices shp)) as [d|] eqn:Hd; simpl; [done|].
  apply mapM_None_1, Exists_exists in Hd as (idx & Hin & Hnone).
  apply elem_of_indices, Hf in Hin. rewrite Hnone in Hin. by destruct Hin.
Qed.

End facts.

End NDArrayFacts.

(** ** Transposition ([util.py]) *)

Module UtilFacts.
Import NDArray NDArrayFacts Util.

Lemma length_insert_sorted x l : length (insert_sorted x l) = S (length l).
Proof.
  induction l as [|y l IH]; simpl; [done|].
  destruct (x <? y); simpl; by rewrite ?IH.
Qed.

Lemma length_sorted l : length (sorted l) = length l.
Proof.
  induction l as [|x l IH]; simpl; [done|].
  by rewrite length_insert_sorted, IH.
Qed.

Lemma insert_sorted_elem x y l : y ∈ insert_sorted x l ↔ y = x ∨ y ∈ l.
Proof.
  induction l as [|z l IH]; simpl.
  - rewrite list_elem_of_singleton, elem_of_nil. tauto.
  - destruct (x <? z); rewrite !elem_of_cons, ?IH; tauto.
Qed.

Lemma sorted_elem y l : y ∈ sorted l ↔ y ∈ l.
Proof.
  induction l as [|x l IH]; simpl; [done|].
  rewrite insert_sorted_elem, elem_of_cons, IH. done.
Qed.

(** The assertion of [transpose_image] on three axes leaves six cases. *)
Lemma sorted_three (P : list nat) : sorted P = seq 0 3 → P ∈ axis_orders.
Proof.
  intros HP.
  assert (length P = 3) as Hlen by (by rewrite <- length_sorted, HP).
  destruct P as [|a [|b [|c [|? ?]]]]; try done.
  assert (∀ x, x ∈ [a; b; c] → x < 3) as Hlt.
  { intros x Hx. apply sorted_elem in Hx. rewrite HP in Hx.
    apply elem_of_seq in Hx. lia. }
  assert (a < 3) as Ha by (apply Hlt; rewrite !elem_of_cons; auto).
  assert (b < 3) as Hb by (apply Hlt; rewrite !elem_of_cons; auto).
  assert (c < 3) as Hc by (apply Hlt; rewrite !elem_of_cons; auto).
  clear Hlt Hlen. unfold axis_orders.
  destruct a as [|[|[|?]]]; [| | |lia];
  destruct b as [|[|[|?]]]; try lia;
  destruct c as [|[|[|?]]]; try lia;
  (discriminate HP || (rewrite !elem_of_cons; tauto)).
Qed.

Section transpose.
Context {A : Type}.
Implicit Types (a : ndarray A).

(** An index of a rank-3 array is a triple within the three extents. *)
Lemma in_bounds_three s0 s1 s2 idx :
  in_bounds [s0; s1; s2] idx = true →
  ∃ i0 i1 i2, idx = [i0; i1; i2] ∧ i0 < s0 ∧ i1 < s1 ∧ i2 < s2.
Proof.
  destruct idx as [|i0 [|i1 [|i2 [|? ?]]]]; simpl; try done;
    rewrite ?andb_false_r; try done.
  rewrite !andb_true_iff, !Nat.ltb_lt. intros (? & ? & ? & _). eauto 10.
Qed.

Lemma in_bounds_three_intro s0 s1 s2 i0 i1 i2 :
  i0 < s0 → i1 < s1 → i2 < s2 → in_bounds [s0; s1; s2] [i0; i1; i2] = true.
Proof.
  intros. simpl. rewrite !andb_true_iff, !Nat.ltb_lt. done.
Qed.

(** Transposing by an axis order and then by its [argsort] restores the
    array: shape and every element. *)
Lemma np_transpose_round_trip a (P : list nat) :
  length (shape a) = 3 → well_formed a → P ∈ axis_orders →
  ∃ a', np_transpose a P = Some a' ∧ np_transpose a' (argsort P) = Some a.
Proof.
  intros Hrank Hwf HP. destruct a as [shp d]. simpl in Hrank.
  destruct shp as [|s0 [|s1 [|s2 [|? ?]]]]; try done. clear Hrank.
  set (a := mk_ndarray [s0; s1; s2] d) in *.
  unfold axis_orders in HP. rewrite !elem_of_cons, elem_of_nil in HP.
  destruct HP as [->|[->|[->|[->|[->|[->|[]]]]]]];
  ( unfold np_transpose; cbn -[tabulate get];
    match goal with
    | |- ∃ a', tabulate ?shp' ?F = Some a' ∧ _ =>
        destruct (tabulate_is_Some shp' F) as [a' Ha'];
        [ intros idx (i0 & i1 & i2 & -> & ? & ? & ?)%in_bounds_three;
          cbn -[get]; apply get_Some; [done|];
          by apply in_bounds_three_intro
        | exists a'; split; [done|];
          rewrite (tabulate_shape _ _ _ Ha'); cbn -[tabulate get];
          rewrite <- (tabulate_get a Hwf);
          apply tabulate_ext;
          intros idx (i0 & i1 & i2 & -> & ? & ? & ?)%in_bounds_three;
          cbn -[get];
          rewrite (get_tabulate _ _ _ _ Ha') by (by apply in_bounds_three_intro);
          done ]
    end ).
Qed.

End transpose.

Lemma permute_round_trip {B} (l : list B) (P : list nat) :
  length l = 3 → P ∈ axis_orders →
  ∃ l', permute l P = Some l' ∧ permute l' (argsort P) = Some l.
Proof.
  intros Hlen HP.
  destruct l as [|x0 [|x1 [|x2 [|? ?]]]]; try done.
  unfold axis_orders in HP. rewrite !elem_of_cons, elem_of_nil in HP.
  destruct HP as [->|[->|[->|[->|[->|[->|[]]]]]]]; eexists; split; reflexivity.
Qed.

Lemma sorted_argsort_three (P : list nat) :
  P ∈ axis_orders → sorted (argsort P) = seq 0 (length (argsort P)).
Proof.
  unfold axis_orders. rewrite !elem_of_cons, elem_of_nil.
  intros [->|[->|[->|[->|[->|[->|[]]]]]]]; reflexivity.
Qed.

(** C6. For every permutation [P] of the three axes (the assertion of
    [transpose_image] holds of it), [transpose_image] with [P] succeeds on
    a volume, and [transpose_image] of the result with [argsort P], the
    inverse transposition computed by [register], returns the original
    volume: the same voxel array and shape, origin, spacing and direction
    matrix. *)
Theorem transpose_image_round_trip (image : ants_image) (P : list nat) :
  volume3d image →
  sorted P = seq 0 3 →
  ∃ transposed,
    transpose_image image P = Some transposed ∧
    transpose_image transposed (argsort P) = Some image.
Proof.
  intros [Hrank Hwf Ho Hs Hd] HP.
  assert (length P = 3) as Hlen by (by rewrite <- length_sorted, HP).
  pose proof (sorted_three P HP) as Hin.
  destruct (np_transpose_round_trip _ P Hrank Hwf Hin) as (a' & Ha & Ha').
  destruct (permute_round_trip _ P Ho Hin) as (o' & Ho1 & Ho2).
  destruct (permute_round_trip _ P Hs Hin) as (s' & Hs1 & Hs2).
  destruct (permute_round_trip _ P Hd Hin) as (d' & Hd1 & Hd2).
  exists (from_numpy a' o' s' d' (has_components image)). split.
  - unfold transpose_image. rewrite Hlen, HP, bool_decide_eq_true_2 by done.
    rewrite Ha, Ho1, Hs1, Hd1. done.
  - unfold transpose_image.
    rewrite bool_decide_eq_true_2 by (by apply sorted_argsort_three).
    simpl. unfold numpy in *. rewrite Ha', Ho2, Hs2, Hd2. simpl.
    by destruct image.
Qed.

(** The round trip on a volume of shape (2, 1, 3), transposed by (2, 0, 1). *)
Lemma transpose_image_round_trip_witness :
  ∃ transposed,
    transpose_image Fixtures.scan [2; 0; 1] = Some transposed ∧
    transpose_image transposed (argsort [2; 0; 1]) = Some Fixtures.scan.
Proof.
  apply transpose_image_round_trip.
  - constructor; reflexivity.
  - reflexivity.
Defined.

End UtilFacts.

(** ** Mirror axis and warp symmetrisation ([cli/register.py]) *)

Module RegisterFacts.
Import NDArray NDArrayFacts Util UtilFacts Register.








Lemma in_bounds_flip shp axis idx :
  in_bounds shp idx = true → in_bounds shp (flip_index shp axis idx) = true.
Proof.
  revert axis idx.
  induction shp as [|s shp IH]; intros axis [|i idx]; simpl; try done.
  intros [Hi H]%andb_true_iff. apply Nat.ltb_lt in Hi.
  destruct axis as [|axis]; simpl; apply andb_true_iff; split; try done.
  - apply Nat.ltb_lt. lia.
  - by apply Nat.ltb_lt.
  - by apply IH.
Qed.

(** Flipping a well-formed array along one of its axes succeeds, keeps the
    shape and reads the reflected index. *)
Lemma np_flip_Some {A} (a : ndarray A) axis :
  well_formed a → axis < length (shape a) →
  ∃ m, np_flip a axis = Some m ∧ shape m = shape a ∧ well_formed m ∧
       ∀ idx, in_bounds (shape a) idx = true →
              get m idx = get a (flip_index (shape a) axis idx).
Proof.
  intros Hwf Hax. unfold np_flip. rewrite (proj2 (Nat.ltb_lt _ _) Hax).
  destruct (tabulate_is_Some (shape a)
              (λ idx, get a (flip_index (shape a) axis idx))) as [m Hm].
  { intros idx Hin. apply get_Some; [done|]. by apply in_bounds_flip. }
  exists m. rewrite Hm. repeat split.
  - by eapply tabulate_shape.
  - by eapply tabulate_well_formed.
  - intros idx Hin. by rewrite (get_tabulate _ _ _ _ Hm).
Qed.

Lemma argsort_three (keys : list nat) :
  length keys = 3 → argsort keys ∈ axis_orders.
Proof.
  intros Hlen. destruct keys as [|k0 [|k1 [|k2 [|? ?]]]]; try done.
  unfold argsort, axis_orders. simpl.
  destruct (k1 <=? k2); simpl; destruct (k0 <=? k1), (k0 <=? k2); simpl;
    rewrite !elem_of_cons; repeat (first [left; reflexivity | right]).
Qed.


Section detection.

Context (np_sqrt : Q → Q).
Hypothesis sqrt_proper : ∀ x y, (x == y)%Q → (np_sqrt x == np_sqrt y)%Q.
Hypothesis sqrt_zero : (np_sqrt 0 == 0)%Q.
Hypothesis sqrt_positive : ∀ x, (0 < x)%Q → (0 < np_sqrt x)%Q.




End detection.

(** *** Symmetrising the predicted warp *)

Lemma get_np_zip f (a b c : ndarray Q) idx :
  np_zip f a b = Some c →
  get c idx = (x ← get a idx; y ← get b idx; Some (f x y)).
Proof.
  unfold np_zip. case_bool_decide as Hshape; [|done]. intros [= <-].
  unfold get. simpl. rewrite <- Hshape.
  destruct (in_bounds (shape a) idx); [|done]. apply lookup_zip_with.
Qed.

Lemma np_zip_Some f (a b : ndarray Q) :
  shape a = shape b → ∃ c, np_zip f a b = Some c ∧ shape c = shape a.
Proof.
  intros Hshape. unfold np_zip. rewrite bool_decide_eq_true_2 by done.
  by eexists.
Qed.

Lemma get_np_map f (a : ndarray Q) idx : get (np_map f a) idx = f <$> get a idx.
Proof.
  unfold get, np_map. simpl. destruct (in_bounds (shape a) idx); [|done].
  apply list_lookup_fmap.
Qed.





End RegisterFacts.

(** ** Stepping through effectful code *)

Module PyFacts.
Import Py.

Lemma bind_returns {S A B} (m : M S A) (k : A → M S B) s a s' :
  m s = (Returns a, s') → (m ≫= k) s = k a s'.
Proof. intros Hm. unfold mbind, M_bind, bind. by rewrite Hm. Qed.

Lemma bind_raises {S A B} (m : M S A) (k : A → M S B) s e s' :
  m s = (Raises e, s') → (m ≫= k) s = (Raises e, s').
Proof. intros Hm. unfold mbind, M_bind, bind. by rewrite Hm. Qed.

End PyFacts.

(** ** The transform archive ([io.py]) *)

Module IOFacts.
Import NDArray Util Py FS IO.
Local Open Scope string_scope.



Section round_trip.

Context {stored : Type}
        (filter_encode : ndarray Q → stored)
        (filter_decode : stored → option (ndarray Q)).

(** The contract of the HDF5 filter pipeline: chunking, shuffling,
    deflating and checksumming an array and undoing it yields the array. *)
Hypothesis filter_lossless : ∀ a, filter_decode (filter_encode a) = Some a.




End round_trip.


End IOFacts.

(** ** Template averaging ([cli/build_template.py]) *)

Module AverageFacts.
Import NDArray NDArrayFacts Util Py PyFacts FS BuildTemplate.
Local Open Scope string_scope.


Lemma accumulate_length count avg images :
  Forall (λ image, length (data (numpy image)) = length avg) images →
  length (accumulate count avg images) = length avg.
Proof.
  revert avg. induction images as [|image images IH]; intros avg Hall; [done|].
  apply Forall_cons in Hall as [Hlen Hall]. simpl.
  rewrite IH.
  - rewrite length_zip_with, length_fmap. lia.
  - eapply Forall_impl; [done|]. intros im Him. simpl in Him.
    rewrite length_zip_with, length_fmap. lia.
Qed.






End AverageFacts.

(** ** Stage execution and finalisation ([cli/build_template.py]) *)

Module StageFacts.
Import NDArray Util Py PyFacts FS BuildTemplate Fixtures.
Local Open Scope string_scope.

Section engine.

Context (ants_registration : ants_image → ants_image → string → registration_result).

(** Once [__retries] has reached 2, whatever inputs used the retries up,
    a failing attempt on the next input is not retried: the loop logs that
    the maximum is reached and re-raises. *)
Lemma exhausted_budget_is_fatal step_name step_dir fixed type_of_transform
    transform_avg mirror input_path fr e fr' :
  retries_var fr = 2%nat →
  align_input_attempt ants_registration step_name step_dir fixed
    type_of_transform transform_avg mirror input_path
    (before_first_dot (basename input_path)) fr = (Raises e, fr') →
  ∃ fr'',
    align_input ants_registration step_name step_dir fixed type_of_transform
      transform_avg mirror input_path fr = (Raises e, fr'') ∧
    fs (frame_world fr'') = fs (frame_world fr') ∧
    retries_var fr'' = retries_var fr'.
Proof.
  intros Hretries Hattempt. unfold align_input.
  rewrite (bind_returns get_state _ fr fr fr) by done.
  rewrite Hretries. simpl. unfold try_except. rewrite Hattempt.
  eexists. split; [reflexivity|]. done.
Qed.

(** In a mirrored stage without transform files, an attempt that finds
    the non-mirrored output in place and the mirrored one missing while
    [moving] is still unbound raises [UnboundLocalError], whatever the
    engine and the rest of the state. *)
Lemma resumed_mirror_attempt_raises step_name step_dir fixed type_of_transform
    input_path input_name fr :
  moving_var fr = None →
  is_Some (resolve (fs (frame_world fr))
             (step_output_path step_dir input_name false ".nii")) →
  resolve (fs (frame_world fr))
    (step_output_path step_dir input_name true ".nii") = None →
  (align_input_attempt ants_registration step_name step_dir fixed
     type_of_transform false true input_path input_name fr).1
  = Raises UnboundLocalError.
Proof.
  intros Hmoving Hprimary Hmirror. unfold align_input_attempt.
  cbv [in_world zoom __step_output_exists path_exists logger read_moving
       mbind M_bind bind get_state modify ret mret M_ret of_option raise].
  simpl. rewrite bool_decide_eq_true_2 by done. simpl.
  rewrite Hmirror. rewrite bool_decide_eq_false_2 by (by intros [? ?]). simpl.
  by rewrite Hmoving.
Qed.

End engine.

(** Removing a file touches no other path. *)
Lemma remove_if_present_other path other (w : world) :
  other ≠ path →
  fs (remove_if_present path w).2 !! other = fs w !! other.
Proof.
  intros Hne. unfold remove_if_present, try_except, remove.
  cbv [mbind M_bind bind get_state modify raise ret mret M_ret].
  destruct (fs w !! path) as [[c| |t]|] eqn:Hpath; simpl;
    by rewrite ?lookup_delete_ne.
Qed.

Lemma remove_if_present_returns path (w : world) :
  (remove_if_present path w).1 = Returns tt ∨
  (remove_if_present path w).1 = Raises IsADirectoryError.
Proof.
  unfold remove_if_present, try_except, remove.
  cbv [mbind M_bind bind get_state modify raise ret mret M_ret].
  destruct (fs w !! path) as [[c| |t]|]; simpl; auto.
Qed.

Lemma step_output_path_variants step_dir input_name ext ext' :
  ext ∈ [".nii"; "_t.nii.gz"] → ext' ∈ [".nii"; "_t.nii.gz"] →
  step_output_path step_dir input_name false ext
  ≠ step_output_path step_dir input_name true ext'.
Proof.
  intros Hext Hext' Heq. unfold step_output_path in Heq.
  do 3 apply (inj (String.app _)) in Heq.
  rewrite !elem_of_cons, elem_of_nil in Hext, Hext'.
  destruct Hext as [->|[->|[]]], Hext' as [->|[->|[]]]; discriminate Heq.
Qed.

(** The cleanup before a retry of a mirrored stage leaves both
    non-mirrored outputs of the input as they are, whatever they hold. *)
Lemma clean_step_output_spares_primary input_name step_dir ext (w : world) :
  ext ∈ [".nii"; "_t.nii.gz"] →
  fs (__clean_step_output input_name step_dir true w).2
    !! step_output_path step_dir input_name false ext
  = fs w !! step_output_path step_dir input_name false ext.
Proof.
  intros Hext. unfold __clean_step_output.
  cbv [mbind M_bind bind].
  pose proof (remove_if_present_other
                (step_output_path step_dir input_name true ".nii")
                (step_output_path step_dir input_name false ext) w) as H1.
  destruct (remove_if_present (step_output_path step_dir input_name true ".nii") w)
    as [[[]|e] w1]; simpl in *.
  - rewrite remove_if_present_other.
    + apply H1. apply step_output_path_variants; [done|]. rewrite !elem_of_cons. auto.
    + apply step_output_path_variants; [done|]. rewrite !elem_of_cons. auto.
  - apply H1. apply step_output_path_variants; [done|]. rewrite !elem_of_cons. auto.
Qed.

Lemma remove_if_present_gone path (w : world) :
  (remove_if_present path w).1 = Returns tt →
  fs (remove_if_present path w).2 !! path = None.
Proof.
  unfold remove_if_present, try_except, remove.
  cbv [mbind M_bind bind get_state modify raise ret mret M_ret].
  destruct (fs w !! path) as [[c| |t]|] eqn:Hpath; simpl; try done;
    intros _; apply lookup_delete_eq.
Qed.

Lemma step_output_path_inj step_dir input_name mirror ext ext' :
  step_output_path step_dir input_name mirror ext
  = step_output_path step_dir input_name mirror ext' → ext = ext'.
Proof.
  unfold step_output_path. intros Heq.
  by do 4 apply (inj (String.app _)) in Heq.
Qed.

(** X2. When [__clean_step_output] returns, the warped volume and the
    transform of the variant named by its [mirror] argument are gone, and
    the two files of the other variant are as they were. *)
Theorem clean_step_output_effect input_name step_dir mirror ext (w : world) :
  ext ∈ [".nii"; "_t.nii.gz"] →
  (__clean_step_output input_name step_dir mirror w).1 = Returns tt →
  fs (__clean_step_output input_name step_dir mirror w).2
    !! step_output_path step_dir input_name mirror ext = None ∧
  fs (__clean_step_output input_name step_dir mirror w).2
    !! step_output_path step_dir input_name (negb mirror) ext
  = fs w !! step_output_path step_dir input_name (negb mirror) ext.
Proof.
  intros Hext. unfold __clean_step_output. cbv [mbind M_bind bind].
  set (warped := step_output_path step_dir input_name mirror ".nii").
  set (transform := step_output_path step_dir input_name mirror "_t.nii.gz").
  assert (∀ ext', ext' ∈ [".nii"; "_t.nii.gz"] →
            step_output_path step_dir input_name (negb mirror) ext
            ≠ step_output_path step_dir input_name mirror ext') as Hother.
  { intros ext' Hext'. destruct mirror; simpl.
    - by apply step_output_path_variants.
    - intros Heq. symmetry in Heq. by apply step_output_path_variants in Heq. }
  assert (warped ≠ transform) as Hdistinct.
  { intros Heq. by apply step_output_path_inj in Heq. }
  pose proof (remove_if_present_gone warped w) as Hgone1.
  pose proof (remove_if_present_other warped transform w) as Hkeep1.
  pose proof (remove_if_present_other warped
                (step_output_path step_dir input_name (negb mirror) ext) w) as Hfar1.
  destruct (remove_if_present warped w) as [[[]|e] w1]; simpl in *; [|done].
  pose proof (remove_if_present_gone transform w1) as Hgone2.
  pose proof (remove_if_present_other transform warped w1) as Hkeep2.
  pose proof (remove_if_present_other transform
                (step_output_path step_dir input_name (negb mirror) ext) w1) as Hfar2.
  destruct (remove_if_present transform w1) as [[[]|e] w2]; simpl in *; [|done].
  intros _. subst warped transform. split.
  - rewrite !elem_of_cons, elem_of_nil in Hext.
    destruct Hext as [->|[->|[]]].
    + rewrite Hkeep2 by done. by apply Hgone1.
    + by apply Hgone2.
  - rewrite Hfar2, Hfar1; [done| |]; apply Hother; rewrite !elem_of_cons; auto.
Qed.

(** The cleanup of a mirrored stage on a directory holding all four
    outputs of [a]: the mirrored pair goes, the other pair stays. *)
Lemma clean_step_output_effect_witness :
  fs (__clean_step_output "a" "out/scratch/affine_0" true all_outputs_of_a).2
    !! "out/scratch/affine_0/a_m.nii" = None ∧
  fs (__clean_step_output "a" "out/scratch/affine_0" true all_outputs_of_a).2
    !! "out/scratch/affine_0/a.nii" = Some (File BTruncated).
Proof.
  destruct (clean_step_output_effect "a" "out/scratch/affine_0" true ".nii"
              all_outputs_of_a) as [Hgone Hkept].
  - rewrite !elem_of_cons. auto.
  - reflexivity.
  - split; [exact Hgone|]. etrans; [exact Hkept | reflexivity].
Defined.

(** C1 (the code departs from the claim).  The affine stage runs over
    the inputs [a] and [b]; the engine fails twice on [a] and then
    succeeds, and fails once on [b].  The counter [__retries] is set to 0
    once, before the loop over the inputs, so the two retries spent on [a]
    leave none for [b]: the first failure of [b] is logged as "max retries
    reached" and aborts the stage, and [b] is never retried. *)
Theorem retry_budget_is_shared :
  let run := affine_stage false two_failures_then_one in
  run.1 = Raises EngineError ∧
  log run.2 =
    [(INFO, "affine_0: processing a");
     (ERROR, "Caught exception processing input a, retrying");
     (INFO, "affine_0: processing a");
     (ERROR, "Caught exception processing input a, retrying");
     (INFO, "affine_0: processing a");
     (INFO, "affine_0: processing b");
     (ERROR, "Caught exception processing input b, max retries reached")] ∧
  fs run.2 !! "out/scratch/affine_0/a.nii" = Some (File (BImage brain_a)) ∧
  fs run.2 !! "out/scratch/affine_0/b.nii" = None.
Proof. vm_compute. repeat split; reflexivity. Qed.

(** C2 (the code departs from the claim).  In a mirrored stage the write
    of [a.nii] fails part way on attempt 1, the engine fails on the
    mirrored copy on attempt 2, and attempt 3 succeeds.  The cleanup
    before each retry is called with the stage's [mirror] flag and removes
    only the mirrored names, so the truncated [a.nii] of attempt 1 stays,
    is taken for existing work by attempts 2 and 3, and is what the stage
    leaves on disk; a single successful attempt leaves the warped volume
    there. *)
Theorem failed_write_survives_retry :
  let retried := mirrored_loop_over_a write_fails_then_engine_fails in
  let single := mirrored_loop_over_a no_failure in
  retried.1 = Returns tt ∧ single.1 = Returns tt ∧
  log retried.2 =
    [(INFO, "affine_0: processing a");
     (ERROR, "Caught exception processing input a, retrying");
     (INFO, "affine_0: found existing work for a ");
     (INFO, "affine_0: processing input a mirror");
     (ERROR, "Caught exception processing input a, retrying");
     (INFO, "affine_0: found existing work for a ");
     (INFO, "affine_0: processing input a mirror")] ∧
  fs retried.2 !! "out/scratch/affine_0/a.nii" = Some (File BTruncated) ∧
  fs single.2 !! "out/scratch/affine_0/a.nii" = Some (File (BImage brain_a)) ∧
  fs retried.2 !! "out/scratch/affine_0/a_m.nii"
  = Some (File (BImage brain_a_mirrored)) ∧
  fs single.2 !! "out/scratch/affine_0/a_m.nii"
  = Some (File (BImage brain_a_mirrored)).
Proof. vm_compute. repeat split; reflexivity. Qed.

(** C3 (the code departs from the claim).  [moving] is assigned only in
    the branch that computes the non-mirrored output.  In a resumed
    mirrored stage where [a.nii] exists and [a_m.nii] does not, the
    mirrored branch reads the unbound [moving]: every attempt raises
    [UnboundLocalError], the stage aborts after the third, and no mirrored
    output is written.  When an earlier input of the same run bound
    [moving], the mirrored output of the resumed input [b] is the flipped
    copy of that earlier input [a]. *)
Theorem resumed_mirror_work_fails :
  let first := affine_stage true resumed_before_mirror in
  let later := affine_stage true resumed_second_input in
  first.1 = Raises UnboundLocalError ∧
  fs first.2 !! "out/scratch/affine_0/a_m.nii" = None ∧
  log first.2 =
    [(INFO, "affine_0: found existing work for a ");
     (INFO, "affine_0: processing input a mirror");
     (ERROR, "Caught exception processing input a, retrying");
     (INFO, "affine_0: found existing work for a ");
     (INFO, "affine_0: processing input a mirror");
     (ERROR, "Caught exception processing input a, retrying");
     (INFO, "affine_0: found existing work for a ");
     (INFO, "affine_0: processing input a mirror");
     (ERROR, "Caught exception processing input a, max retries reached")] ∧
  later.1 = Returns tt ∧
  fs later.2 !! "out/scratch/affine_0/b_m.nii"
  = Some (File (BImage brain_a_mirrored)) ∧
  brain_a_mirrored ≠ brain_b_mirrored.
Proof. vm_compute. repeat split; try reflexivity. discriminate. Qed.

(** X1. The head of [register], the sibling of [build_template]: with the
    results directory present and no [--force], it warns and returns
    without raising, and the file tree is as before. *)
Lemma register_early_return (args : Register.arguments) (w : world) :
  is_Some (resolve (fs w) (Register.moving args)) →
  is_Some (resolve (fs w) (rstrip_slash (Register.results_dir args))) →
  Register.force args = false →
  ∃ w', Register.register_path_logic args w = (Returns false, w') ∧
        fs w' = fs w.
Proof.
  intros Hmoving Hresults Hforce. unfold Register.register_path_logic.
  cbv [path_exists mbind M_bind bind get_state ret mret M_ret py_assert logger
       modify].
  simpl. rewrite !bool_decide_eq_true_2 by done. rewrite Hforce.
  eexists. split; reflexivity.
Qed.

Lemma register_early_return_witness :
  ∃ w', Register.register_path_logic register_args results_present
        = (Returns false, w') ∧
        fs w' = fs results_present.
Proof.
  apply register_early_return.
  - by eexists.
  - by eexists.
  - reflexivity.
Defined.

(** C4 (the code departs from the claim).  The [return] taken by
    [build_template] when the output directory exists and neither flag is
    set sits inside the [try] whose [finally] removes the scratch
    directory.  On the output directory of a completed run (no scratch
    directory left) the early return therefore ends in
    [FileNotFoundError]; on the output directory of an interrupted run it
    returns, and the scratch directory with the work in it is gone. *)
Theorem existing_output_early_return :
  let args := template_args false false in
  let completed := run_build_template args output_without_scratch in
  let interrupted := run_build_template args output_with_scratch in
  completed.1 = Raises FileNotFoundError ∧
  fs completed.2 = fs output_without_scratch ∧
  interrupted.1 = Returns tt ∧
  fs output_with_scratch !! "out/scratch/affine_0/a.nii"
  = Some (File (BImage brain_a)) ∧
  fs interrupted.2 !! "out/scratch/affine_0/a.nii" = None ∧
  fs interrupted.2 !! "out/scratch" = None ∧
  log interrupted.2 =
    [(DEBUG, "Parsed input files: in/a.nii, in/b.nii");
     (WARNING, "Results directory already exists. Run again with --force to override or --preemptible to resume");
     (INFO, "Exiting, cleaning scratch")].
Proof. vm_compute. repeat split; reflexivity. Qed.

Lemma length_append (s t : string) :
  String.length (s +:+ t) = (String.length s + String.length t)%nat.
Proof.
  induction s as [|a s IH]; [done|].
  change (S (String.length (s +:+ t)) = S (String.length s + String.length t)).
  by rewrite IH.
Qed.

Lemma append_cancel_r (s1 s2 t : string) : s1 +:+ t = s2 +:+ t → s1 = s2.
Proof.
  revert s2. induction s1 as [|a s1 IH]; intros [|b s2] Heq; [done| | |].
  - apply (f_equal String.length) in Heq.
    rewrite !length_append in Heq. simpl in Heq. lia.
  - apply (f_equal String.length) in Heq.
    rewrite !length_append in Heq. simpl in Heq. lia.
  - change (String a (s1 +:+ t) = String b (s2 +:+ t)) in Heq.
    injection Heq as -> Heq. f_equal. by apply IH.
Qed.

(** The name under which the link is created is never the name of the
    template that was moved. *)
Lemma link_name_differs (out : string) (steps : Z) :
  out +:+ "/templates/syn_" +:+ pretty (steps - 1)%Z +:+ ".nii"
  ≠ out +:+ "/templates/syn_" +:+ pretty steps +:+ ".nii".
Proof.
  intros Heq. do 2 apply (inj (String.app _)) in Heq.
  apply append_cancel_r, (inj pretty) in Heq. lia.
Qed.

(** The last block in keep-intermediates mode, whenever it succeeds: the
    name the template was moved from is free, and the link sits under the
    name built from [syn_steps]. *)
Lemma finish_template_keep (args : arguments) (w w' : world) :
  keep_intermediates args = true →
  finish_template args w = (Returns tt, w') →
  fs w' !! (output args +:+ "/templates/syn_"
            +:+ pretty (syn_steps args - 1)%Z +:+ ".nii") = None ∧
  fs w' !! (output args +:+ "/templates/syn_"
            +:+ pretty (syn_steps args) +:+ ".nii")
  = Some (Symlink (output args +:+ "/template.nii")).
Proof.
  intros Hkeep. unfold finish_template. rewrite Hkeep.
  set (moved := output args +:+ "/templates/syn_"
                +:+ pretty (syn_steps args - 1)%Z +:+ ".nii").
  set (link := output args +:+ "/templates/syn_"
               +:+ pretty (syn_steps args) +:+ ".nii").
  set (final := output args +:+ "/template.nii").
  assert (moved ≠ link) as Hlink by apply link_name_differs.
  assert (moved ≠ final) as Hfinal.
  { intros Heq. apply (inj (String.app _)) in Heq. vm_compute in Heq.
    discriminate Heq. }
  cbv [move symlink logger mbind M_bind bind get_state modify ret mret M_ret raise].
  simpl.
  destruct (fs w !! moved) as [n|] eqn:Hmoved; [|done].
  destruct (parent_is_dir (fs w) final); [|done]. simpl.
  destruct (<[final:=n]> (delete moved (fs w)) !! link) eqn:Hfree; [done|].
  destruct (parent_is_dir (<[final:=n]> (delete moved (fs w))) link); [|done].
  simpl. intros [= <-]. simpl. split.
  - rewrite !lookup_insert_ne by done. apply lookup_delete_eq.
  - apply lookup_insert_eq.
Qed.

(** The early return of [build_template], for every engine and every
    state: when the inputs parse, no reference image is given, the output
    directory exists without a scratch directory and neither flag is set,
    the run ends in [FileNotFoundError]. *)
Lemma early_return_without_scratch_raises
    ants_registration ants_apply_transforms __legacy_preprocess clahe
    (args : arguments) (w : world) input_paths :
  parse_inputs (input args) [] w = (Returns input_paths, w) →
  reference_image args = None →
  is_Some (resolve (fs w) (output args)) →
  force args = false → preemptible args = false →
  fs w !! (output args +:+ "/scratch") = None →
  (build_template ants_registration ants_apply_transforms __legacy_preprocess
     clahe args w).1 = Raises FileNotFoundError.
Proof.
  intros Hparse Hreference Houtput Hforce Hpreemptible Hscratch.
  unfold build_template, try_finally, try_except, build_template_try.
  rewrite (bind_returns _ _ _ _ _ Hparse). rewrite Hreference.
  cbv [path_exists logger rmtree mbind M_bind bind get_state modify ret mret
       M_ret raise].
  simpl. rewrite bool_decide_eq_true_2 by done.
  rewrite Hforce, Hpreemptible. simpl. by rewrite Hscratch.
Qed.

(** C9 (the code departs from the claim).  A full run with one affine and
    one SyN step and [--keep_intermediates]: the template of the last SyN
    step, [templates/syn_0.nii], is moved to [template.nii], and the
    directories [preprocessed] and [templates] stay.  The link added
    "for the final result which was moved" is created under
    [templates/syn_1.nii], the name built from [syn_steps] and not from
    [syn_steps - 1]; nothing is left under the name that was moved. *)
Theorem final_template_link_name :
  let run := run_build_template (template_args true false) fresh_inputs in
  run.1 = Returns tt ∧
  is_Some (fs run.2 !! "out/template.nii") ∧
  fs run.2 !! "out/preprocessed" = Some Dir ∧
  fs run.2 !! "out/templates" = Some Dir ∧
  fs run.2 !! "out/templates/syn_0.nii" = None ∧
  fs run.2 !! "out/templates/syn_1.nii" = Some (Symlink "out/template.nii").
Proof. vm_compute. repeat split; try reflexivity. by eexists. Qed.

End StageFacts.

(* ====================================================================== *)
(** * Further properties of the code *)
(* ====================================================================== *)

(** ** Thresholding ([util.py]) *)

Module ThresholdFacts.
Import NDArray Util Threshold.

Lemma Qle_bool_false (x y : Q) : Qle_bool x y = false ↔ (y < x)%Q.
Proof.
  split.
  - intros H. apply Qnot_le_lt. intros Hle. apply Qle_bool_iff in Hle. congruence.
  - intros H. destruct (Qle_bool x y) eqn:E; [|done].
    apply Qle_bool_iff in E. lra.
Qed.

(** X3. Thresholding twice is thresholding once at the larger of the two
    thresholds (so it is idempotent), with the metadata untouched; and
    every voxel of a thresholded volume is either 0 or a voxel of the
    input that lies above the threshold, at the same position. *)
Theorem threshold_image_compose (image : ants_image) (t1 t2 : Q) :
  threshold_image (threshold_image image t1) t2
  = threshold_image image (if Qle_bool t1 t2 then t2 else t1) ∧
  ∀ i v, data (numpy (threshold_image image t1)) !! i = Some v →
    v = 0%Q ∨ (t1 < v)%Q ∧ data (numpy image) !! i = Some v.
Proof.
  split.
  - unfold threshold_image, zero_up_to, np_map, from_numpy, numpy. simpl.
    f_equal. f_equal.
    rewrite <- list_fmap_compose. apply list_fmap_ext. intros _ x _. simpl.
    destruct (Qle_bool x t1) eqn:E1, (Qle_bool t1 t2) eqn:E12.
    + assert (Qle_bool x t2 = true) as ->; [|by destruct (Qle_bool 0 t2)].
      apply Qle_bool_iff. apply Qle_bool_iff in E1, E12. lra.
    + rewrite E1. by destruct (Qle_bool 0 t2).
    + done.
    + rewrite E1. assert (Qle_bool x t2 = false) as ->; [|done].
      apply Qle_bool_false. apply Qle_bool_false in E1, E12. lra.
  - intros i v. unfold threshold_image, zero_up_to, np_map, from_numpy, numpy.
    simpl. rewrite list_lookup_fmap.
    destruct (data (img_array image) !! i) as [x|]; [|done].
    simpl. destruct (Qle_bool x t1) eqn:E; intros [= <-]; [by left|right].
    split; [by apply Qle_bool_false | done].
Qed.

End ThresholdFacts.

(** ** Where transposition puts voxels and metadata ([util.py]) *)

Module TransposeFacts.
Import NDArray NDArrayFacts Util UtilFacts.

(** Transposing a rank-3 array by an axis order: the element at an index
    of the input sits at the index read through the axis order. *)
Lemma np_transpose_axes {A} (a : ndarray A) (P : list nat) :
  length (shape a) = 3 → well_formed a → P ∈ axis_orders →
  ∃ a', np_transpose a P = Some a' ∧
        well_formed a' ∧
        permute (shape a) P = Some (shape a') ∧
        ∀ idx, in_bounds (shape a) idx = true →
          ∃ idx', permute idx P = Some idx' ∧
                  in_bounds (shape a') idx' = true ∧
                  get a' idx' = get a idx.
Proof.
  intros Hrank Hwf HP. destruct a as [shp d]. simpl in Hrank.
  destruct shp as [|s0 [|s1 [|s2 [|? ?]]]]; try done. clear Hrank.
  set (a := mk_ndarray [s0; s1; s2] d) in *.
  unfold axis_orders in HP. rewrite !elem_of_cons, elem_of_nil in HP.
  destruct HP as [->|[->|[->|[->|[->|[->|[]]]]]]];
  ( unfold np_transpose; cbn -[tabulate get];
    match goal with
    | |- ∃ a', tabulate ?shp' ?F = Some a' ∧ _ =>
        destruct (tabulate_is_Some shp' F) as [a' Ha'];
        [ intros idx (i0 & i1 & i2 & -> & ? & ? & ?)%in_bounds_three;
          cbn -[get]; apply get_Some; [done|];
          by apply in_bounds_three_intro
        | exists a'; split; [done|];
          split; [by eapply tabulate_well_formed|];
          rewrite (tabulate_shape _ _ _ Ha'); split; [done|];
          intros idx (i0 & i1 & i2 & -> & ? & ? & ?)%in_bounds_three;
          eexists; split; [reflexivity|];
          split; [by apply in_bounds_three_intro|];
          rewrite (get_tabulate _ _ _ _ Ha') by (by apply in_bounds_three_intro);
          done ]
    end ).
Qed.

(** What [transpose_image] does with a permutation of the three axes. *)
Lemma transpose_image_spec (image : ants_image) (P : list nat) :
  volume3d image →
  sorted P = seq 0 3 →
  ∃ transposed,
    transpose_image image P = Some transposed ∧
    volume3d transposed ∧
    permute (shape (numpy image)) P = Some (shape (numpy transposed)) ∧
    permute (origin image) P = Some (origin transposed) ∧
    permute (spacing image) P = Some (spacing transposed) ∧
    permute (direction image) P = Some (direction transposed) ∧
    (∀ idx, in_bounds (shape (numpy image)) idx = true →
       ∃ idx', permute idx P = Some idx' ∧
               in_bounds (shape (numpy transposed)) idx' = true ∧
               get (numpy transposed) idx' = get (numpy image) idx) ∧
    transpose_image transposed (argsort P) = Some image.
Proof.
  intros [Hrank Hwf Ho Hs Hd] HP.
  assert (length P = 3) as Hlen by (by rewrite <- length_sorted, HP).
  pose proof (sorted_three P HP) as Hin.
  destruct (np_transpose_axes _ P Hrank Hwf Hin) as (a' & Ha & Hwf' & Hshape & Hget).
  destruct (np_transpose_round_trip _ P Hrank Hwf Hin) as (a'' & Ha'' & Hback).
  rewrite Ha in Ha''. injection Ha'' as <-.
  destruct (permute_round_trip _ P Ho Hin) as (o' & Ho1 & Ho2).
  destruct (permute_round_trip _ P Hs Hin) as (s' & Hs1 & Hs2).
  destruct (permute_round_trip _ P Hd Hin) as (d' & Hd1 & Hd2).
  exists (from_numpy a' o' s' d' (has_components image)).
  split.
  { unfold transpose_image. rewrite Hlen, HP, bool_decide_eq_true_2 by done.
    unfold numpy in *. rewrite Ha, Ho1, Hs1, Hd1. done. }
  split.
  { constructor; simpl; try done.
    - apply length_mapM in Hshape. rewrite <- Hshape. done.
    - apply length_mapM in Ho1. by rewrite <- Ho1.
    - apply length_mapM in Hs1. by rewrite <- Hs1.
    - apply length_mapM in Hd1. by rewrite <- Hd1. }
  repeat (split; [done|]).
  unfold transpose_image.
  rewrite bool_decide_eq_true_2 by (by apply sorted_argsort_three).
  simpl. unfold numpy in *. rewrite Hback, Ho2, Hs2, Hd2. simpl.
  by destruct image.
Qed.

(** X4. [transpose_image] with a permutation [P] of the three axes turns
    a volume into a volume whose shape, origin, spacing and direction rows
    are those of the input read through [P] (entry [k] of the result is
    entry [P[k]] of the input), and the voxel at index [idx] of the input
    is the voxel of the result at the index read through [P] likewise: the
    metadata stay with the axis they describe. *)
Theorem transpose_image_axes (image : ants_image) (P : list nat) :
  volume3d image →
  sorted P = seq 0 3 →
  ∃ transposed,
    transpose_image image P = Some transposed ∧
    volume3d transposed ∧
    permute (shape (numpy image)) P = Some (shape (numpy transposed)) ∧
    permute (origin image) P = Some (origin transposed) ∧
    permute (spacing image) P = Some (spacing transposed) ∧
    permute (direction image) P = Some (direction transposed) ∧
    ∀ idx, in_bounds (shape (numpy image)) idx = true →
      ∃ idx', permute idx P = Some idx' ∧
              in_bounds (shape (numpy transposed)) idx' = true ∧
              get (numpy transposed) idx' = get (numpy image) idx.
Proof.
  intros Hvol HP.
  destruct (transpose_image_spec image P Hvol HP)
    as (transposed & Ht & Hv & Hshape & Ho & Hs & Hd & Hget & _).
  exists transposed. repeat (split; [done|]). done.
Qed.

(** The volume of shape (2, 1, 3) and spacing (1, 2, 3) transposed by
    (2, 0, 1): shape (3, 2, 1), spacing (3, 1, 2), and the voxel at
    (1, 0, 2) found at (2, 1, 0). *)
Lemma transpose_image_axes_witness :
  ∃ transposed,
    transpose_image Fixtures.scan [2; 0; 1] = Some transposed ∧
    shape (numpy transposed) = [3; 2; 1] ∧
    spacing transposed = [3; 1; 2]%Q ∧
    get (numpy transposed) [2; 1; 0] = get (numpy Fixtures.scan) [1; 0; 2].
Proof.
  destruct (transpose_image_axes Fixtures.scan [2; 0; 1])
    as (transposed & Ht & _ & Hshape & _ & Hspacing & _ & Hget).
  - constructor; reflexivity.
  - reflexivity.
  - exists transposed. split; [done|].
    injection Hshape as <-. injection Hspacing as <-.
    destruct (Hget [1; 0; 2] eq_refl) as (idx' & Hidx & _ & Hval).
    injection Hidx as <-. done.
Defined.

End TransposeFacts.

(** ** Label overlap ([util.py]) *)

Module DiceFacts.
Import NDArray Dice.

Lemma insert_unique_elem x y l : y ∈ insert_unique x l → y = x ∨ y ∈ l.
Proof.
  induction l as [|z l IH]; simpl.
  - rewrite list_elem_of_singleton. auto.
  - destruct (x ?= z)%Q; rewrite ?elem_of_cons; [tauto|tauto|].
    intros [->|H]; [tauto|]. destruct (IH H); tauto.
Qed.

Lemma np_unique_elem a y : y ∈ np_unique a → y ∈ data a.
Proof.
  unfold np_unique. induction (data a) as [|x l IH]; simpl; [done|].
  intros [->|H]%insert_unique_elem; rewrite elem_of_cons; auto.
Qed.

Lemma count_true_nonneg mask : (0 <= count_true mask)%Z.
Proof. unfold count_true. lia. Qed.

Lemma count_true_cons b mask :
  count_true (b :: mask) = ((if b then 1 else 0) + count_true mask)%Z.
Proof.
  unfold count_true. rewrite filter_cons.
  destruct b; case_decide; try done; simpl; lia.
Qed.

Lemma count_true_nil : count_true [] = 0%Z.
Proof. reflexivity. Qed.

Lemma count_true_and_l m1 m2 :
  (count_true (zip_with andb m1 m2) <= count_true m1)%Z.
Proof.
  revert m2. induction m1 as [|b1 m1 IH]; intros [|b2 m2]; simpl;
    rewrite ?count_true_cons, ?count_true_nil; try lia.
  - pose proof (count_true_nonneg m1). destruct b1; lia.
  - specialize (IH m2). destruct b1, b2; simpl; lia.
Qed.

Lemma count_true_and_r m1 m2 :
  (count_true (zip_with andb m1 m2) <= count_true m2)%Z.
Proof.
  revert m2. induction m1 as [|b1 m1 IH]; intros [|b2 m2]; simpl;
    rewrite ?count_true_cons, ?count_true_nil; try lia.
  - pose proof (count_true_nonneg m2). destruct b2; lia.
  - specialize (IH m2). destruct b1, b2; simpl; lia.
Qed.

Lemma count_true_and_same m : count_true (zip_with andb m m) = count_true m.
Proof.
  induction m as [|b m IH]; simpl; [done|].
  rewrite !count_true_cons, IH. by destruct b.
Qed.

(** A label that occurs in the image is counted. *)
Lemma count_true_occurs image label :
  label ∈ data image → (1 <= count_true (equals_label image label))%Z.
Proof.
  unfold equals_label. induction (data image) as [|x l IH]; [by intros ?%elem_of_nil|].
  rewrite fmap_cons, count_true_cons. intros [->|H]%elem_of_cons.
  - rewrite (proj2 (Qeq_bool_iff _ _)) by reflexivity.
    pose proof (count_true_nonneg ((λ y, Qeq_bool y x) <$> l)). lia.
  - specialize (IH H). destruct (Qeq_bool x label); lia.
Qed.

Lemma dict_set_Forall (P : np_float → Prop) key value d :
  P value → Forall (λ kv, P kv.2) d → Forall (λ kv, P kv.2) (dict_set key value d).
Proof.
  intros Hv. induction 1 as [|[k v] d Hkv Hd IH]; simpl.
  - by repeat constructor.
  - destruct (k =? key)%Z; constructor; done.
Qed.

Lemma foldl_None {A B} (f : B → A → option B) (l : list A) :
  foldl (λ acc x, b ← acc; f b x) None l = None.
Proof. induction l; simpl; done. Qed.

(** What every round of the loop puts in the dict satisfies [P]. *)
Lemma label_loop_Forall (P : np_float → Prop) image_1 image_2 exclude labels :
  (∀ label, label ∈ labels →
     P (true_divide
          (2 * count_true (zip_with andb (equals_label image_1 label)
                                         (equals_label image_2 label)))
          (count_true (equals_label image_1 label)
           + count_true (equals_label image_2 label)))) →
  ∀ acc d,
    foldl (λ acc label, label_coeffs ← acc;
                        label_round image_1 image_2 exclude label_coeffs label)
          (Some acc) labels = Some d →
    Forall (λ kv, P kv.2) acc → Forall (λ kv, P kv.2) d.
Proof.
  induction labels as [|label labels IH]; intros HP acc d; simpl.
  - by intros [= <-].
  - unfold label_round at 2.
    destruct (is_integer label); [|by rewrite foldl_None].
    destruct (existsb _ _).
    + intros Hd Hacc. eapply IH; [|done|done].
      intros l Hl. apply HP. rewrite elem_of_cons; auto.
    + intros Hd Hacc. eapply IH; [|done|].
      * intros l Hl. apply HP. rewrite elem_of_cons; auto.
      * apply dict_set_Forall; [|done]. apply HP. rewrite elem_of_cons; auto.
Qed.

Lemma inject_Z_S n :
  (inject_Z (Z.of_nat (S n)) == inject_Z (Z.of_nat n) + 1)%Q.
Proof. rewrite Nat2Z.inj_succ, <- Z.add_1_r, inject_Z_plus. reflexivity. Qed.

Lemma inject_Z_nonneg n : (0 <= inject_Z (Z.of_nat n))%Q.
Proof. unfold Qle. simpl. lia. Qed.

Lemma float_sum_between lo hi values :
  Forall (between lo hi) values →
  ∃ total, foldr float_add (Finite 0) values = Finite total ∧
           (lo * inject_Z (Z.of_nat (length values)) <= total)%Q ∧
           (total <= hi * inject_Z (Z.of_nat (length values)))%Q.
Proof.
  induction 1 as [|x values (v & -> & Hlo & Hhi) _ (total & Htotal & Hl & Hh)].
  - exists 0%Q. split; [done|].
    change (inject_Z (Z.of_nat (length (@nil np_float)))) with 0%Q. split; lra.
  - exists (v + total)%Q. cbn [foldr length]. rewrite Htotal. split; [done|].
    rewrite inject_Z_S. split; lra.
Qed.

Lemma np_mean_between lo hi values :
  values ≠ [] → Forall (between lo hi) values → between lo hi (np_mean values).
Proof.
  intros Hne Hall. destruct (float_sum_between lo hi values Hall)
    as (total & Htotal & Hl & Hh).
  destruct values as [|x values]; [done|]. unfold np_mean. rewrite Htotal.
  eexists. split; [done|].
  set (n := inject_Z (Z.of_nat (length (x :: values)))) in *.
  assert (0 < n)%Q as Hn.
  { unfold n, Qlt. simpl. lia. }
  split.
  - apply Qle_shift_div_l; done.
  - apply Qle_shift_div_r; done.
Qed.

Lemma true_divide_between lo hi numerator denominator :
  (0 < denominator)%Z →
  (lo * inject_Z denominator <= inject_Z numerator)%Q →
  (inject_Z numerator <= hi * inject_Z denominator)%Q →
  between lo hi (true_divide numerator denominator).
Proof.
  intros Hpos Hl Hh. unfold true_divide.
  destruct (Z.eqb_spec denominator 0) as [->|_]; [lia|].
  eexists. split; [done|].
  assert (0 < inject_Z denominator)%Q as Hd.
  { unfold Qlt. simpl. lia. }
  split.
  - by apply Qle_shift_div_l.
  - by apply Qle_shift_div_r.
Qed.

Lemma between_values lo hi (coeffs : list (Z * np_float)) :
  Forall (λ kv, between lo hi kv.2) coeffs → Forall (between lo hi) (snd <$> coeffs).
Proof. intros H. by apply Forall_fmap. Qed.

(** X5. Whenever [dice_coefficient] returns, every per-label coefficient
    is a number between 0 and 1 (the division never meets a zero
    denominator, since each label taken from the first image occurs in
    it), and the mean coefficient is a number between 0 and 1 as well,
    unless every label was excluded, in which case it is NaN. *)
Theorem dice_coefficient_range (image_1 image_2 : ndarray Q) (exclude_labels : list Q)
    mean_coeff label_coeffs :
  dice_coefficient image_1 image_2 exclude_labels = Some (mean_coeff, label_coeffs) →
  Forall (λ kv, between 0 1 kv.2) label_coeffs ∧
  (label_coeffs = [] → mean_coeff = NaN) ∧
  (label_coeffs ≠ [] → between 0 1 mean_coeff).
Proof.
  unfold dice_coefficient. case_bool_decide as Hshape; [|done].
  destruct (np_equal _ _) as [same|]; [|done]. simpl.
  destruct (all same); [|done].
  destruct (foldl _ _ _) as [d|] eqn:Hloop; [|done]. simpl.
  intros [= <- <-].
  assert (Forall (λ kv, between 0 1 kv.2) d) as Hall.
  { eapply (label_loop_Forall (between 0 1)); [|exact Hloop|constructor].
    intros label Hlabel%np_unique_elem.
    pose proof (count_true_occurs image_1 label Hlabel).
    pose proof (count_true_nonneg (equals_label image_2 label)).
    pose proof (count_true_and_l (equals_label image_1 label) (equals_label image_2 label)).
    pose proof (count_true_and_r (equals_label image_1 label) (equals_label image_2 label)).
    pose proof (count_true_nonneg (zip_with andb (equals_label image_1 label)
                                    (equals_label image_2 label))).
    apply true_divide_between; [lia| |].
    - rewrite Qmult_0_l. unfold Qle. simpl. lia.
    - rewrite Qmult_1_l. unfold Qle. simpl. lia. }
  split; [done|]. split.
  - by intros ->.
  - intros Hne. apply np_mean_between; [|by apply between_values].
    by destruct d.
Qed.

Lemma np_equal_refl l : np_equal l l = Some (zip_with Qeq_bool l l).
Proof. unfold np_equal. by rewrite Nat.eqb_refl. Qed.

Lemma all_equal_refl l : all (zip_with Qeq_bool l l) = true.
Proof.
  unfold all. induction l as [|x l IH]; simpl; [done|].
  rewrite IH, andb_true_r. apply Qeq_bool_iff. reflexivity.
Qed.

Lemma label_loop_is_Some image_1 image_2 exclude labels :
  forallb is_integer labels = true →
  ∀ acc, is_Some (foldl (λ acc label, label_coeffs ← acc;
                           label_round image_1 image_2 exclude label_coeffs label)
                        (Some acc) labels).
Proof.
  induction labels as [|label labels IH]; simpl; [by eexists|].
  intros [Hint Hrest]%andb_true_iff acc. unfold label_round at 2.
  rewrite Hint. destruct (existsb _ _); by apply IH.
Qed.

Lemma label_loop_integers image_1 image_2 exclude labels :
  ∀ acc,
    is_Some (foldl (λ acc label, label_coeffs ← acc;
                      label_round image_1 image_2 exclude label_coeffs label)
                   (Some acc) labels) →
    forallb is_integer labels = true.
Proof.
  induction labels as [|label labels IH]; simpl; [done|].
  intros acc. unfold label_round at 2.
  destruct (is_integer label); [|rewrite foldl_None; by intros [? ?]].
  destruct (existsb _ _); apply IH.
Qed.

(** X6. An image compared with itself: [dice_coefficient] returns exactly
    when every label of the image is integral (the assertion in the loop),
    and then every per-label coefficient is 1 and so is the mean, when a
    label is left after the exclusions. *)
Theorem dice_coefficient_self (image : ndarray Q) (exclude_labels : list Q) :
  (is_Some (dice_coefficient image image exclude_labels) ↔
   forallb is_integer (np_unique image) = true) ∧
  ∀ mean_coeff label_coeffs,
    dice_coefficient image image exclude_labels = Some (mean_coeff, label_coeffs) →
    Forall (λ kv, ∃ v, kv.2 = Finite v ∧ (v == 1)%Q) label_coeffs ∧
    (label_coeffs ≠ [] → ∃ v, mean_coeff = Finite v ∧ (v == 1)%Q).
Proof.
  assert (∀ x, between 1 1 x → ∃ v, x = Finite v ∧ (v == 1)%Q) as Hone.
  { intros x (v & -> & Hl & Hh). exists v. split; [done|]. by apply Qle_antisym. }
  unfold dice_coefficient. rewrite bool_decide_eq_true_2 by done.
  rewrite np_equal_refl. simpl. rewrite all_equal_refl.
  split.
  - split.
    + destruct (foldl _ _ _) as [d|] eqn:Hloop; [|by intros [? ?]].
      intros _. eapply label_loop_integers. by rewrite Hloop.
    + intros Hint.
      destruct (label_loop_is_Some image image exclude_labels _ Hint []) as [d ->].
      by eexists.
  - intros mean_coeff label_coeffs.
    destruct (foldl _ _ _) as [d|] eqn:Hloop; [|done]. simpl.
    intros [= <- <-].
    assert (Forall (λ kv, between 1 1 kv.2) d) as Hall.
    { eapply (label_loop_Forall (between 1 1)); [|exact Hloop|constructor].
      intros label Hlabel%np_unique_elem.
      pose proof (count_true_occurs image label Hlabel).
      rewrite count_true_and_same.
      apply true_divide_between; [lia| |];
        rewrite Qmult_1_l; unfold Qle; simpl; lia. }
    split.
    + eapply Forall_impl; [exact Hall|]. intros kv. apply Hone.
    + intros Hne. apply Hone, np_mean_between; [|by apply between_values].
      by destruct d.
Qed.


Lemma Qeq_bool_sym x y : Qeq_bool x y = Qeq_bool y x.
Proof.
  destruct (Qeq_bool x y) eqn:E1, (Qeq_bool y x) eqn:E2; try done.
  - apply Qeq_bool_iff in E1. symmetry in E1. apply Qeq_bool_iff in E1. congruence.
  - apply Qeq_bool_iff in E2. symmetry in E2. apply Qeq_bool_iff in E2. congruence.
Qed.

Lemma Qeq_bool_proper x x' y y' :
  (x == x')%Q → (y == y')%Q → Qeq_bool x y = Qeq_bool x' y'.
Proof.
  intros Hx Hy.
  destruct (Qeq_bool x y) eqn:E1, (Qeq_bool x' y') eqn:E2; try done.
  - apply Qeq_bool_iff in E1. rewrite Hx, Hy in E1. apply Qeq_bool_iff in E1. congruence.
  - apply Qeq_bool_iff in E2. rewrite <- Hx, <- Hy in E2. apply Qeq_bool_iff in E2.
    congruence.
Qed.

Lemma Qle_bool_proper x x' y y' :
  (x == x')%Q → (y == y')%Q → Qle_bool x y = Qle_bool x' y'.
Proof.
  intros Hx Hy.
  destruct (Qle_bool x y) eqn:E1, (Qle_bool x' y') eqn:E2; try done.
  - apply Qle_bool_iff in E1. rewrite Hx, Hy in E1. apply Qle_bool_iff in E1. congruence.
  - apply Qle_bool_iff in E2. rewrite <- Hx, <- Hy in E2. apply Qle_bool_iff in E2.
    congruence.
Qed.

Lemma is_integer_proper x y : (x == y)%Q → is_integer x = is_integer y.
Proof.
  intros H. unfold is_integer. rewrite (Qfloor_comp _ _ H).
  by apply Qeq_bool_proper.
Qed.

Lemma int_proper x y : (x == y)%Q → int x = int y.
Proof.
  intros H. unfold int. rewrite (Qle_bool_proper 0 0 x y) by done.
  by rewrite (Qfloor_comp _ _ H), (Qceiling_comp _ _ H).
Qed.

Lemma equals_label_proper image x y :
  (x == y)%Q → equals_label image x = equals_label image y.
Proof.
  intros H. unfold equals_label. apply list_fmap_ext. intros _ v _.
  by apply Qeq_bool_proper.
Qed.

Lemma excluded_proper (exclude : list Q) x y :
  (x == y)%Q → existsb (Qeq_bool x) exclude = existsb (Qeq_bool y) exclude.
Proof.
  intros H. induction exclude as [|e exclude IH]; simpl; [done|].
  by rewrite IH, (Qeq_bool_proper x y e e).
Qed.

Lemma zip_with_andb_comm m1 m2 : zip_with andb m1 m2 = zip_with andb m2 m1.
Proof.
  revert m2. induction m1 as [|b1 m1 IH]; intros [|b2 m2]; simpl; try done.
  by rewrite IH, andb_comm.
Qed.

Lemma label_round_swap image_1 image_2 exclude acc x y :
  (x == y)%Q →
  label_round image_1 image_2 exclude acc x
  = label_round image_2 image_1 exclude acc y.
Proof.
  intros H. unfold label_round.
  rewrite (is_integer_proper x y H), (excluded_proper exclude x y H),
    (int_proper x y H), (equals_label_proper image_1 x y H),
    (equals_label_proper image_2 x y H).
  rewrite (zip_with_andb_comm (equals_label image_1 y)).
  by rewrite (Z.add_comm (count_true (equals_label image_1 y))).
Qed.

Lemma label_loop_swap image_1 image_2 exclude labels_1 labels_2 :
  Forall2 Qeq labels_1 labels_2 →
  ∀ acc,
    foldl (λ acc label, label_coeffs ← acc;
                        label_round image_1 image_2 exclude label_coeffs label)
          acc labels_1
    = foldl (λ acc label, label_coeffs ← acc;
                          label_round image_2 image_1 exclude label_coeffs label)
            acc labels_2.
Proof.
  induction 1 as [|x y l1 l2 Hxy _ IH]; intros acc; simpl; [done|].
  rewrite IH. f_equal. destruct acc as [d|]; simpl; [|done].
  by apply label_round_swap.
Qed.

(** [np.unique] returns its values in strictly ascending order. *)
Lemma insert_unique_HdRel x y l :
  (y < x)%Q → HdRel Qlt y l → HdRel Qlt y (insert_unique x l).
Proof.
  intros Hyx. destruct l as [|z l]; simpl; [by constructor|].
  intros Hz%HdRel_inv. destruct (x ?= z)%Q; by constructor.
Qed.

Lemma insert_unique_Sorted x l : Sorted Qlt l → Sorted Qlt (insert_unique x l).
Proof.
  induction 1 as [|z l Hl IH Hz]; simpl; [by repeat constructor|].
  destruct (x ?= z)%Q eqn:E.
  - by constructor.
  - constructor; [by constructor|]. constructor. by apply Qlt_alt.
  - constructor; [done|]. apply insert_unique_HdRel; [|done]. by apply Qgt_alt.
Qed.

Lemma np_unique_Sorted a : Sorted Qlt (np_unique a).
Proof.
  unfold np_unique. induction (data a) as [|x l IH]; simpl; [constructor|].
  by apply insert_unique_Sorted.
Qed.

Lemma insert_unique_nonempty x l : insert_unique x l ≠ [].
Proof. destruct l as [|z l]; simpl; [done|]. by destruct (x ?= z)%Q. Qed.

Lemma all_compared l1 l2 :
  length l1 = length l2 →
  all (zip_with Qeq_bool l1 l2) = true → Forall2 Qeq l1 l2.
Proof.
  revert l2. induction l1 as [|x l1 IH]; intros [|y l2]; simpl; try done.
  intros [= Hlen] [Hxy Hrest]%andb_true_iff. constructor.
  - by apply Qeq_bool_iff.
  - by apply IH.
Qed.

Lemma zip_with_Qeq_bool_comm l1 l2 :
  zip_with Qeq_bool l1 l2 = zip_with Qeq_bool l2 l1.
Proof.
  revert l2. induction l1 as [|x l1 IH]; intros [|y l2]; simpl; try done.
  by rewrite IH, Qeq_bool_sym.
Qed.

(** X7. [dice_coefficient] is symmetric in the two images: swapping them
    gives the same outcome, be it a failed assertion or the same mean and
    the same per-label coefficients in the same order. *)
Theorem dice_coefficient_symmetric (image_1 image_2 : ndarray Q)
    (exclude_labels : list Q) :
  well_formed image_1 → well_formed image_2 →
  dice_coefficient image_1 image_2 exclude_labels
  = dice_coefficient image_2 image_1 exclude_labels.
Proof.
  intros Hwf1 Hwf2. unfold dice_coefficient.
  case_bool_decide as Hshape; [|by rewrite bool_decide_eq_false_2].
  rewrite bool_decide_eq_true_2 by done.
  assert (length (data image_1) = length (data image_2)) as Hdata.
  { unfold well_formed in *. by rewrite Hwf1, Hwf2, Hshape. }
  assert (np_unique image_1 = [] ↔ np_unique image_2 = []) as Hnil.
  { unfold np_unique.
    destruct (data image_1) as [|x1 d1], (data image_2) as [|x2 d2]; simpl in *;
      try done; split; intros H; by apply insert_unique_nonempty in H. }
  pose proof (np_unique_Sorted image_1) as Hs1.
  pose proof (np_unique_Sorted image_2) as Hs2.
  revert Hnil Hs1 Hs2. generalize (np_unique image_1) (np_unique image_2).
  intros l1 l2 Hnil Hs1 Hs2.
  unfold np_equal. rewrite (Nat.eqb_sym (length l2)).
  destruct (Nat.eqb_spec (length l1) (length l2)) as [Hlen|Hlen].
  - simpl. rewrite (zip_with_Qeq_bool_comm l2 l1).
    destruct (all (zip_with Qeq_bool l1 l2)) eqn:Hall; [|done].
    apply all_compared in Hall; [|done].
    by rewrite (label_loop_swap image_1 image_2 exclude_labels l1 l2 Hall).
  - destruct l1 as [|x1 [|x1' l1]], l2 as [|x2 [|x2' l2]]; simpl in *; try done.
    + destruct Hnil as [Hnil _]. discriminate (Hnil eq_refl).
    + destruct Hnil as [_ Hnil]. discriminate (Hnil eq_refl).
    + apply Sorted_inv in Hs2 as [_ Hhd]. apply HdRel_inv in Hhd.
      rewrite (Qeq_bool_sym x2 x1), (Qeq_bool_sym x2' x1).
      destruct (Qeq_bool x1 x2) eqn:E0; [|done].
      destruct (Qeq_bool x1 x2') eqn:E1; [|done].
      apply Qeq_bool_iff in E0, E1. lra.
    + apply Sorted_inv in Hs1 as [_ Hhd]. apply HdRel_inv in Hhd.
      rewrite (Qeq_bool_sym x1 x2), (Qeq_bool_sym x1' x2).
      destruct (Qeq_bool x2 x1) eqn:E0; [|done].
      destruct (Qeq_bool x2 x1') eqn:E1; [|done].
      apply Qeq_bool_iff in E0, E1. lra.
Qed.

(** Two label images that agree on half of label 1 and half of label 2. *)
Lemma dice_coefficient_range_witness :
  ∃ mean_coeff label_coeffs,
    dice_coefficient Examples.labels_a Examples.labels_b [0%Q]
    = Some (mean_coeff, label_coeffs) ∧
    (fst <$> label_coeffs) = [1%Z; 2%Z] ∧
    Forall (λ kv, between 0 1 kv.2) label_coeffs ∧
    between 0 1 mean_coeff.
Proof.
  eexists _, _. split; [vm_compute; reflexivity|]. split; [reflexivity|].
  edestruct (dice_coefficient_range Examples.labels_a Examples.labels_b [0%Q])
    as (Hall & _ & Hmean); [vm_compute; reflexivity|].
  split; [exact Hall|]. by apply Hmean.
Defined.

Lemma dice_coefficient_self_witness :
  ∃ mean_coeff label_coeffs v,
    dice_coefficient Examples.labels_a Examples.labels_a [0%Q]
    = Some (mean_coeff, label_coeffs) ∧
    (fst <$> label_coeffs) = [1%Z; 2%Z] ∧
    mean_coeff = Finite v ∧ (v == 1)%Q.
Proof.
  destruct (dice_coefficient_self Examples.labels_a [0%Q]) as [[_ Hsome] Hone].
  destruct (Hsome eq_refl) as [[mean_coeff label_coeffs] Hrun].
  destruct (Hone _ _ Hrun) as [_ Hmean].
  assert ((fst <$> label_coeffs) = [1%Z; 2%Z]) as Hkeys.
  { vm_compute in Hrun. by injection Hrun as _ <-. }
  destruct Hmean as (v & Hv & Heq); [by destruct label_coeffs|].
  by exists mean_coeff, label_coeffs, v.
Defined.

Lemma dice_coefficient_symmetric_witness :
  dice_coefficient Examples.labels_a Examples.labels_b [0%Q]
  = dice_coefficient Examples.labels_b Examples.labels_a [0%Q].
Proof. apply dice_coefficient_symmetric; reflexivity. Defined.

End DiceFacts.

(** ** Splitting and joining strings *)

Module StringFacts.
Import FS.
Local Open Scope string_scope.

Lemma append_assoc (s1 s2 s3 : string) : s1 +:+ s2 +:+ s3 = (s1 +:+ s2) +:+ s3.
Proof.
  induction s1 as [|a s1 IH]; [done|].
  change (String a (s1 +:+ s2 +:+ s3) = String a ((s1 +:+ s2) +:+ s3)).
  by rewrite IH.
Qed.

Lemma split_on_nonempty c s : split_on c s ≠ [].
Proof.
  destruct s as [|a s]; simpl; [done|].
  destruct (Ascii.eqb a c); [done|]. by destruct (split_on c s).
Qed.

(** Splitting at the first separator. *)
Lemma split_on_first c first rest :
  c ∉ list_ascii_of_string first →
  split_on c (first +:+ String c rest) = first :: split_on c rest.
Proof.
  induction first as [|a first IH]; intros Hc.
  - change ("" +:+ String c rest) with (String c rest). simpl.
    by rewrite Ascii.eqb_refl.
  - change (String a first +:+ String c rest)
      with (String a (first +:+ String c rest)).
    simpl in *. rewrite not_elem_of_cons in Hc. destruct Hc as [Hne Hc].
    rewrite (IH Hc).
    destruct (Ascii.eqb_spec a c) as [->|_]; done.
Qed.

Lemma split_on_absent c s :
  c ∉ list_ascii_of_string s → split_on c s = [s].
Proof.
  induction s as [|a s IH]; intros Hc; simpl in *; [done|].
  rewrite not_elem_of_cons in Hc. destruct Hc as [Hne Hc].
  rewrite (IH Hc). destruct (Ascii.eqb_spec a c) as [->|_]; done.
Qed.

(** Joining what was split gives the string back. *)
Lemma join_split c s : join_with (String c "") (split_on c s) = s.
Proof.
  induction s as [|a s IH]; simpl; [done|].
  pose proof (split_on_nonempty c s) as Hne.
  destruct (Ascii.eqb_spec a c) as [->|Hac].
  - destruct (split_on c s) as [|h t]; [done|].
    change (join_with (String c "") ("" :: h :: t))
      with (String c (join_with (String c "") (h :: t))).
    by rewrite IH.
  - destruct (split_on c s) as [|h [|h' t]]; [done| |].
    + simpl in *. by rewrite IH.
    + change (join_with (String c "") (String a h :: h' :: t))
        with (String a (join_with (String c "") (h :: h' :: t))).
      by rewrite IH.
Qed.

End StringFacts.

(** ** The help formatter ([util.py]) *)

Module HelpFormatterFacts.
Import FS HelpFormatter StringFacts.
Local Open Scope string_scope.

Section formatter.
Context {action : Type}
        (super_format_action : action → string)
        (nargs : action → nargs_kind).

(** X8. [SubcommandHelpFormatter._format_action] returns the text of the
    base formatter unchanged for an ordinary action; for the subcommand
    group it removes the first line: everything up to and including the
    first line break, and everything when there is no line break. *)
Theorem format_action_first_line (act : action) :
  (nargs act = OTHER →
   _format_action super_format_action nargs act = super_format_action act) ∧
  (nargs act = PARSER →
   (∀ first rest,
      super_format_action act = first +:+ String newline rest →
      newline ∉ list_ascii_of_string first →
      _format_action super_format_action nargs act = rest) ∧
   (newline ∉ list_ascii_of_string (super_format_action act) →
    _format_action super_format_action nargs act = "")).
Proof.
  unfold _format_action. split; [by intros ->|]. intros ->. split.
  - intros first rest -> Hfirst. rewrite split_on_first by done. simpl.
    apply join_split.
  - intros Habsent. by rewrite split_on_absent.
Qed.

End formatter.

Lemma format_action_first_line_witness :
  _format_action Examples.help_text Examples.help_nargs true = "    register" ∧
  _format_action Examples.help_text Examples.help_nargs false = "  -h, --help".
Proof.
  destruct (format_action_first_line Examples.help_text Examples.help_nargs true)
    as [_ Hgroup].
  destruct (format_action_first_line Examples.help_text Examples.help_nargs false)
    as [Hother _].
  split.
  - destruct (Hgroup eq_refl) as [Hfirst _].
    apply Hfirst with "  available commands:"; [reflexivity|].
    cbn. rewrite !not_elem_of_cons.
    repeat split; try discriminate. apply not_elem_of_nil.
  - by apply Hother.
Defined.

End HelpFormatterFacts.

(** ** File digests and the model weights ([io.py]) *)

Module DigestFacts.
Import Py FS Digest StringFacts.
Local Open Scope string_scope.

(** The loop feeds the hash every byte of the pending chunk and of the
    rest of the file, in order. *)
Lemma hash_chunks_all (file_hash chunk rest : list Byte.byte) :
  (chunk = [] → rest = []) →
  hash_chunks file_hash chunk rest = (file_hash ++ chunk ++ rest)%list.
Proof.
  funelim (hash_chunks file_hash chunk rest); intros Hinv.
  - rewrite Hinv by done. by rewrite app_nil_r.
  - rewrite H.
    + unfold read. simpl. rewrite <- !app_assoc. simpl.
      by rewrite take_drop.
    + unfold read. simpl. intros Htake.
      destruct rest; [done|]. discriminate Htake.
Qed.

Section digest.

Context (md5_hexdigest : list Byte.byte → string)
        (file_bytes : blob → list Byte.byte)
        (url_content : string → blob)
        (package_path : string).

(** X9. [md5sum] of an existing file returns the digest of the whole
    content of the file, whatever its size (empty, shorter than a chunk, a
    multiple of the chunk size or not): reading in chunks of 8192 bytes
    feeds the hash every byte once and in order; the file system is left
    as it was. *)
Theorem md5sum_whole_file (w : world) (filename : string) (content : blob) :
  resolve (fs w) filename = Some (File content) →
  md5sum md5_hexdigest file_bytes filename w
  = (Returns (md5_hexdigest (file_bytes content)), w).
Proof.
  intros Hfile. unfold md5sum.
  cbv [mbind M_bind bind get_state ret mret M_ret]. rewrite Hfile.
  rewrite hash_chunks_all.
  - unfold read. simpl. by rewrite take_drop.
  - unfold read. simpl. destruct (file_bytes content); [done|]. discriminate.
Qed.

(** X10. When [download_weights] returns, the weights are at
    [MODEL_WEIGHTS_PATH], the very path whose existence [register] tests
    before it downloads: a later run finds them and does not download
    again. *)
Theorem download_weights_found (shapes : bool) (w w' : world) :
  download_weights url_content package_path shapes w = (Returns tt, w') →
  path_exists (MODEL_WEIGHTS_PATH package_path) w' = (Returns true, w').
Proof.
  unfold download_weights, urlretrieve, MODEL_WEIGHTS_PATH.
  change (package_path +:+ "/weights/synthmorph_weights.h5")
    with (package_path +:+ "/weights" +:+ "/synthmorph_weights.h5").
  rewrite (append_assoc package_path "/weights" "/synthmorph_weights.h5").
  generalize ((package_path +:+ "/weights") +:+ "/synthmorph_weights.h5").
  intros target. cbv [mbind M_bind bind].
  destruct (makedirs (package_path +:+ "/weights") w) as [[[]|e] w1]; [|done].
  unfold write_file.
  cbv [mbind M_bind bind get_state next_fault raise modify ret mret M_ret].
  destruct (parent_is_dir (fs w1) target); [|done].
  destruct (faults w1) as [|[| |] rest]; simpl; try done;
    intros [= <-]; unfold path_exists;
    cbv [mbind M_bind bind get_state ret mret M_ret]; simpl;
    unfold resolve; rewrite lookup_insert_eq;
    by rewrite bool_decide_eq_true_2.
Qed.

End digest.

(** The digest of a file of 20000 bytes, which takes three reads. *)
Lemma md5sum_whole_file_witness :
  md5sum Examples.listing_digest Examples.raw_bytes "moving.nii"
    Fixtures.results_present
  = (Returns (Examples.listing_digest (replicate (Z.to_nat 20000) Byte.x2a)),
     Fixtures.results_present).
Proof.
  apply (md5sum_whole_file Examples.listing_digest Examples.raw_bytes
           Fixtures.results_present "moving.nii" (BImage Fixtures.brain_a)).
  reflexivity.
Defined.

Lemma download_weights_found_witness :
  ∃ w', download_weights Examples.served "pkg" true Examples.package_installed
        = (Returns tt, w') ∧
        path_exists "pkg/weights/synthmorph_weights.h5" w' = (Returns true, w').
Proof.
  eexists. split; [vm_compute; reflexivity|].
  apply (download_weights_found Examples.served "pkg" true
           Examples.package_installed).
  vm_compute. reflexivity.
Defined.

End DigestFacts.

(** ** Archive entries written back to files ([io.py]) *)

Module ArchiveFileFacts.
Import NDArray Util Py PyFacts FS IO IOFacts.
Local Open Scope string_scope.

Section files.

Context {stored : Type}
        (filter_encode : ndarray Q → stored)
        (filter_decode : stored → option (ndarray Q)).

Hypothesis filter_lossless : ∀ a, filter_decode (filter_encode a) = Some a.


(** X12. An image file stored with [write_image] (through the filter
    pipeline) and read back with [read_image] into a directory is
    reproduced there as [img.nii] with the same voxels and metadata; and
    when the directory already holds an [img.nii] the read fails its
    assertion and nothing is written. *)
Theorem image_file_round_trip (s : @io_state stored) (name path directory : string)
    (image : ants_image) :
  faults (disk s) = [] →
  resolve (fs (disk s)) path = Some (File (BImage image)) →
  archive s !! name = None →
  parent_is_dir (fs (disk s)) (directory +:+ "/img.nii") = true →
  ∃ s1,
    write_image filter_encode name (inr path) s = (Returns tt, s1) ∧
    disk s1 = disk s ∧
    (resolve (fs (disk s)) (directory +:+ "/img.nii") = None →
     ∃ s2,
       read_image filter_decode name (Some directory) s1
       = (Returns (inr (directory +:+ "/img.nii")), s2) ∧
       archive s2 = archive s1 ∧
       fs (disk s2) = <[directory +:+ "/img.nii" := File (BImage image)]> (fs (disk s))) ∧
    (is_Some (resolve (fs (disk s)) (directory +:+ "/img.nii")) →
     read_image filter_decode name (Some directory) s1
     = (Raises AssertionError, s1)).
Proof.
  intros Hfaults Hfile Hname Hparent.
  destruct s as [arch [t lg fl]]. destruct image as [arr o sp d c].
  simpl in *. subst fl.
  eexists. split; [|split; [|split]].
  - unfold write_image, load_image, image_read.
    cbv [create_dataset set_attr on_archive on_disk zoom mbind M_bind bind
         get_state modify ret mret M_ret raise next_fault]. simpl.
    rewrite Hfile. simpl. rewrite Hname. simpl.
    repeat (rewrite lookup_insert_eq; simpl). reflexivity.
  - reflexivity.
  - intros Habsent. eexists. split; [|split].
    + cbv [read_image read_dataset get_attr as_floats as_matrix as_bool
           image_write write_file path_exists py_assert
           on_archive on_disk zoom mbind M_bind bind
           get_state modify ret mret M_ret raise of_option next_fault]. simpl.
      rewrite lookup_insert_eq. simpl. rewrite filter_lossless. simpl.
      repeat (first [rewrite lookup_insert_eq | rewrite lookup_insert_ne by done];
              simpl).
      rewrite Habsent. rewrite bool_decide_eq_false_2 by (by intros [? ?]). simpl.
      rewrite Hparent. simpl. reflexivity.
    + reflexivity.
    + reflexivity.
  - intros Hpresent.
    cbv [read_image read_dataset get_attr as_floats as_matrix as_bool
         image_write write_file path_exists py_assert
         on_archive on_disk zoom mbind M_bind bind
         get_state modify ret mret M_ret raise of_option next_fault]. simpl.
    rewrite lookup_insert_eq. simpl. rewrite filter_lossless. simpl.
    repeat (first [rewrite lookup_insert_eq | rewrite lookup_insert_ne by done];
            simpl).
    rewrite bool_decide_eq_true_2 by done. simpl. reflexivity.
Qed.

End files.


Lemma image_file_round_trip_witness :
  ∃ s1 s2,
    write_image id "/syn/forward_warp" (inr "warp.nii.gz")
      Examples.archive_beside_files = (Returns tt, s1) ∧
    read_image Some "/syn/forward_warp" (Some "tmp") s1
    = (Returns (inr "tmp/img.nii"), s2) ∧
    fs (disk s2) !! "tmp/img.nii" = Some (File (BImage Fixtures.scan)).
Proof.
  destruct (image_file_round_trip (stored := ndarray Q) id Some (λ a, eq_refl)
              Examples.archive_beside_files "/syn/forward_warp" "warp.nii.gz" "tmp"
              Fixtures.scan)
    as (s1 & Hwrite & _ & Hread & _); try reflexivity.
  destruct (Hread eq_refl) as (s2 & Hread2 & _ & Hfs).
  exists s1, s2. split; [exact Hwrite|]. split; [exact Hread2|].
  rewrite Hfs. reflexivity.
Defined.

End ArchiveFileFacts.

(** ** The optimal transposition ([cli/register.py]) *)

Module TranspositionFacts.
Import NDArray NDArrayFacts Util UtilFacts RegisterFacts TransposeFacts Register.

(** [np.argsort] on three keys puts them in non-decreasing order. *)
Lemma argsort_three_sorted (k0 k1 k2 : nat) :
  ∃ a b c, permute [k0; k1; k2] (argsort [k0; k1; k2]) = Some [a; b; c] ∧
           a ≤ b ∧ b ≤ c.
Proof.
  unfold argsort. simpl.
  destruct (Nat.leb_spec k1 k2); simpl;
    destruct (Nat.leb_spec k0 k1), (Nat.leb_spec k0 k2); simpl;
    eexists _, _, _; (split; [reflexivity|]); lia.
Qed.

(** X13. For every volume the transposition computed by [register],
    [np.argsort] of the shape, passes the assertion of [transpose_image];
    the transposed volume has the announced [transposed_shape], whose
    extents are in non-decreasing order (the longest axis last, as in
    [TARGET_SHAPE]); and transposing it by [inverse_transposition] gives
    the original volume back. *)
Theorem optimal_transposition_sorts (moving_img : ants_image) :
  volume3d moving_img →
  ∃ transposed a b c,
    transpose_image moving_img (optimal_transposition moving_img) = Some transposed ∧
    transposed_shape moving_img = Some (shape (numpy transposed)) ∧
    shape (numpy transposed) = [a; b; c] ∧ a ≤ b ∧ b ≤ c ∧
    transpose_image transposed (inverse_transposition moving_img) = Some moving_img.
Proof.
  intros Hvol.
  pose proof (argsort_three (shape (numpy moving_img)) (vol_rank _ Hvol)) as HP.
  assert (sorted (optimal_transposition moving_img) = seq 0 3) as Hsorted.
  { unfold optimal_transposition, axis_orders in *.
    rewrite !elem_of_cons, elem_of_nil in HP.
    destruct HP as [->|[->|[->|[->|[->|[->|[]]]]]]]; reflexivity. }
  destruct (transpose_image_spec moving_img _ Hvol Hsorted)
    as (transposed & Ht & _ & Hshape & _ & _ & _ & _ & Hback).
  destruct Hvol as [Hrank _ _ _ _].
  destruct (shape (numpy moving_img)) as [|k0 [|k1 [|k2 [|? ?]]]] eqn:Hs; try done.
  destruct (argsort_three_sorted k0 k1 k2) as (a & b & c & Hperm & Hab & Hbc).
  exists transposed, a, b, c.
  unfold transposed_shape, optimal_transposition, inverse_transposition in *.
  rewrite Hs in *. rewrite Hperm in Hshape. injection Hshape as <-.
  repeat split; try done. unfold optimal_transposition. by rewrite Hs.
Qed.

(** A volume of shape (2, 1, 3) is transposed to shape (1, 2, 3). *)
Lemma optimal_transposition_sorts_witness :
  ∃ transposed,
    transpose_image Fixtures.scan (optimal_transposition Fixtures.scan)
    = Some transposed ∧
    shape (numpy transposed) = [1; 2; 3] ∧
    transpose_image transposed (inverse_transposition Fixtures.scan)
    = Some Fixtures.scan.
Proof.
  destruct (optimal_transposition_sorts Fixtures.scan)
    as (transposed & a & b & c & Ht & Hshape & _ & _ & _ & Hback).
  - constructor; reflexivity.
  - exists transposed. split; [exact Ht|]. split; [|exact Hback].
    assert (transposed_shape Fixtures.scan = Some [1; 2; 3]) as Hexpected
      by reflexivity.
    rewrite Hexpected in Hshape. by injection Hshape as <-.
Defined.

End TranspositionFacts.

(** ** The symmetrised warp is symmetric ([cli/register.py]) *)

Module SymmetryFacts.
Import NDArray NDArrayFacts Util UtilFacts RegisterFacts Register.

Lemma flip_index_involutive shp axis idx :
  in_bounds shp idx = true →
  flip_index shp axis (flip_index shp axis idx) = idx.
Proof.
  revert axis idx.
  induction shp as [|s shp IH]; intros axis [|i idx]; simpl; try done.
  intros [Hi H]%andb_true_iff. apply Nat.ltb_lt in Hi.
  destruct axis as [|axis]; simpl.
  - f_equal. lia.
  - f_equal. by apply IH.
Qed.

(** A flip along one of the three spatial axes of a warp leaves the
    component index alone. *)
Lemma flip_index_last n s0 s1 s2 k m idx :
  m < 3 → in_bounds [n; s0; s1; s2; k] idx = true →
  last (flip_index [n; s0; s1; s2; k] (m + 1) idx) = last idx.
Proof.
  intros Hm Hin.
  destruct idx as [|i0 [|i1 [|i2 [|i3 [|i4 [|? ?]]]]]]; simpl in Hin;
    rewrite ?andb_false_r in Hin; try done.
  destruct m as [|[|[|m]]]; [done|done|done|lia].
Qed.

(** The elements of the symmetrised warp. *)
Lemma symmetrize_warp_elements (warp : ndarray Q) (mirror_axis n s0 s1 s2 : nat) :
  shape warp = [n; s0; s1; s2; 3] →
  well_formed warp →
  mirror_axis < 3 →
  ∃ symmetrized,
    symmetrize_warp warp mirror_axis = Some symmetrized ∧
    shape symmetrized = shape warp ∧
    well_formed symmetrized ∧
    ∀ idx component,
      in_bounds (shape warp) idx = true →
      last idx = Some component →
      ∃ v v',
        get warp idx = Some v ∧
        get warp (flip_index (shape warp) (mirror_axis + 1) idx) = Some v' ∧
        get symmetrized idx
        = Some (if component =? mirror_axis
                then (v + - v') / 2 else (v + v') / 2)%Q.
Proof.
  intros Hshape Hwf Hm.
  destruct (np_flip_Some warp (mirror_axis + 1) Hwf)
    as (flipped & Hflip & Hfs & Hfwf & Hfget).
  { rewrite Hshape. simpl. lia. }
  destruct (np_zip_Some (λ x y, (x + y) / 2)%Q warp flipped)
    as (mean & Hmean & Hmean_shape); [done|].
  destruct (np_zip_Some (λ x y, (x + y) / 2)%Q warp (np_neg flipped))
    as (anti & Hanti & Hanti_shape); [done|].
  assert (∀ idx, in_bounds (shape warp) idx = true →
            ∃ v v', get warp idx = Some v ∧
                    get warp (flip_index (shape warp) (mirror_axis + 1) idx) = Some v' ∧
                    get mean idx = Some ((v + v') / 2)%Q ∧
                    get anti idx = Some ((v + - v') / 2)%Q) as Hvalues.
  { intros idx Hin.
    destruct (get_Some warp idx Hwf Hin) as [v Hv].
    destruct (get_Some flipped idx Hfwf) as [v' Hv']; [by rewrite Hfs|].
    exists v, v'. rewrite <- (Hfget idx Hin).
    rewrite (get_np_zip _ _ _ _ idx Hmean), (get_np_zip _ _ _ _ idx Hanti).
    unfold np_neg. rewrite get_np_map, Hv, Hv'. done. }
  unfold symmetrize_warp. rewrite Hflip. simpl.
  unfold np_mean2. rewrite Hmean, Hanti. simpl.
  unfold assign_component. rewrite Hmean_shape, Hanti_shape, Hshape.
  rewrite bool_decide_eq_true_2 by done.
  rewrite (proj2 (Nat.ltb_lt _ _) Hm). cbn -[in_bounds tabulate get flip_index].
  match goal with
  | |- ∃ s, tabulate ?shp ?F = Some s ∧ _ =>
      destruct (tabulate_is_Some shp F) as [symmetrized Hsym]
  end.
  { intros idx Hin. rewrite <- Hshape in Hin.
    destruct (Hvalues idx Hin) as (v & v' & _ & _ & Hmean_v & Hanti_v).
    case_bool_decide; by eexists. }
  exists symmetrized. split; [done|]. split.
  { by rewrite (tabulate_shape _ _ _ Hsym). }
  split.
  { by eapply tabulate_well_formed. }
  intros idx component Hin Hlast.
  rewrite (get_tabulate _ _ _ _ Hsym) by done.
  rewrite <- Hshape in *.
  destruct (Hvalues idx Hin) as (v & v' & Hv & Hv' & Hmean_v & Hanti_v).
  exists v, v'. split; [done|]. split; [done|].
  rewrite Hlast.
  destruct (Nat.eqb_spec component mirror_axis) as [->|Hne].
  - by rewrite bool_decide_eq_true_2.
  - rewrite bool_decide_eq_false_2; [done|]. by intros [= ->].
Qed.

(** X14. The symmetrised warp is symmetric about the mirror axis: at two
    voxels that are reflections of each other across that axis the
    displacement components along the two other axes are equal and the
    components along the mirror axis are opposite.  Symmetrising it once
    more changes no value. *)
Theorem symmetrized_warp_is_symmetric (warp : ndarray Q)
    (mirror_axis n s0 s1 s2 : nat) :
  shape warp = [n; s0; s1; s2; 3] →
  well_formed warp →
  mirror_axis < 3 →
  ∃ symmetrized again,
    symmetrize_warp warp mirror_axis = Some symmetrized ∧
    symmetrize_warp symmetrized mirror_axis = Some again ∧
    ∀ idx component,
      in_bounds (shape warp) idx = true →
      last idx = Some component →
      ∃ x x' y,
        get symmetrized idx = Some x ∧
        get symmetrized (flip_index (shape warp) (mirror_axis + 1) idx) = Some x' ∧
        (x' == if component =? mirror_axis then - x else x)%Q ∧
        get again idx = Some y ∧ (y == x)%Q.
Proof.
  intros Hshape Hwf Hm.
  destruct (symmetrize_warp_elements warp mirror_axis n s0 s1 s2 Hshape Hwf Hm)
    as (sym & Hsym & Hsym_shape & Hsym_wf & Hsym_get).
  destruct (symmetrize_warp_elements sym mirror_axis n s0 s1 s2)
    as (again & Hagain & _ & _ & Hagain_get); [congruence|done|done|].
  exists sym, again. split; [done|]. split; [done|].
  intros idx component Hin Hlast.
  set (idx' := flip_index (shape warp) (mirror_axis + 1) idx).
  assert (in_bounds (shape warp) idx' = true) as Hin' by (by apply in_bounds_flip).
  assert (last idx' = Some component) as Hlast'.
  { unfold idx'. rewrite Hshape in *. by rewrite flip_index_last. }
  assert (flip_index (shape warp) (mirror_axis + 1) idx' = idx) as Hback.
  { by apply flip_index_involutive. }
  destruct (Hsym_get idx component Hin Hlast) as (v & v' & Hv & Hv' & Hx).
  destruct (Hsym_get idx' component Hin' Hlast') as (u & u' & Hu & Hu' & Hx').
  fold idx' in Hv'. rewrite Hback in Hu'.
  assert (u = v') as -> by congruence. assert (u' = v) as -> by congruence.
  rewrite Hsym_shape in Hagain_get.
  destruct (Hagain_get idx component Hin Hlast) as (x1 & x1' & Hx1 & Hx1' & Hy).
  fold idx' in Hx1'.
  assert (x1 = if component =? mirror_axis then (v + - v') / 2 else (v + v') / 2)%Q
    as -> by congruence.
  assert (x1' = if component =? mirror_axis then (v' + - v) / 2 else (v' + v) / 2)%Q
    as -> by congruence.
  eexists _, _, _. split; [exact Hx|]. split; [exact Hx'|].
  split; [|split; [exact Hy|]];
    destruct (component =? mirror_axis); field.
Qed.

(** Symmetrising the warp over two voxels about axis 0: the component
    along axis 0 at voxel 0 is the negative of that at voxel 1. *)
Lemma symmetrized_warp_is_symmetric_witness :
  ∃ symmetrized x x',
    symmetrize_warp Fixtures.tiny_warp 0 = Some symmetrized ∧
    get symmetrized [0; 0; 0; 0; 0] = Some x ∧
    get symmetrized [0; 1; 0; 0; 0] = Some x' ∧
    (x' == - x)%Q.
Proof.
  destruct (symmetrized_warp_is_symmetric Fixtures.tiny_warp 0 1 2 1 1)
    as (symmetrized & again & Hsym & _ & Hget); [reflexivity|reflexivity|lia|].
  destruct (Hget [0; 0; 0; 0; 0] 0 eq_refl eq_refl)
    as (x & x' & _ & Hx & Hx' & Heq & _).
  by exists symmetrized, x, x'.
Defined.

End SymmetryFacts.

(** ** Rescaled intensities ([cli/register.py]) *)

Module RescaleFacts.
Import NDArray Util Register RegisterSteps ThresholdFacts.







End RescaleFacts.

(** ** The geometry of the final image ([cli/register.py]) *)

Module FinalImageFacts.
Import NDArray NDArrayFacts Util UtilFacts RegisterFacts TransposeFacts.
Import Register RegisterSteps.

Lemma np_transpose_shape {A} (a a' : ndarray A) (P : list nat) :
  np_transpose a P = Some a' → permute (shape a) P = Some (shape a').
Proof.
  unfold np_transpose. destruct (negb _); [done|].
  destruct (permute (shape a) P) as [shp'|]; [|done]. simpl.
  destruct (inverse_axes P) as [inv|]; [|done]. simpl.
  intros H. by rewrite (tabulate_shape _ _ _ H).
Qed.

Lemma assign_where_shape mask warped source result :
  assign_where mask warped source = Some result → shape result = shape warped.
Proof.
  unfold assign_where. destruct (_ && _); [|done]. by intros [= <-].
Qed.

Lemma permute_constant {B} (x : B) (n : nat) (P : list nat) (l : list B) :
  permute (replicate n x) P = Some l → l = replicate (length P) x.
Proof.
  unfold permute. revert l. induction P as [|i P IH]; intros l; simpl.
  - by intros [= <-].
  - destruct (replicate n x !! i) as [y|] eqn:Hy; [|done]. simpl.
    apply lookup_replicate in Hy as [-> _].
    destruct (mapM _ P) as [l'|]; [|done]. simpl. intros [= <-].
    by rewrite (IH l').
Qed.

(** X16. The image written at the end of the SynthMorph stage, whenever
    the block completes, with or without a mask: it has the shape of the
    full-resolution image before transposition, but the spacing it is
    given is that of the transposed image, that is the original spacing
    read through the optimal transposition; its origin is zero and its
    direction is the identity with its rows permuted by the inverse
    transposition. *)
Theorem final_image_geometry (moving_img full_res_moving : ants_image)
    (warped : ndarray Q) (synthmorph_mask : option ants_image) (final : ants_image) :
  volume3d moving_img →
  transpose_image moving_img (optimal_transposition moving_img)
  = Some full_res_moving →
  shape warped = shape (numpy full_res_moving) →
  finish_warped synthmorph_mask full_res_moving warped
    (optimal_transposition moving_img) (inverse_transposition moving_img)
  = Some final →
  shape (numpy final) = shape (numpy moving_img) ∧
  permute (spacing moving_img) (optimal_transposition moving_img)
  = Some (spacing final) ∧
  origin final = [0; 0; 0]%Q ∧
  permute (identity_matrix 3) (inverse_transposition moving_img)
  = Some (direction final).
Proof.
  intros Hvol Hfull Hwarped Hfinish.
  pose proof (argsort_three (shape (numpy moving_img)) (vol_rank _ Hvol)) as HP.
  fold (optimal_transposition moving_img) in HP.
  assert (sorted (optimal_transposition moving_img) = seq 0 3) as Hsorted.
  { revert HP. generalize (optimal_transposition moving_img). intros P.
    unfold axis_orders. rewrite !elem_of_cons, elem_of_nil.
    intros [->|[->|[->|[->|[->|[->|[]]]]]]]; reflexivity. }
  destruct (transpose_image_spec moving_img _ Hvol Hsorted)
    as (t & Ht & Htvol & Hshape & _ & Hspacing & _ & _ & _).
  rewrite Hfull in Ht. injection Ht as <-.
  unfold finish_warped in Hfinish.
  assert (∃ w', shape w' = shape warped ∧
                (transpose_image (from_numpy_default w')
                   (inverse_transposition moving_img)
                 ≫= λ image, set_spacing image (spacing full_res_moving))
                = Some final) as (w' & Hw' & Hrest).
  { destruct synthmorph_mask as [mask|]; simpl in Hfinish.
    - destruct (transpose_image mask _) as [mask_t|]; [|done]. simpl in Hfinish.
      destruct (assign_where _ _ _) as [w'|] eqn:Hassign; [|done].
      exists w'. split; [by eapply assign_where_shape|done].
    - by exists warped. }
  clear Hfinish.
  destruct (transpose_image (from_numpy_default w') _) as [back|] eqn:Hback;
    [|done]. simpl in Hrest.
  unfold set_spacing in Hrest. destruct (_ =? _)%nat; [|done].
  injection Hrest as <-. simpl.
  unfold transpose_image in Hback. case_bool_decide; [|done].
  destruct (np_transpose _ _) as [arr|] eqn:Harr; [|done]. simpl in Hback.
  apply np_transpose_shape in Harr.
  unfold from_numpy_default, from_numpy, numpy in *. simpl in *.
  rewrite Hw', Hwarped in *.
  destruct (permute_round_trip (shape (img_array moving_img))
              (optimal_transposition moving_img) (vol_rank _ Hvol) HP)
    as (shp' & Hshp1 & Hshp2).
  unfold numpy in *. rewrite Hshape in Hshp1. injection Hshp1 as <-.
  unfold inverse_transposition in *.
  rewrite Hshp2 in Harr. injection Harr as Harr.
  pose proof (vol_rank _ Htvol) as Hrank. unfold numpy in Hrank.
  rewrite Hrank in Hback.
  destruct (permute (replicate 3 0%Q) _) as [o|] eqn:Ho; [|done].
  destruct (permute (replicate 3 1%Q) _) as [s|] eqn:Hs; [|done].
  destruct (permute (identity_matrix 3) _) as [d|] eqn:Hd; [|done].
  simpl in Hback. injection Hback as <-. simpl.
  split; [done|]. split; [done|]. split; [|done].
  apply permute_constant in Ho. rewrite Ho.
  assert (length (optimal_transposition moving_img) = 3) as Hlen.
  { by rewrite <- length_sorted, Hsorted. }
  pose proof (argsort_three _ Hlen) as Hinv. revert Hinv.
  generalize (argsort (optimal_transposition moving_img)). intros inv.
  unfold axis_orders. rewrite !elem_of_cons, elem_of_nil.
  intros [->|[->|[->|[->|[->|[->|[]]]]]]]; reflexivity.
Qed.

(** A volume of shape (2, 1, 3) and spacing (1, 2, 3): the final image
    has that shape and the spacing (2, 1, 3). *)
Lemma final_image_geometry_witness :
  ∃ full_res_moving final,
    transpose_image Fixtures.scan (optimal_transposition Fixtures.scan)
    = Some full_res_moving ∧
    finish_warped None full_res_moving Examples.warped_voxels
      (optimal_transposition Fixtures.scan) (inverse_transposition Fixtures.scan)
    = Some final ∧
    shape (numpy final) = [2; 1; 3] ∧
    spacing Fixtures.scan = [1; 2; 3]%Q ∧
    spacing final = [2; 1; 3]%Q.
Proof.
  destruct (transpose_image Fixtures.scan (optimal_transposition Fixtures.scan))
    as [full|] eqn:Hfull; [|by vm_compute in Hfull].
  assert (shape Examples.warped_voxels = shape (numpy full)) as Hshape.
  { vm_compute in Hfull. by injection Hfull as <-. }
  destruct (finish_warped None full Examples.warped_voxels
              (optimal_transposition Fixtures.scan)
              (inverse_transposition Fixtures.scan)) as [final|] eqn:Hfinal.
  2:{ vm_compute in Hfull. injection Hfull as <-. by vm_compute in Hfinal. }
  destruct (final_image_geometry Fixtures.scan full Examples.warped_voxels None final)
    as (Hfinal_shape & Hspacing & _); [constructor; reflexivity|done..|].
  exists full, final. split; [done|]. split; [done|].
  split; [exact Hfinal_shape|]. split; [reflexivity|].
  assert (permute (spacing Fixtures.scan) (optimal_transposition Fixtures.scan)
          = Some [2; 1; 3]%Q) as Hexpected by reflexivity.
  rewrite Hexpected in Hspacing. by injection Hspacing as <-.
Defined.

End FinalImageFacts.

(** ** Stepping through binds *)

Module EffectFacts.
Import Py.

Lemma bind_inv_returns {S A B} (m : M S A) (k : A → M S B) s b s' :
  (m ≫= k) s = (Returns b, s') →
  ∃ a s1, m s = (Returns a, s1) ∧ k a s1 = (Returns b, s').
Proof.
  unfold mbind, M_bind, bind. destruct (m s) as [[a|e] s1]; [|done].
  intros H. by exists a, s1.
Qed.

End EffectFacts.

(** ** The SynthMorph mask ([cli/register.py]) *)

Module MaskFacts.
Import NDArray Util Py PyFacts FS IO Register RegisterSteps EffectFacts.
Local Open Scope string_scope.

Section mask.

Context {stored : Type}
        (filter_encode : ndarray Q → stored)
        (md5_hexdigest : list Byte.byte → string)
        (file_bytes : blob → list Byte.byte)
        (ants_resample_image : ants_image → list Q → ants_image).

(** The resampler returns an image of the requested spacing. *)
Hypothesis resample_spacing :
  ∀ image new_spacing, spacing (ants_resample_image image new_spacing) = new_spacing.

Lemma on_disk_archive {A} (m : M world A) (s s' : @io_state stored) r :
  on_disk m s = (r, s') → archive s' = archive s.
Proof.
  unfold on_disk, zoom. destruct (m (disk s)). by intros [= _ <-].
Qed.

Lemma write_image_stored name image (s s' : @io_state stored) :
  write_image filter_encode name (inl image) s = (Returns tt, s') →
  is_Some (archive s' !! name).
Proof.
  destruct s as [arch w]. unfold write_image, load_image.
  cbv [create_dataset set_attr on_archive on_disk zoom mbind M_bind bind
       get_state modify ret mret M_ret raise]. simpl.
  destruct (arch !! name) eqn:Hname; simpl; [done|].
  repeat (rewrite lookup_insert_eq; simpl).
  intros [= <-]. simpl. rewrite lookup_insert_eq. by eexists.
Qed.

(** X17. The SynthMorph mask block, whenever the library calls in it
    succeed: a mask is stored in the archive only if, after the optional
    resampling, it has the shape, spacing and direction of the moving
    image; otherwise the block ends in [RuntimeError] with the archive
    untouched.  In particular, with [--downsample_to d] for a positive
    [d] the mask is resampled to spacing [(d, d, d)] and compared with the
    moving image, which has not been resampled yet at that point: unless
    the moving image already has that spacing the block ends in
    [RuntimeError]. *)
Theorem mask_geometry_enforced (mask_path : string) (downsample_to : Q)
    (moving_img : ants_image) (s s' : @io_state stored) (outcome : mask_outcome) :
  load_synthmorph_mask filter_encode md5_hexdigest file_bytes ants_resample_image
    mask_path downsample_to moving_img s = (Returns outcome, s') →
  (∀ mask, outcome = MaskStored mask →
     same_geometry mask moving_img = true ∧
     is_Some (archive s' !! "/synthmorph_mask")) ∧
  (outcome = RuntimeError → archive s' = archive s) ∧
  (positive downsample_to = true →
   tuple_eq (replicate 3 downsample_to) (spacing moving_img) = false →
   outcome = RuntimeError).
Proof.
  unfold load_synthmorph_mask. intros Hrun.
  apply bind_inv_returns in Hrun as ([] & s1 & H1 & Hrun).
  apply bind_inv_returns in Hrun as (mask0 & s2 & H2 & Hrun).
  apply bind_inv_returns in Hrun as (digest & s3 & H3 & Hrun).
  apply bind_inv_returns in Hrun as ([] & s4 & H4 & Hrun).
  apply bind_inv_returns in Hrun as ([] & s5 & H5 & Hrun).
  apply bind_inv_returns in Hrun as (mask1 & s6 & H6 & Hrun).
  apply on_disk_archive in H1, H2, H3, H4.
  assert (archive s5 = archive s4) as H5'.
  { destruct (_ && _); [by apply on_disk_archive in H5|by injection H5 as <-]. }
  assert (archive s6 = archive s5 ∧
          (positive downsample_to = true →
           spacing mask1 = replicate 3 downsample_to)) as [H6' Hmask1].
  { destruct (positive downsample_to).
    - apply bind_inv_returns in H6 as ([] & s5' & Hlog & Hret).
      apply on_disk_archive in Hlog. injection Hret as <- <-.
      split; [done|]. intros _. apply resample_spacing.
    - injection H6 as <- <-. done. }
  assert (archive s6 = archive s) as Harchive by congruence.
  destruct (same_geometry mask1 moving_img) eqn:Hsame; simpl in Hrun.
  - apply bind_inv_returns in Hrun as ([] & s7 & Hwrite & Hret).
    injection Hret as <- <-.
    split; [|split]; [|done|].
    + intros mask [= <-]. split; [done|]. by eapply write_image_stored.
    + intros Hpos Hdiffer. specialize (Hmask1 Hpos).
      unfold same_geometry in Hsame. rewrite Hmask1, Hdiffer in Hsame.
      by rewrite andb_false_r in Hsame.
  - injection Hrun as <- <-. split; [done|]. split; done.
Qed.

End mask.

(** A mask with the geometry of the moving image, whose spacing is
    (1, 2, 3), and [--downsample_to 5]. *)
Lemma mask_geometry_enforced_witness :
  ∃ s',
    load_synthmorph_mask id Examples.listing_digest Examples.raw_bytes
      Examples.resample_to "warp.nii.gz" 5 Fixtures.scan
      Examples.archive_beside_files = (Returns RuntimeError, s') ∧
    archive s' = archive Examples.archive_beside_files.
Proof.
  destruct (load_synthmorph_mask id Examples.listing_digest Examples.raw_bytes
              Examples.resample_to "warp.nii.gz" 5 Fixtures.scan
              Examples.archive_beside_files) as [[outcome|e] s'] eqn:Hrun;
    [|by vm_compute in Hrun].
  destruct (mask_geometry_enforced id Examples.listing_digest Examples.raw_bytes
              Examples.resample_to (λ _ _, eq_refl) _ _ _ _ _ _ Hrun)
    as (_ & Harchive & Hfatal).
  assert (outcome = RuntimeError) as -> by (by apply Hfatal).
  exists s'. split; [done|]. by apply Harchive.
Defined.

End MaskFacts.

(** ** More on stages and on the run as a whole ([cli/build_template.py]) *)

Module RunFacts.
Import NDArray Util Py PyFacts EffectFacts FS BuildTemplate StringFacts.
Local Open Scope string_scope.

(** What [shutil.rmtree] leaves when it returns. *)
Lemma rmtree_returns path (w w' : world) r :
  rmtree path w = (r, w') →
  (r = Returns tt ∧ fs w' !! path = None ∧
   ∀ k, below path k = true → fs w' !! k = None) ∨
  (∃ e, r = Raises e ∧ fs w' = fs w ∧ fs w !! path ≠ Some Dir).
Proof.
  unfold rmtree. cbv [mbind M_bind bind get_state modify raise].
  destruct (fs w !! path) as [[c| |t]|] eqn:Hpath; simpl; intros [= <- <-].
  - right. by eexists.
  - left. split; [done|]. simpl. split.
    + apply map_lookup_filter_None. right. intros x _ [Hne _]. by apply Hne.
    + intros k Hk. apply map_lookup_filter_None. right. intros x _ [_ Hb].
      simpl in Hb. congruence.
  - right. by eexists.
  - right. by eexists.
Qed.

Lemma write_file_returns path content (w w' : world) :
  write_file path content w = (Returns tt, w') →
  fs w' = <[path := File content]> (fs w).
Proof.
  unfold write_file.
  cbv [mbind M_bind bind get_state next_fault raise modify ret mret M_ret].
  destruct (parent_is_dir (fs w) path); [|done].
  destruct (faults w) as [|[| |] rest]; simpl; try done; by intros [= <-].
Qed.

Lemma resolve_file (t : gmap string node) path content :
  t !! path = Some (File content) → resolve t path = Some (File content).
Proof. unfold resolve. by intros ->. Qed.

Lemma path_exists_runs path (w : world) :
  path_exists path w = (Returns (bool_decide (is_Some (resolve (fs w) path))), w).
Proof. reflexivity. Qed.

Lemma step_output_exists_spec input_name step_dir write_transform mirror (w : world) :
  __step_output_exists input_name step_dir write_transform mirror w
  = (Returns
       (bool_decide (is_Some (resolve (fs w)
                       (step_output_path step_dir input_name mirror ".nii")))
        && (negb write_transform
            || bool_decide (is_Some (resolve (fs w)
                              (step_output_path step_dir input_name mirror
                                 "_t.nii.gz"))))), w).
Proof.
  unfold __step_output_exists.
  cbv [mbind M_bind bind path_exists get_state ret mret M_ret]. simpl.
  destruct (bool_decide _); simpl; [|done].
  destruct write_transform; simpl; [|done].
  by destruct (bool_decide _).
Qed.

(** After the cleanup has returned, the warped volume is gone. *)
Lemma clean_step_output_warped_gone input_name step_dir mirror (w w' : world) :
  __clean_step_output input_name step_dir mirror w = (Returns tt, w') →
  fs w' !! step_output_path step_dir input_name mirror ".nii" = None.
Proof.
  unfold __clean_step_output. intros Hrun.
  apply bind_inv_returns in Hrun as ([] & w1 & Hfirst & Hsecond).
  pose proof (StageFacts.remove_if_present_gone
                (step_output_path step_dir input_name mirror ".nii") w) as Hgone.
  rewrite Hfirst in Hgone. simpl in Hgone.
  pose proof (StageFacts.remove_if_present_other
                (step_output_path step_dir input_name mirror "_t.nii.gz")
                (step_output_path step_dir input_name mirror ".nii") w1) as Hkeep.
  rewrite Hsecond in Hkeep. simpl in Hkeep.
  rewrite Hkeep; [by apply Hgone|].
  intros Heq. by apply StageFacts.step_output_path_inj in Heq.
Qed.

(** X19. The three helpers of a stage agree on the names of an item's
    outputs: after [__write_step_output] has returned,
    [__step_output_exists] with the same arguments answers [True]; after
    [__clean_step_output] has returned, it answers [False] for the
    cleaned variant, with or without transform files. *)
Theorem step_output_write_exists_clean (registration : registration_result)
    (input_name step_dir : string) (write_transform mirror : bool) (w w' : world) :
  (__write_step_output registration input_name step_dir write_transform mirror w
   = (Returns tt, w') →
   __step_output_exists input_name step_dir write_transform mirror w'
   = (Returns true, w')) ∧
  (__clean_step_output input_name step_dir mirror w = (Returns tt, w') →
   __step_output_exists input_name step_dir write_transform mirror w'
   = (Returns false, w')).
Proof.
  rewrite step_output_exists_spec. split.
  - unfold __write_step_output, image_write. intros Hrun.
    apply bind_inv_returns in Hrun as ([] & w1 & Hwarped & Hrun).
    apply write_file_returns in Hwarped.
    destruct write_transform; simpl.
    + apply bind_inv_returns in Hrun as (transform & w2 & Hlookup & Hrun).
      destruct (fwdtransforms registration !! 0%nat); [|done].
      injection Hlookup as <- <-.
      apply write_file_returns in Hrun. rewrite Hrun, Hwarped.
      rewrite !bool_decide_eq_true_2; [done| |].
      * eexists. apply resolve_file. apply lookup_insert_eq.
      * eexists. apply resolve_file. rewrite lookup_insert_ne.
        -- apply lookup_insert_eq.
        -- intros Heq. by apply StageFacts.step_output_path_inj in Heq.
    + injection Hrun as <-. rewrite Hwarped.
      rewrite bool_decide_eq_true_2; [done|].
      eexists. apply resolve_file. apply lookup_insert_eq.
  - intros Hrun.
    apply clean_step_output_warped_gone in Hrun as Hgone.
    rewrite bool_decide_eq_false_2; [done|].
    unfold resolve. rewrite Hgone. by intros [? ?].
Qed.

Section engine.

Context (ants_registration : ants_image → ants_image → string → registration_result)
        (ants_apply_transforms : ants_image → ants_image → ants_image → ants_image)
        (__legacy_preprocess clahe : ants_image → ants_image).

(** X18. However a run of [build_template] ends, with a return or with
    an exception, no scratch directory is left under the output directory;
    and when the run returns, nothing is left at or below [scratch]. *)
Theorem build_template_removes_scratch (args : arguments) (w : world) :
  let run := build_template ants_registration ants_apply_transforms
               __legacy_preprocess clahe args w in
  fs run.2 !! (output args +:+ "/scratch") ≠ Some Dir ∧
  (run.1 = Returns tt →
   fs run.2 !! (output args +:+ "/scratch") = None ∧
   ∀ k, below (output args +:+ "/scratch") k = true → fs run.2 !! k = None).
Proof.
  unfold build_template, try_finally. simpl.
  destruct (try_except _ _ w) as [r w1].
  cbv [mbind M_bind bind logger modify]. simpl.
  set (w2 := {| fs := fs w1; log := _; faults := faults w1 |}).
  destruct (rmtree (output args +:+ "/scratch") w2) as [r' w3] eqn:Hrm.
  apply rmtree_returns in Hrm as [(-> & Hgone & Hbelow)|(e & -> & Hfs & Hnot)].
  - simpl. split; [by rewrite Hgone|]. done.
  - simpl. split; [by rewrite Hfs|]. done.
Qed.

(** A retry loop that returns ends with an attempt that returned. *)
Lemma generate_template_loop_returns remaining attempt output_path (w w' : world) :
  generate_template_loop remaining attempt output_path w = (Returns tt, w') →
  ∃ w0, attempt w0 = (Returns tt, w').
Proof.
  revert w. induction remaining as [|remaining IH]; intros w; simpl;
    unfold try_except; destruct (attempt w) as [[[]|e] w1] eqn:Hattempt.
  - intros [= <-]. by exists w.
  - intros Hrun. apply bind_inv_returns in Hrun as ([] & w2 & _ & Hraise). done.
  - intros [= <-]. by exists w.
  - intros Hrun.
    apply bind_inv_returns in Hrun as ([] & w2 & _ & Hrun).
    apply bind_inv_returns in Hrun as ([] & w3 & _ & Hrun).
    by apply IH in Hrun.
Qed.

(** An attempt that returns has written the template. *)
Lemma generate_template_attempt_writes args step_name output_path transform_avg
    (w w' : world) :
  generate_template_attempt ants_apply_transforms args step_name output_path
    transform_avg w = (Returns tt, w') →
  ∃ template, fs w' !! output_path = Some (File (BImage template)).
Proof.
  unfold generate_template_attempt, image_write. destruct transform_avg.
  - intros Hrun.
    apply bind_inv_returns in Hrun as (cached & w1 & _ & Hrun).
    apply bind_inv_returns in Hrun as (avg_img & w2 & _ & Hrun).
    apply bind_inv_returns in Hrun as (template & w3 & _ & Hrun).
    apply write_file_returns in Hrun. exists template.
    rewrite Hrun. apply lookup_insert_eq.
  - intros Hrun.
    apply bind_inv_returns in Hrun as (template & w1 & _ & Hrun).
    apply write_file_returns in Hrun. exists template.
    rewrite Hrun. apply lookup_insert_eq.
Qed.

Lemma generate_template_writes args step_name output_path transform_avg
    (w w' : world) :
  generate_template ants_apply_transforms args step_name output_path
    transform_avg w = (Returns tt, w') →
  ∃ template, fs w' !! output_path = Some (File (BImage template)).
Proof.
  unfold generate_template. intros Hrun.
  apply bind_inv_returns in Hrun as ([] & w1 & _ & Hrun).
  apply generate_template_loop_returns in Hrun as [w0 Hattempt].
  by eapply generate_template_attempt_writes.
Qed.

Lemma in_world_returns {A} (m : M world A) (fr fr' : frame) a :
  in_world m fr = (Returns a, fr') →
  m (frame_world fr) = (Returns a, frame_world fr').
Proof.
  unfold in_world, zoom. destruct (m (frame_world fr)) as [r w'].
  by intros [= -> <-].
Qed.

(** X20. A stage and its template.  When [alignment_iteration] returns,
    the template of the stage exists under [templates/]; and when that
    template exists already, [alignment_iteration] returns at once: it
    reads no input, calls no registration and writes nothing, it only
    makes sure that the stage directory exists and logs a line.  So a
    resumed run never recomputes a finished stage. *)
Theorem alignment_iteration_template (args : arguments)
    (moving_dir step_name fixed_path type_of_transform : string)
    (transform_avg mirror : bool) (w : world) :
  let template := output args +:+ "/templates/" +:+ step_name +:+ ".nii" in
  let stage := alignment_iteration ants_registration ants_apply_transforms args
                 moving_dir step_name fixed_path type_of_transform
                 transform_avg mirror in
  (∀ w', stage w = (Returns tt, w') → is_Some (resolve (fs w') template)) ∧
  (∀ w1,
     makedirs (output args +:+ "/scratch/" +:+ step_name) w = (Returns tt, w1) →
     is_Some (resolve (fs w1) template) →
     stage w
     = (Returns tt,
        mk_world (fs w1)
          (log w1 ++ [(INFO, step_name +:+ " template already exists")])
          (faults w1))).
Proof.
  simpl. split.
  - intros w'. unfold alignment_iteration, call.
    match goal with
    | |- (let (r, fr) := ?run in _) = _ → _ =>
        destruct run as [r fr'] eqn:Hrun
    end.
    intros [= -> <-].
    apply bind_inv_returns in Hrun as ([] & fr1 & _ & Hrun).
    apply bind_inv_returns in Hrun as (finished & fr2 & Hexists & Hrun).
    apply in_world_returns in Hexists. rewrite path_exists_runs in Hexists.
    injection Hexists as <- Hfr2.
    destruct (bool_decide _) eqn:Hfinished.
    + apply in_world_returns in Hrun. injection Hrun as <-. simpl.
      rewrite <- Hfr2. by apply bool_decide_eq_true_1 in Hfinished.
    + apply bind_inv_returns in Hrun as (fixed & fr3 & _ & Hrun).
      apply bind_inv_returns in Hrun as (input_paths & fr4 & _ & Hrun).
      apply bind_inv_returns in Hrun as ([] & fr5 & _ & Hrun).
      apply bind_inv_returns in Hrun as ([] & fr6 & _ & Hrun).
      apply bind_inv_returns in Hrun as ([] & fr7 & Hgenerate & Hrun).
      apply in_world_returns in Hgenerate, Hrun.
      apply generate_template_writes in Hgenerate as [template Htemplate].
      injection Hrun as <-. simpl. eexists. by apply resolve_file.
  - intros w1 Hmakedirs Hexists. unfold alignment_iteration, call.
    cbv [in_world zoom mbind M_bind bind]. simpl. rewrite Hmakedirs. simpl.
    rewrite bool_decide_eq_true_2 by done. reflexivity.
Qed.

(** Averaging over a directory without a match fails, whatever the log
    holds. *)
Lemma average_images_no_match dir suffix (w w1 : world) :
  glob_star dir suffix w = (Returns [], w) → fs w1 = fs w →
  __average_images dir suffix w1 = (Raises IndexError, w1).
Proof.
  unfold glob_star. cbv [mbind M_bind bind get_state ret mret M_ret].
  intros [= Hglob] Hfs. unfold __average_images, glob_star.
  cbv [mbind M_bind bind get_state ret mret M_ret]. by rewrite Hfs, Hglob.
Qed.

Lemma clean_template_absent path (w : world) :
  fs w !! path = None → __clean_template path w = (Returns tt, w).
Proof.
  intros Habsent. unfold __clean_template, remove_if_present, try_except, remove.
  cbv [mbind M_bind bind get_state raise]. by rewrite Habsent.
Qed.

Lemma try_except_raises {S A} (body : M S A) (handler : exn → M S A) s e s' :
  body s = (Raises e, s') → try_except body handler s = handler e s'.
Proof. intros Hbody. unfold try_except. by rewrite Hbody. Qed.

Lemma generate_template_loop_retry remaining attempt output_path :
  generate_template_loop (S remaining) attempt output_path
  = try_except attempt
      (λ exc, logger ERROR "Caught exception, retrying";;
              __clean_template output_path;;
              generate_template_loop remaining attempt output_path).
Proof. reflexivity. Qed.

(** X21. A stage that averages volumes directly and whose stage directory
    holds no [.nii] file: [generate_template] makes three attempts, each
    failing with [IndexError] on the first of no paths, logs two retries
    and the final failure, and raises [IndexError]; no file is created or
    changed. *)
Theorem generate_template_empty_stage (args : arguments)
    (step_name output_path : string) (w : world) :
  ends_with ".nii" output_path = true →
  glob_star (output args +:+ "/scratch/" +:+ step_name) ".nii" w = (Returns [], w) →
  fs w !! output_path = None →
  generate_template ants_apply_transforms args step_name output_path false w
  = (Raises IndexError,
     mk_world (fs w)
       (log w ++ [(ERROR, "Caught exception, retrying");
                  (ERROR, "Caught exception, retrying");
                  (ERROR, "Caught exception, max retries reached")])
       (faults w)).
Proof.
  intros Hsuffix Hglob Habsent.
  assert (∀ w1, fs w1 = fs w →
            generate_template_attempt ants_apply_transforms args step_name
              output_path false w1 = (Raises IndexError, w1)) as Hattempt.
  { intros w1 Hfs. unfold generate_template_attempt.
    by rewrite (bind_raises _ _ _ _ _ (average_images_no_match _ _ _ _ Hglob Hfs)). }
  set (attempt := generate_template_attempt ants_apply_transforms args step_name
                    output_path false) in *.
  unfold generate_template. fold attempt. rewrite Hsuffix.
  rewrite (bind_returns (py_assert true) _ w tt w eq_refl).
  rewrite 2!generate_template_loop_retry.
  assert (∀ w1, fs w1 = fs w →
            __clean_template output_path w1 = (Returns tt, w1)) as Hclean.
  { intros w1 Hfs. apply clean_template_absent. by rewrite Hfs. }
  erewrite try_except_raises by (apply Hattempt; reflexivity).
  erewrite (bind_returns (logger ERROR "Caught exception, retrying"))
    by reflexivity.
  erewrite (bind_returns (__clean_template output_path))
    by (apply Hclean; reflexivity).
  erewrite try_except_raises by (apply Hattempt; reflexivity).
  erewrite (bind_returns (logger ERROR "Caught exception, retrying"))
    by reflexivity.
  erewrite (bind_returns (__clean_template output_path))
    by (apply Hclean; reflexivity).
  change (generate_template_loop 0 attempt output_path)
    with (try_except attempt
            (λ exc, logger ERROR "Caught exception, max retries reached";;
                    raise exc)).
  erewrite try_except_raises by (apply Hattempt; reflexivity).
  erewrite (bind_returns (logger ERROR "Caught exception, max retries reached"))
    by reflexivity.
  unfold raise. simpl. by rewrite <- !app_assoc.
Qed.

Lemma prefix_app (a b c : string) :
  String.prefix (a +:+ b) (a +:+ c) = String.prefix b c.
Proof.
  induction a as [|x a IH]; [done|].
  change (String.prefix (String x (a +:+ b)) (String x (a +:+ c))
          = String.prefix b c).
  simpl. destruct (ascii_dec x x); [done|congruence].
Qed.

Lemma below_same_root (root a b : string) :
  below (root +:+ a) (root +:+ b) = String.prefix (a +:+ "/") b.
Proof. unfold below, starts_with. by rewrite <- append_assoc, prefix_app. Qed.

Lemma append_inv_head (a b c : string) : a +:+ b = a +:+ c → b = c.
Proof.
  induction a as [|x a IH]; [done|].
  change (String x (a +:+ b) = String x (a +:+ c) → b = c).
  intros [= H]. by apply IH.
Qed.

Lemma rmtree_inv path (w w' : world) :
  rmtree path w = (Returns tt, w') →
  w' = set_fs (filter (λ kv : string * node,
                         kv.1 ≠ path ∧ below path kv.1 = false)) w.
Proof.
  unfold rmtree. cbv [mbind M_bind bind get_state raise modify].
  destruct (fs w !! path) as [[| |]|]; try done. by intros [= <-].
Qed.

(** X22. The end of a run without [--keep_intermediates]: when the final
    block returns, [template.nii] holds what the template of the last SyN
    stage held, that template is gone from [templates/], and nothing is
    left of [preprocessed/] and [templates/]. *)
Theorem finish_template_default (args : arguments) (w w' : world) :
  keep_intermediates args = false →
  finish_template args w = (Returns tt, w') →
  let last := output args +:+ "/templates/syn_"
              +:+ pretty (syn_steps args - 1)%Z +:+ ".nii" in
  fs w' !! (output args +:+ "/template.nii") = fs w !! last ∧
  is_Some (fs w !! last) ∧
  ∀ dir, dir ∈ ["/preprocessed"; "/templates"] →
    fs w' !! (output args +:+ dir) = None ∧
    ∀ k, below (output args +:+ dir) k = true → fs w' !! k = None.
Proof.
  intros Hkeep Hrun last. unfold finish_template in Hrun. rewrite Hkeep in Hrun.
  apply bind_inv_returns in Hrun as ([] & w1 & Hlog & Hrun).
  apply bind_inv_returns in Hrun as ([] & w2 & Hmove & Hrun).
  apply bind_inv_returns in Hrun as ([] & w3 & Hremove & Hlog').
  apply bind_inv_returns in Hremove as ([] & w4 & Hpre & Htem).
  apply rmtree_inv in Hpre, Htem. injection Hlog as <-. injection Hlog' as <-.
  fold last in Hmove. unfold move in Hmove.
  cbv [mbind M_bind bind get_state raise modify] in Hmove. simpl in Hmove.
  destruct (fs w !! last) as [template|] eqn:Hlast; [|done].
  destruct (parent_is_dir _ _); [|done]. injection Hmove as <-.
  subst w3 w4. simpl.
  split; [|split; [done|]].
  - apply map_lookup_filter_Some. split.
    + apply map_lookup_filter_Some. split; [apply lookup_insert_eq|].
      simpl. split.
      * intros Heq. by apply append_inv_head in Heq.
      * by rewrite below_same_root.
    + simpl. split.
      * intros Heq. by apply append_inv_head in Heq.
      * by rewrite below_same_root.
  - intros dir Hdir. rewrite !elem_of_cons, elem_of_nil in Hdir.
    destruct Hdir as [->|[->|[]]].
    + split.
      * apply map_lookup_filter_None. left.
        apply map_lookup_filter_None. right. intros x _ [Hne _]. by apply Hne.
      * intros k Hk. apply map_lookup_filter_None. left.
        apply map_lookup_filter_None. right. intros x _ [_ Hb]. simpl in Hb.
        congruence.
    + split.
      * apply map_lookup_filter_None. right. intros x _ [Hne _]. by apply Hne.
      * intros k Hk. apply map_lookup_filter_None. right. intros x _ [_ Hb].
        simpl in Hb. congruence.
Qed.

End engine.

Lemma step_output_write_exists_clean_witness :
  __step_output_exists "a" "out/scratch/affine_0" true false
    (__write_step_output
       (Fixtures.identity_registration Fixtures.brain_a Fixtures.brain_a "Affine")
       "a" "out/scratch/affine_0" true false Fixtures.no_failure).2
  = (Returns true,
     (__write_step_output
        (Fixtures.identity_registration Fixtures.brain_a Fixtures.brain_a "Affine")
        "a" "out/scratch/affine_0" true false Fixtures.no_failure).2).
Proof.
  apply (proj1 (step_output_write_exists_clean
                  (Fixtures.identity_registration Fixtures.brain_a
                     Fixtures.brain_a "Affine")
                  "a" "out/scratch/affine_0" true false Fixtures.no_failure _)).
  vm_compute. reflexivity.
Defined.

Lemma build_template_removes_scratch_witness :
  (Fixtures.run_build_template (Fixtures.template_args false false)
     Fixtures.fresh_inputs).1 = Returns tt ∧
  fs (Fixtures.run_build_template (Fixtures.template_args false false)
        Fixtures.fresh_inputs).2 !! "out/scratch" = None.
Proof.
  split; [vm_compute; reflexivity|].
  pose proof (build_template_removes_scratch Fixtures.identity_registration
                Fixtures.identity_apply_transforms id id
                (Fixtures.template_args false false) Fixtures.fresh_inputs)
    as Hrun.
  cbv zeta in Hrun. destruct Hrun as [_ Hrun].
  destruct Hrun as [Hgone _]; [vm_compute; reflexivity|exact Hgone].
Defined.

Lemma alignment_iteration_template_witness :
  is_Some (resolve (fs (Fixtures.affine_stage false Fixtures.no_failure).2)
             "out/templates/affine_0.nii").
Proof.
  apply (proj1 (alignment_iteration_template Fixtures.identity_registration
                  Fixtures.identity_apply_transforms
                  (Fixtures.template_args false false)
                  "out/preprocessed" "affine_0" "ref.nii" "Affine" false false
                  Fixtures.no_failure)).
  vm_compute. reflexivity.
Defined.

Lemma generate_template_empty_stage_witness :
  (generate_template Fixtures.identity_apply_transforms
     (Fixtures.template_args false false) "affine_0"
     "out/templates/affine_0.nii" false (Fixtures.stage_ready [] [])).1
  = Raises IndexError.
Proof.
  rewrite (generate_template_empty_stage Fixtures.identity_apply_transforms
             (Fixtures.template_args false false) "affine_0"
             "out/templates/affine_0.nii" (Fixtures.stage_ready [] []));
    [reflexivity| | |]; vm_compute; reflexivity.
Defined.

Lemma finish_template_default_witness :
  fs (finish_template (Fixtures.template_args false false)
        Examples.stages_finished).2 !! "out/template.nii"
  = Some (File (BImage Fixtures.brain_b)).
Proof.
  destruct (finish_template_default (Fixtures.template_args false false)
              Examples.stages_finished
              (finish_template (Fixtures.template_args false false)
                 Examples.stages_finished).2) as (Hmoved & _);
    [reflexivity|vm_compute; reflexivity|].
  etransitivity; [exact Hmoved|]. vm_compute. reflexivity.
Defined.

End RunFacts.

(** ** The head of [register] ([cli/register.py]) *)

Module HeadFacts.
Import NDArray Util Py PyFacts EffectFacts FS StringFacts Register Digest.
Import RegisterSteps.
Local Open Scope string_scope.

(** Writing a file or a directory under some name leaves every path that
    existed in existence. *)
Lemma resolve_insert_some (t : gmap string node) k v p :
  (∀ target, v ≠ Symlink target) →
  is_Some (resolve t p) → is_Some (resolve (<[k := v]> t) p).
Proof.
  intros Hv. unfold resolve. destruct (decide (p = k)) as [->|Hne].
  - intros _. rewrite lookup_insert_eq. destruct v; try done. by destruct (Hv target).
  - rewrite lookup_insert_ne by done.
    destruct (t !! p) as [[c| |target]|]; try done.
    destruct (decide (target = k)) as [->|Hne'].
    + by rewrite lookup_insert_eq.
    + by rewrite lookup_insert_ne.
Qed.

Lemma makedirs_loop (paths : list string) (w w' : world) r :
  for_each paths (λ p,
    w ← get_state;
    match resolve (fs w) p with
    | None => modify (set_fs (insert p Dir))
    | Some Dir => ret tt
    | Some _ => raise FileExistsError
    end) w = (r, w') →
  (∀ q, is_Some (resolve (fs w) q) → is_Some (resolve (fs w') q)) ∧
  (r = Returns tt → ∀ p, p ∈ paths → is_Some (resolve (fs w') p)).
Proof.
  revert w. induction paths as [|x paths IH]; intros w; simpl.
  - intros [= <- <-]. split; [done|]. intros _ p Hp. by apply elem_of_nil in Hp.
  - cbv [mbind M_bind bind get_state modify raise ret mret M_ret].
    destruct (resolve (fs w) x) as [[c| |target]|] eqn:Hx.
    + intros [= <- <-]. by split.
    + intros Hrest. apply IH in Hrest as [Hgrows Hmade]. split; [done|].
      intros Hr p Hp. apply elem_of_cons in Hp as [->|Hp]; [|by apply Hmade].
      apply Hgrows. by rewrite Hx.
    + intros [= <- <-]. by split.
    + intros Hrest. apply IH in Hrest as [Hgrows Hmade]. simpl in Hgrows. split.
      * intros q Hq. apply Hgrows. by apply resolve_insert_some.
      * intros Hr p Hp. apply elem_of_cons in Hp as [->|Hp]; [|by apply Hmade].
        apply Hgrows. unfold resolve. by rewrite lookup_insert_eq.
Qed.

Lemma path_prefixes_self path : path ≠ "" → path ∈ path_prefixes path.
Proof.
  intros Hne. unfold path_prefixes. apply list_elem_of_filter. split; [done|].
  apply list_elem_of_fmap. exists (length (split_on "/" path)). split.
  - by rewrite firstn_all, join_split.
  - apply elem_of_seq. pose proof (split_on_nonempty "/" path) as Hparts.
    destruct (split_on "/" path); [done|]. simpl. lia.
Qed.

Lemma write_file_grows path content (w w' : world) r :
  write_file path content w = (r, w') →
  ∀ q, is_Some (resolve (fs w) q) → is_Some (resolve (fs w') q).
Proof.
  unfold write_file.
  cbv [mbind M_bind bind get_state next_fault raise modify ret mret M_ret].
  destruct (parent_is_dir (fs w) path); [|by intros [= <- <-]].
  destruct (faults w) as [|[| |] rest]; simpl; intros [= <- <-]; simpl;
    try done; intros q Hq; by apply resolve_insert_some.
Qed.

Lemma open_log_file_grows log_path (w w' : world) r :
  BuildTemplate.open_log_file log_path w = (r, w') →
  ∀ q, is_Some (resolve (fs w) q) → is_Some (resolve (fs w') q).
Proof.
  unfold BuildTemplate.open_log_file.
  cbv [mbind M_bind bind get_state raise modify ret mret M_ret].
  destruct (resolve (fs w) log_path) as [[c| |target]|];
    try by intros [= <- <-].
  destruct (parent_is_dir (fs w) log_path); intros [= <- <-]; [|done].
  simpl. intros q Hq. by apply resolve_insert_some.
Qed.

Lemma makedirs_new_returns path (w w' : world) :
  path ≠ "" → makedirs_new path w = (Returns tt, w') →
  is_Some (resolve (fs w') path) ∧
  ∀ q, is_Some (resolve (fs w) q) → is_Some (resolve (fs w') q).
Proof.
  intros Hne. unfold makedirs_new. cbv [mbind M_bind bind get_state raise].
  destruct (resolve (fs w) path); [done|]. unfold makedirs. intros Hrun.
  apply makedirs_loop in Hrun as [Hgrows Hmade]. split; [|done].
  apply Hmade; [done|]. by apply path_prefixes_self.
Qed.

(** What the path logic leaves when it returns without [--force]. *)
Lemma register_path_logic_returns (args : arguments) (w w' : world) proceed :
  rstrip_slash (results_dir args) ≠ "" → force args = false →
  register_path_logic args w = (Returns proceed, w') →
  is_Some (resolve (fs w') (rstrip_slash (results_dir args))) ∧
  is_Some (resolve (fs w') (moving args)).
Proof.
  intros Hne Hforce. unfold register_path_logic. rewrite Hforce. intros Hrun.
  apply bind_inv_returns in Hrun as (present & w1 & Hpresent & Hrun).
  injection Hpresent as <- <-.
  apply bind_inv_returns in Hrun as ([] & w1 & Hassert & Hrun).
  unfold py_assert in Hassert. case_bool_decide as Hmoving; [|done].
  injection Hassert as <-.
  apply bind_inv_returns in Hrun as ([] & w1 & Hlog & Hrun).
  injection Hlog as <-.
  apply bind_inv_returns in Hrun as (present & w1 & Hpresent & Hrun).
  injection Hpresent as <- <-. simpl in Hrun.
  case_bool_decide as Hresults.
  - apply bind_inv_returns in Hrun as ([] & w1 & Hlog & Hrun).
    injection Hlog as <-. injection Hrun as <- <-. by split.
  - apply bind_inv_returns in Hrun as ([] & w1 & Hmake & Hrun).
    injection Hrun as <- <-.
    apply makedirs_new_returns in Hmake as [Hmade Hgrows]; [|done].
    split; [done|]. by apply Hgrows.
Qed.

Section head.

Context (url_content : string → blob) (package_path : string).

(** X23. Runs of [register] without [--force] over the same results
    directory: once the head of [register] has returned, be it at the
    [return] for an existing results directory, at the [return] for
    "all registration steps skipped" or on its way into the pipeline,
    the head of every later run stops at "Results directory already
    exists" and changes no file.  So the run that the warning about
    skipped steps asks for does nothing unless [--force] is added. *)
Theorem register_head_rerun (args args' : arguments)
    (log_arg log_arg' : option string) (w w' : world) (r : option string) :
  rstrip_slash (results_dir args) ≠ "" →
  force args = false →
  register_head url_content package_path args log_arg w = (Returns r, w') →
  moving args' = moving args →
  results_dir args' = results_dir args →
  force args' = false →
  register_head url_content package_path args' log_arg' w'
  = (Returns None,
     mk_world (fs w')
       (log w' ++
        [(INFO, "Storing results in " +:+ rstrip_slash (results_dir args));
         (WARNING, "Results directory already exists. Run again with -f or --force to override")])
       (faults w')).
Proof.
  intros Hne Hforce Hrun Hmoving Hresults Hforce'.
  assert (is_Some (resolve (fs w') (rstrip_slash (results_dir args))) ∧
          is_Some (resolve (fs w') (moving args))) as [Hdir Hfile].
  { unfold register_head in Hrun.
    apply bind_inv_returns in Hrun as (proceed & w1 & Hpaths & Hrun).
    apply register_path_logic_returns in Hpaths as [Hdir Hfile]; [|done..].
    destruct proceed; [|by injection Hrun as <- <-].
    apply bind_inv_returns in Hrun as (present & w2 & Hpresent & Hrun).
    injection Hpresent as <- <-.
    apply bind_inv_returns in Hrun as ([] & w2 & Hweights & Hrun).
    assert (∀ q, is_Some (resolve (fs w1) q) → is_Some (resolve (fs w2) q))
      as Hgrows.
    { destruct (negb _); [|by injection Hweights as <-].
      apply bind_inv_returns in Hweights as ([] & w3 & Hlog & Hweights).
      injection Hlog as <-. unfold download_weights in Hweights.
      apply bind_inv_returns in Hweights as ([] & w4 & Hmake & Hwrite).
      apply makedirs_loop in Hmake as [Hmake _].
      intros q Hq. eapply write_file_grows; [exact Hwrite|]. by apply Hmake. }
    destruct (_ && _).
    - apply bind_inv_returns in Hrun as ([] & w3 & Hlog & Hrun).
      injection Hlog as <-. injection Hrun as <- <-. split; by apply Hgrows.
    - apply bind_inv_returns in Hrun as ([] & w3 & Hlog & Hrun).
      injection Hlog as <-.
      apply bind_inv_returns in Hrun as ([] & w3 & Hopen & Hrun).
      apply bind_inv_returns in Hrun as ([] & w4 & Hlog & Hrun).
      injection Hlog as <-. injection Hrun as <- <-. simpl.
      split; eapply open_log_file_grows; try exact Hopen; by apply Hgrows. }
  unfold register_head, register_path_logic.
  rewrite Hmoving, Hresults, Hforce'.
  cbv [mbind M_bind bind path_exists get_state ret mret M_ret py_assert logger
       modify]. simpl.
  rewrite !bool_decide_eq_true_2 by done. simpl.
  by rewrite <- app_assoc.
Qed.

End head.

Lemma register_head_rerun_witness :
  register_head Examples.served "pkg" Fixtures.register_args None
    (register_head Examples.served "pkg" Examples.all_steps_skipped None
       Examples.before_first_run).2
  = (Returns None,
     mk_world
       (fs (register_head Examples.served "pkg" Examples.all_steps_skipped None
              Examples.before_first_run).2)
       (log (register_head Examples.served "pkg" Examples.all_steps_skipped None
               Examples.before_first_run).2 ++
        [(INFO, "Storing results in results");
         (WARNING, "Results directory already exists. Run again with -f or --force to override")])
       (faults (register_head Examples.served "pkg" Examples.all_steps_skipped
                  None Examples.before_first_run).2)).
Proof.
  apply (register_head_rerun Examples.served "pkg" Examples.all_steps_skipped
           Fixtures.register_args None None Examples.before_first_run _ None);
    first [reflexivity | vm_compute; discriminate | vm_compute; reflexivity].
Defined.

End HeadFacts.
